(** * MissionMonitor: storage, Sheets export and deadline checker

    A shallow embedding of the persistence layer ([storage.ts]), of the
    Google Sheets export ([sheets.ts]) and of the deadline sweep
    ([deadline-checker.ts]) of the Mission Control bot, with the properties
    the specification states about them; and, in a second part, of the
    Discord and Telegram handlers, the templates, the configuration lists
    and the status summary, with properties read off the code.

    Conventions of the embedding.
    - A JSON file holding one array is the list of its records; a file that
      does not exist yet loads as the empty list, exactly as [loadMissions]
      and [loadSubmissions] return [{ missions: [] }] for it.
    - A mission's [deadline], the one ISO-8601 string the code parses back
      ([new Date(m.deadline)]), is represented by the time value it denotes
      (milliseconds since the epoch, a [Z]); [new Date(iso) < now] is then
      [<?] on time values. The other timestamps are never parsed and stay
      strings.
    - Every read of the clock is an explicit argument: [now] for
      [Date.now()] and for the [Date] compared with a deadline, [nowIso] for
      [new Date().toISOString()].
    - Strings are sequences of bytes; identifiers of the chat platforms are
      ASCII, where bytes and UTF-16 code units agree. The string methods
      that count or classify code units ([slice], [trim], [toLowerCase]) are
      embedded as they act on ASCII strings ([isAscii]), and what is proved
      of the functions built on them is proved of such strings. *)

From Stdlib Require Import ZArith List String Ascii Bool Lia DecimalString.
From Stdlib Require Import Permutation Sorted SpecFloat.
Import ListNotations.
Open Scope string_scope.
Open Scope Z_scope.

(** ** JavaScript helpers *)

(** Template-literal rendering of an integer-valued number. *)
Definition string_of_Z (z : Z) : string := NilZero.string_of_int (Z.to_int z).

(** [Array.prototype.findIndex]; [None] stands for the result [-1]. *)
Fixpoint findIndex {A : Type} (p : A -> bool) (l : list A) : option nat :=
  match l with
  | [] => None
  | x :: r => if p x then Some O
              else match findIndex p r with
                   | Some i => Some (S i)
                   | None => None
                   end
  end.

(** [arr[i] = v] for an index inside the array. *)
Fixpoint setAt {A : Type} (i : nat) (v : A) (l : list A) : list A :=
  match l, i with
  | [], _ => []
  | _ :: r, O => v :: r
  | x :: r, S k => x :: setAt k v r
  end.

(** [const x = arr.find(p); if (x) { mutate x }]: the object returned by
    [find] is the array's own element, so the mutation [f] lands on the first
    element satisfying [p] and on no other. *)
Fixpoint mutateFirst {A : Type} (p : A -> bool) (f : A -> A) (l : list A) : list A :=
  match l with
  | [] => []
  | x :: r => if p x then f x :: r else x :: mutateFirst p f r
  end.

(** ** storage.ts *)

Inductive MissionStatus : Type := active | closed | exported.

Definition status_eqb (a b : MissionStatus) : bool :=
  match a, b with
  | active, active | closed, closed | exported, exported => true
  | _, _ => false
  end.

Module Mission.
Record t : Type := mk {
  id : string;
  title : string;
  threadId : string;
  deadline : Z;
  status : MissionStatus;
  createdAt : string;
  exportedAt : option string;
  brief : option string;
  telegramMessageId : option string;
  telegramChatId : option string
}.

Definition set_status (st : MissionStatus) (m : t) : t :=
  mk (id m) (title m) (threadId m) (deadline m) st (createdAt m)
     (exportedAt m) (brief m) (telegramMessageId m) (telegramChatId m).

Definition set_exportedAt (ts : string) (m : t) : t :=
  mk (id m) (title m) (threadId m) (deadline m) (status m) (createdAt m)
     (Some ts) (brief m) (telegramMessageId m) (telegramChatId m).
End Mission.

Module Vote.
Record t : Type := mk {
  judgeId : string;
  score : Z;
  timestamp : string
}.
End Vote.

Inductive Source : Type := discord | telegram.

Module Submission.
Record t : Type := mk {
  id : string;
  messageId : string;
  channelId : string;
  threadId : string;
  missionId : string;
  userId : string;
  userTag : string;
  content : string;
  urls : list string;
  votes : list Vote.t;
  submittedAt : string;
  exported : bool;
  source : Source
}.

Definition set_votes (vs : list Vote.t) (s : t) : t :=
  mk (id s) (messageId s) (channelId s) (threadId s) (missionId s)
     (userId s) (userTag s) (content s) (urls s) vs (submittedAt s)
     (exported s) (source s).

Definition set_exported (b : bool) (s : t) : t :=
  mk (id s) (messageId s) (channelId s) (threadId s) (missionId s)
     (userId s) (userTag s) (content s) (urls s) (votes s) (submittedAt s)
     b (source s).
End Submission.

(** The data directory: [missions.json] and [submissions.json]. *)
Record Disk : Type := mkDisk {
  missionsFile : list Mission.t;
  submissionsFile : list Submission.t
}.

Definition emptyDisk : Disk := mkDisk [] [].

Module Storage.

Definition loadMissions (d : Disk) : list Mission.t := missionsFile d.

Definition saveMissions (data : list Mission.t) (d : Disk) : Disk :=
  mkDisk data (submissionsFile d).

Definition loadSubmissions (d : Disk) : list Submission.t := submissionsFile d.

Definition saveSubmissions (data : list Submission.t) (d : Disk) : Disk :=
  mkDisk (missionsFile d) data.

Definition registerMission (now : Z) (nowIso : string)
    (threadId title : string) (deadline : Z)
    (brief : option string) (d : Disk) : Mission.t * Disk :=
  let data := loadMissions d in
  match find (fun m => Mission.threadId m =? threadId)%string data with
  | Some existing => (existing, d)
  | None =>
      let mission :=
        Mission.mk ("mission-" ++ string_of_Z now) title threadId deadline
                   active nowIso None brief None None in
      (mission, saveMissions (data ++ [mission]) d)
  end.

Definition getMissionByThread (threadId : string) (d : Disk) : option Mission.t :=
  find (fun m => Mission.threadId m =? threadId)%string (loadMissions d).

Definition getMissionById (missionId : string) (d : Disk) : option Mission.t :=
  find (fun m => Mission.id m =? missionId)%string (loadMissions d).

Definition markMissionClosed (missionId : string) (d : Disk) : Disk :=
  let data := loadMissions d in
  match find (fun m => Mission.id m =? missionId)%string data with
  | Some _ =>
      saveMissions
        (mutateFirst (fun m => Mission.id m =? missionId)%string
                     (Mission.set_status closed) data) d
  | None => d
  end.

Definition getActiveMissions (d : Disk) : list Mission.t :=
  filter (fun m => status_eqb (Mission.status m) active) (loadMissions d).

(** [new Date(m.deadline) < now] is a strict comparison of time values. *)
Definition getMissionsPastDeadline (now : Z) (d : Disk) : list Mission.t :=
  filter (fun m => status_eqb (Mission.status m) active
                   && (Mission.deadline m <? now))
         (loadMissions d).

Definition markMissionExported (nowIso : string) (missionId : string) (d : Disk)
    : Disk :=
  let data := loadMissions d in
  match find (fun m => Mission.id m =? missionId)%string data with
  | Some _ =>
      saveMissions
        (mutateFirst (fun m => Mission.id m =? missionId)%string
                     (fun m => Mission.set_exportedAt nowIso
                                 (Mission.set_status exported m)) data) d
  | None => d
  end.

(** [createSubmission]; [rnd] is the four-character suffix
    [Math.random().toString(36).slice(2, 6)]. *)
Definition createSubmission (now : Z) (nowIso : string) (rnd : string)
    (messageId channelId threadId missionId userId userTag content : string)
    (urls : list string) (source : Source) (d : Disk) : Submission.t * Disk :=
  let data := loadSubmissions d in
  let submission :=
    Submission.mk ("sub-" ++ string_of_Z now ++ "-" ++ rnd)
                  messageId channelId threadId missionId userId userTag
                  content urls [] nowIso false source in
  (submission, saveSubmissions (data ++ [submission]) d).

Definition getSubmissionByMessage (messageId : string) (d : Disk)
    : option Submission.t :=
  find (fun s => Submission.messageId s =? messageId)%string (loadSubmissions d).

Definition getSubmissionsByMission (missionId : string) (d : Disk)
    : list Submission.t :=
  filter (fun s => Submission.missionId s =? missionId)%string (loadSubmissions d).

(** The body of [recordVote] once the submission is found: replace the
    judge's entry in place, or push a new one. *)
Definition upsertVote (vote : Vote.t) (votes : list Vote.t) : list Vote.t :=
  match findIndex (fun v => Vote.judgeId v =? Vote.judgeId vote)%string votes with
  | Some existingVoteIndex => setAt existingVoteIndex vote votes
  | None => votes ++ [vote]
  end.

Definition recordVote (nowIso : string) (submissionId judgeId : string) (score : Z)
    (d : Disk) : Disk :=
  let data := loadSubmissions d in
  match find (fun s => Submission.id s =? submissionId)%string data with
  | None => d
  | Some _ =>
      let vote := Vote.mk judgeId score nowIso in
      saveSubmissions
        (mutateFirst (fun s => Submission.id s =? submissionId)%string
           (fun s => Submission.set_votes (upsertVote vote (Submission.votes s)) s)
           data) d
  end.

Definition removeVote (submissionId judgeId : string) (d : Disk) : Disk :=
  let data := loadSubmissions d in
  match find (fun s => Submission.id s =? submissionId)%string data with
  | None => d
  | Some _ =>
      saveSubmissions
        (mutateFirst (fun s => Submission.id s =? submissionId)%string
           (fun s => Submission.set_votes
                       (filter (fun v => negb (Vote.judgeId v =? judgeId)%string)
                               (Submission.votes s)) s)
           data) d
  end.

Definition markSubmissionsExported (missionId : string) (d : Disk) : Disk :=
  saveSubmissions
    (map (fun s => if (Submission.missionId s =? missionId)%string
                   then Submission.set_exported true s else s)
         (loadSubmissions d)) d.

(** Not exported by [storage.ts]: the lookup [recordVote] and [removeVote]
    start with, i.e. the submission an id denotes for them. *)
Definition getSubmissionById (submissionId : string) (d : Disk)
    : option Submission.t :=
  find (fun s => Submission.id s =? submissionId)%string (loadSubmissions d).

End Storage.

(** ** String helpers of sheets.ts *)

Fixpoint string_map (f : ascii -> ascii) (s : string) : string :=
  match s with
  | EmptyString => EmptyString
  | String c r => String (f c) (string_map f r)
  end.

(** Every character is below 128.  On such a string a byte is a UTF-16 code
    unit, and [slice], [trim] and [toLowerCase] act as [slice_to],
    [slice_last], [trim] and [Templates.toLowerCase] below. *)
Definition isAscii (s : string) : bool :=
  forallb (fun c => Nat.ltb (nat_of_ascii c) 128) (list_ascii_of_string s).

(** [s.slice(0, n)] of an ASCII string.  [slice] counts UTF-16 code units,
    [substring] bytes: beyond ASCII the two cut at different places. *)
Definition slice_to (n : nat) (s : string) : string := substring 0 n s.

(** [s.slice(-n)] of an ASCII string. *)
Definition slice_last (n : nat) (s : string) : string :=
  substring (String.length s - n) n s.

(** The white space and line terminators of ASCII.  [trim] below is
    [s.trim()] of an ASCII string; outside ASCII [s.trim()] also strips
    U+00A0, U+FEFF, U+2028 and the other Unicode spaces, which [trim] here
    leaves in place. *)
Definition isSpace (c : ascii) : bool :=
  let n := nat_of_ascii c in
  (Nat.eqb n 32 || (Nat.leb 9 n && Nat.leb n 13))%bool.

Fixpoint trimStart (s : string) : string :=
  match s with
  | EmptyString => EmptyString
  | String c r => if isSpace c then trimStart r else s
  end.

Fixpoint trimEnd (s : string) : string :=
  match s with
  | EmptyString => EmptyString
  | String c r =>
      match trimEnd r with
      | EmptyString => if isSpace c then EmptyString else String c EmptyString
      | r' => String c r'
      end
  end.

Definition trim (s : string) : string := trimEnd (trimStart s).

(** The character class [[*?:/\[\]']] of [sanitizeTitle]. *)
Definition isForbiddenInTitle (c : ascii) : bool :=
  existsb (Ascii.eqb c) (list_ascii_of_string "*?:/\[]'").

Definition sanitizeTitle (title : string) : string :=
  trim (slice_to 100
          (string_map (fun c => if isForbiddenInTitle c then "-"%char else c) title)).

(** [new Set<string>()] filled by [add] in iteration order. *)
Definition setAdd (l : list string) (x : string) : list string :=
  if existsb (String.eqb x) l then l else l ++ [x].

(** [Array.prototype.sort()] without comparator, on strings: ascending by
    code units. *)
Fixpoint insertSorted (x : string) (l : list string) : list string :=
  match l with
  | [] => [x]
  | y :: r => if String.leb x y then x :: l else y :: insertSorted x r
  end.

Definition sortStrings (l : list string) : list string :=
  fold_right insertSorted [] l.

(** ** Numbers: the average score cell

    [voteScores.reduce((a, b) => a + b, 0) / voteScores.length] and
    [toFixed(2)]. Scores are integer-valued numbers, whose sums are exact in
    binary64 below 2^53, so the sum is taken in [Z]; the quotient is the
    IEEE-754 binary64 division of [SpecFloat]. *)

Definition prec : Z := 53.
Definition emax : Z := 1024.

(** The binary64 number an integer denotes. *)
Definition number_of_Z (z : Z) : spec_float := binary_normalize prec emax z 0 false.

Definition digitChar (d : Z) : string := string_of_Z (d mod 10).

(** The digits of [n / 100], a point, and the two digits of [n mod 100]:
    how [Number.prototype.toFixed] lays out its integer [n] for two fraction
    digits. *)
Definition fixed2 (n : Z) : string :=
  string_of_Z (n / 100) ++ "." ++ digitChar (n / 10) ++ digitChar n.

(** [x.toFixed(2)] below 10^21: the integer [n] for which [n / 100 - |x|] is
    as close to zero as possible, the larger one of two. *)
Definition toFixed2 (x : spec_float) : string :=
  match x with
  | S754_nan => "NaN"
  | S754_infinity s => if s then "-Infinity" else "Infinity"
  | S754_zero _ => "0.00"
  | S754_finite s m e =>
      let n := match e with
               | Zneg p => (200 * Zpos m + 2 ^ Zpos p) / (2 * 2 ^ Zpos p)
               | _ => 100 * Zpos m * 2 ^ e
               end in
      (if s then "-" else "") ++ fixed2 n
  end.

Definition avgScore (votes : list Vote.t) : string :=
  let voteScores := map Vote.score votes in
  if (0 <? List.length voteScores)%nat
  then toFixed2 (SFdiv prec emax
                   (number_of_Z (fold_left Z.add voteScores 0))
                   (number_of_Z (Z.of_nat (List.length voteScores))))
  else "N/A".

(** ** Effects: the disk, the spreadsheet and the collaborators

    [sheets.ts] and the deadline checker run against three things outside
    them: the data directory, the Google spreadsheet, and the Discord
    collaborators. A [World] holds the first two and the trace of the calls
    made so far; an [Env] decides, from that trace, which external call
    throws and what the clock reads. A call that throws has no effect. The
    tab operations are those of the google-spreadsheet package: [addSheet]
    appends an empty tab, [clear] empties a tab, [setHeaderRow] sets its
    header row and [addRows] appends data rows. The Discord collaborators
    ([postMissionSummaryToThread], [closeThread], [updateStarterEmbed],
    [postMissionResultsToChannel]) and [isSheetsConfigured] are parameters of
    the sweep: all that is known of them is that they return or throw.
    [bestEffort], further down, gives the collaborators the behaviour the
    specification describes. *)

Record Sheet : Type := mkSheet {
  headerRow : list string;
  rows : list (list string)
}.

(** [doc.sheetsByTitle]. *)
Definition Doc : Type := list (string * Sheet).

Inductive Call : Type :=
  | CGetSpreadsheet
  | CAddSheet (title : string)
  | CClear (title : string)
  | CSetHeaderRow (title : string) (headers : list string)
  | CAddRows (title : string) (newRows : list (list string))
  | CPostMissionSummaryToThread (threadId : string)
  | CCloseThread (threadId : string)
  | CUpdateStarterEmbed (missionId : string)
  | CPostMissionResultsToChannel (missionId : string)
  | CMarkMissionClosed (missionId : string)
  | CMarkMissionExported (missionId : string)
  | CMarkSubmissionsExported (missionId : string).

Record World : Type := mkWorld {
  disk : Disk;
  doc : Doc;
  trace : list Call
}.

Record Env : Type := mkEnv {
  (** [Some msg]: the call throws [Error(msg)]. *)
  fault : list Call -> Call -> option string;
  (** What [closeThread] resolves to when it does not throw. *)
  closeThreadResult : list Call -> string -> bool;
  (** [isSheetsConfigured()]. *)
  sheetsConfigured : bool;
  (** [new Date().toISOString()]. *)
  clockIso : list Call -> string
}.

Inductive outcome (A : Type) : Type :=
  | Returned (a : A)
  | Thrown (msg : string).
Arguments Returned {A} a.
Arguments Thrown {A} msg.

Definition M (A : Type) : Type := World -> outcome A * World.

Definition ret {A : Type} (a : A) : M A := fun w => (Returned a, w).

Definition bind {A B : Type} (c : M A) (k : A -> M B) : M B :=
  fun w => match c w with
           | (Returned a, w1) => k a w1
           | (Thrown msg, w1) => (Thrown msg, w1)
           end.

(** [try { c } catch (error) { h (error as Error).message }]. *)
Definition tryCatch {A : Type} (c : M A) (h : string -> M A) : M A :=
  fun w => match c w with
           | (Returned a, w1) => (Returned a, w1)
           | (Thrown msg, w1) => h msg w1
           end.

Declare Scope js_scope.
Delimit Scope js_scope with js.
Notation "x <- c ;; k" := (bind c (fun x => k))
  (at level 100, c at next level, right associativity) : js_scope.
Notation "c ;; k" := (bind c (fun _ => k))
  (at level 100, right associativity) : js_scope.

Definition logCall (c : Call) (w : World) : World :=
  mkWorld (disk w) (doc w) (trace w ++ [c]).

Definition onDisk (f : Disk -> Disk) (w : World) : World :=
  mkWorld (f (disk w)) (doc w) (trace w).

Definition onDoc (f : Doc -> Doc) (w : World) : World :=
  mkWorld (disk w) (f (doc w)) (trace w).

(** [doc.sheetsByTitle[title]] among the tabs of the spreadsheet.  The
    object the package returns also answers to the property names it
    inherits from [Object.prototype] ([constructor], [toString], ...): for
    such a title and no tab of that name the code finds a value that is no
    sheet and the run fails at [sheet.clear()].  [sheetsByTitle] looks among
    the tabs only: it is the code's lookup for every title that is no such
    property name. *)
Definition sheetsByTitle (title : string) (d : Doc) : option Sheet :=
  match find (fun e => fst e =? title)%string d with
  | Some e => Some (snd e)
  | None => None
  end.

Definition updateSheet (title : string) (f : Sheet -> Sheet) (d : Doc) : Doc :=
  mutateFirst (fun e => fst e =? title)%string (fun e => (fst e, f (snd e))) d.

(** The number of data rows of a tab; a tab that does not exist has none. *)
Definition tabRowCount (title : string) (d : Doc) : nat :=
  match sheetsByTitle title d with
  | Some sh => List.length (rows sh)
  | None => O
  end.

Record ExportResult : Type := mkResult {
  success : bool;
  rowCount : nat;
  error : option string
}.

Section WithEnv.
Variable E : Env.

(** An awaited call to a collaborator. *)
Definition external (c : Call) (effect : World -> World) : M unit :=
  fun w => match fault E (trace w) c with
           | Some msg => (Thrown msg, logCall c w)
           | None => (Returned tt, effect (logCall c w))
           end.

(** A call into [storage.ts]. *)
Definition storage (c : Call) (f : Disk -> Disk) : M unit :=
  fun w => (Returned tt, onDisk f (logCall c w)).

Definition readDisk {A : Type} (f : Disk -> A) : M A :=
  fun w => (Returned (f (disk w)), w).

Definition readDoc {A : Type} (f : Doc -> A) : M A :=
  fun w => (Returned (f (doc w)), w).

Definition markMissionExported (missionId : string) : M unit :=
  fun w => storage (CMarkMissionExported missionId)
             (Storage.markMissionExported (clockIso E (trace w)) missionId) w.

Definition markSubmissionsExported (missionId : string) : M unit :=
  storage (CMarkSubmissionsExported missionId)
          (Storage.markSubmissionsExported missionId).

Definition markMissionClosed (missionId : string) : M unit :=
  storage (CMarkMissionClosed missionId) (Storage.markMissionClosed missionId).

(** *** sheets.ts *)

Definition getSpreadsheet : M unit := external CGetSpreadsheet (fun w => w).

Definition addSheet (title : string) : M unit :=
  external (CAddSheet title) (onDoc (fun d => (d ++ [(title, mkSheet [] [])])%list)).

Definition clear (title : string) : M unit :=
  external (CClear title) (onDoc (updateSheet title (fun _ => mkSheet [] []))).

Definition setHeaderRow (title : string) (headers : list string) : M unit :=
  external (CSetHeaderRow title headers)
           (onDoc (updateSheet title (fun sh => mkSheet headers (rows sh)))).

Definition addRows (title : string) (newRows : list (list string)) : M unit :=
  external (CAddRows title newRows)
           (onDoc (updateSheet title
                     (fun sh => mkSheet (headerRow sh) (rows sh ++ newRows)%list))).

(** Unique judge IDs across all submissions, sorted. *)
Definition judgeIdArray (submissions : list Submission.t) : list string :=
  sortStrings
    (fold_left (fun judgeIds s =>
                  fold_left (fun ids v => setAdd ids (Vote.judgeId v))
                            (Submission.votes s) judgeIds)
               submissions []).

Definition buildHeaders (judgeIds : list string) : list string :=
  (["Submission ID"; "User ID"; "User Tag"; "URL"; "Content"; "Submitted At";
   "Vote Count"; "Average Score"]
  ++ map (fun id => "Judge_" ++ slice_last 6 id)%string judgeIds)%list.

Definition judgeScores (judgeIds : list string) (s : Submission.t) : list string :=
  map (fun judgeId =>
         match find (fun v => Vote.judgeId v =? judgeId)%string (Submission.votes s) with
         | Some vote => string_of_Z (Vote.score vote)
         | None => ""
         end) judgeIds.

Definition buildRow (judgeIds : list string) (s : Submission.t) : list string :=
  ([Submission.id s;
   Submission.userId s;
   Submission.userTag s;
   hd "" (Submission.urls s);
   slice_to 500 (Submission.content s);
   Submission.submittedAt s;
   string_of_Z (Z.of_nat (List.length (Submission.votes s)));
   avgScore (Submission.votes s)]
  ++ judgeScores judgeIds s)%list.

Definition exportMissionToSheets (mission : Mission.t) : M ExportResult :=
  tryCatch
    (getSpreadsheet ;;
     submissions <- readDisk (Storage.getSubmissionsByMission (Mission.id mission)) ;;
     if (List.length submissions =? 0)%nat then
       (markMissionExported (Mission.id mission) ;;
        ret (mkResult true 0 None))
     else
       (let judgeIds := judgeIdArray submissions in
        let sheetTitle := sanitizeTitle (Mission.title mission) in
        sheet <- readDoc (sheetsByTitle sheetTitle) ;;
        match sheet with
        | None => addSheet sheetTitle
        | Some _ => clear sheetTitle
        end ;;
        let headers := buildHeaders judgeIds in
        let newRows := map (buildRow judgeIds) submissions in
        setHeaderRow sheetTitle headers ;;
        addRows sheetTitle newRows ;;
        markMissionExported (Mission.id mission) ;;
        markSubmissionsExported (Mission.id mission) ;;
        ret (mkResult true (List.length newRows) None)))%js
    (fun errorMessage => ret (mkResult false 0 (Some errorMessage))).

(** *** deadline-checker.ts *)

Definition postMissionSummaryToThread (threadId : string) : M unit :=
  external (CPostMissionSummaryToThread threadId) (fun w => w).

Definition closeThread (threadId : string) : M bool :=
  fun w => match external (CCloseThread threadId) (fun w => w) w with
           | (Returned _, w1) => (Returned (closeThreadResult E (trace w) threadId), w1)
           | (Thrown msg, w1) => (Thrown msg, w1)
           end.

Definition updateStarterEmbed (missionId : string) : M unit :=
  external (CUpdateStarterEmbed missionId) (fun w => w).

Definition postMissionResultsToChannel (missionId : string) : M unit :=
  external (CPostMissionResultsToChannel missionId) (fun w => w).

(** Steps 1 to 4 of the loop body of [checkDeadlines]. *)
Definition announceDeadline (mission : Mission.t) : M unit :=
  (submissions <- readDisk (Storage.getSubmissionsByMission (Mission.id mission)) ;;
   postMissionSummaryToThread (Mission.threadId mission) ;;
   threadClosed <- closeThread (Mission.threadId mission) ;;
   updateStarterEmbed (Mission.id mission))%js.

(** Step 7; [None] when Sheets is not configured. *)
Definition exportIfConfigured (mission : Mission.t) : M (option ExportResult) :=
  (if sheetsConfigured E
   then (result <- exportMissionToSheets mission ;; ret (Some result))
   else ret None)%js.

(** The loop body of [checkDeadlines]; its value is the local [result]. *)
Definition processMission (mission : Mission.t) : M (option ExportResult) :=
  (announceDeadline mission ;;
   markMissionClosed (Mission.id mission) ;;
   postMissionResultsToChannel (Mission.id mission) ;;
   exportIfConfigured mission)%js.

(** [for (const mission of missions) { ... }]. *)
Fixpoint forOf (missions : list Mission.t) : M unit :=
  match missions with
  | [] => ret tt
  | mission :: rest => (processMission mission ;; forOf rest)%js
  end.

Definition checkDeadlines (now : Z) : M unit :=
  (missionsPastDeadline <- readDisk (Storage.getMissionsPastDeadline now) ;;
   if (List.length missionsPastDeadline =? 0)%nat then ret tt
   else forOf missionsPastDeadline)%js.

End WithEnv.

(** ** Vocabulary of the properties *)

(** Position of a status on the lifecycle active, closed, exported. *)
Definition rank (st : MissionStatus) : nat :=
  match st with
  | active => 0
  | closed => 1
  | exported => 2
  end.

(** The entries of a vote collection cast by judge [j]. *)
Definition votesBy (j : string) (votes : list Vote.t) : list Vote.t :=
  filter (fun v => Vote.judgeId v =? j)%string votes.

(** A sequence of [recordVote(s, j, score)] calls on one submission and one
    judge, each with its score and the clock reading it is stamped with. *)
Definition recordVotes (submissionId judgeId : string) (calls : list (Z * string))
    (d : Disk) : Disk :=
  fold_left (fun d c => Storage.recordVote (snd c) submissionId judgeId (fst c) d)
            calls d.

(** No judge appears twice in a vote collection. *)
Fixpoint judgesUnique (votes : list Vote.t) : bool :=
  match votes with
  | [] => true
  | v :: r => negb (existsb (fun w => Vote.judgeId w =? Vote.judgeId v)%string r)
              && judgesUnique r
  end.

Definition votesUnique (d : Disk) : bool :=
  forallb (fun s => judgesUnique (Submission.votes s)) (submissionsFile d).

(** The operations of [storage.ts] that write [missions.json] or
    [submissions.json]. *)
Inductive StoreOp : Type :=
  | OpRegisterMission (now : Z) (nowIso threadId title : string) (deadline : Z)
                      (brief : option string)
  | OpMarkMissionClosed (missionId : string)
  | OpMarkMissionExported (nowIso missionId : string)
  | OpCreateSubmission (now : Z) (nowIso rnd : string)
      (messageId channelId threadId missionId userId userTag content : string)
      (urls : list string) (source : Source)
  | OpRecordVote (nowIso submissionId judgeId : string) (score : Z)
  | OpRemoveVote (submissionId judgeId : string)
  | OpMarkSubmissionsExported (missionId : string).

Definition applyOp (op : StoreOp) (d : Disk) : Disk :=
  match op with
  | OpRegisterMission now nowIso threadId title deadline brief =>
      snd (Storage.registerMission now nowIso threadId title deadline brief d)
  | OpMarkMissionClosed missionId => Storage.markMissionClosed missionId d
  | OpMarkMissionExported nowIso missionId =>
      Storage.markMissionExported nowIso missionId d
  | OpCreateSubmission now nowIso rnd messageId channelId threadId missionId
                       userId userTag content urls source =>
      snd (Storage.createSubmission now nowIso rnd messageId channelId threadId
             missionId userId userTag content urls source d)
  | OpRecordVote nowIso submissionId judgeId score =>
      Storage.recordVote nowIso submissionId judgeId score d
  | OpRemoveVote submissionId judgeId => Storage.removeVote submissionId judgeId d
  | OpMarkSubmissionsExported missionId =>
      Storage.markSubmissionsExported missionId d
  end.

Definition applyOps (ops : list StoreOp) (d : Disk) : Disk :=
  fold_left (fun d op => applyOp op d) ops d.

(** [op] is [markMissionClosed] aimed at a mission that is already exported. *)
Definition closesExported (op : StoreOp) (d : Disk) : bool :=
  match op with
  | OpMarkMissionClosed missionId =>
      match Storage.getMissionById missionId d with
      | Some m => status_eqb (Mission.status m) exported
      | None => false
      end
  | _ => false
  end.

(** No operation of the sequence closes a mission that is exported at the
    time the operation runs. *)
Fixpoint neverClosesExported (ops : list StoreOp) (d : Disk) : bool :=
  match ops with
  | [] => true
  | op :: r => negb (closesExported op d) && neverClosesExported r (applyOp op d)
  end.

(** *** Binary64 rounding *)

(** The location of a remainder [num / den] in the unit interval. *)
Definition locOf (num den : Z) : location :=
  if num =? 0 then loc_Exact else loc_Inexact (2 * num ?= den).

(** The second half of [binary_round_aux]: renormalising after rounding. *)
Definition finishRound (M0 e0 : Z) : spec_float :=
  let '(mrs, e) := shr_fexp prec emax M0 e0 loc_Exact in
  match shr_m mrs with
  | Z0 => S754_zero false
  | Zpos m => if e <=? emax - prec then S754_finite false m e else S754_infinity false
  | Zneg _ => S754_nan
  end.

(** [N / 100] is a hundredth nearest to [S / n]. *)
Definition nearestHundredth (N S n : Z) : Prop :=
  (2 * N - 1) * n <= 200 * S <= (2 * N + 1) * n.

(** The sum of the scores of a vote collection, as [reduce] computes it. *)
Definition sumScores (votes : list Vote.t) : Z :=
  fold_left Z.add (map Vote.score votes) 0.

(** One step of lifecycle monotonicity: [op] moves no mission of [d]
    backwards. *)
Definition statusNeverRegresses (op : StoreOp) (d : Disk) : Prop :=
  forall i m m',
    nth_error (missionsFile d) i = Some m ->
    nth_error (missionsFile (applyOp op d)) i = Some m' ->
    (rank (Mission.status m) <= rank (Mission.status m'))%nat.

(** What a run of [exportMissionToSheets] computes from the submissions of
    the mission: the tab, the header row and the data rows. *)
Definition exportTitle (mission : Mission.t) : string :=
  sanitizeTitle (Mission.title mission).

Definition exportSubmissions (mission : Mission.t) (w : World) : list Submission.t :=
  Storage.getSubmissionsByMission (Mission.id mission) (disk w).

Definition exportHeaders (mission : Mission.t) (w : World) : list string :=
  buildHeaders (judgeIdArray (exportSubmissions mission w)).

Definition exportRows (mission : Mission.t) (w : World) : list (list string) :=
  map (buildRow (judgeIdArray (exportSubmissions mission w)))
      (exportSubmissions mission w).

(** The calls of a successful export of a mission with submissions, in order. *)
Definition exportCalls (mission : Mission.t) (w : World) : list Call :=
  [CGetSpreadsheet;
   match sheetsByTitle (exportTitle mission) (doc w) with
   | None => CAddSheet (exportTitle mission)
   | Some _ => CClear (exportTitle mission)
   end;
   CSetHeaderRow (exportTitle mission) (exportHeaders mission w);
   CAddRows (exportTitle mission) (exportRows mission w);
   CMarkMissionExported (Mission.id mission);
   CMarkSubmissionsExported (Mission.id mission)].

(** The spreadsheet after those calls. *)
Definition docAfterExport (mission : Mission.t) (w : World) : Doc :=
  let t := exportTitle mission in
  updateSheet t (fun sh => mkSheet (headerRow sh) (rows sh ++ exportRows mission w)%list)
    (updateSheet t (fun sh => mkSheet (exportHeaders mission w) (rows sh))
       (match sheetsByTitle t (doc w) with
        | None => (doc w ++ [(t, mkSheet [] [])])%list
        | Some _ => updateSheet t (fun _ => mkSheet [] []) (doc w)
        end)).

(** [exportMissionToSheets] resolved to a result object with [success: true]. *)
Definition succeeded (r : outcome ExportResult * World) : Prop :=
  exists res, fst r = Returned res /\ success res = true.

(** The status the store shows for a mission id. *)
Definition statusOf (missionId : string) (w : World) : option MissionStatus :=
  option_map Mission.status (Storage.getMissionById missionId (disk w)).

(** The calls to the Discord collaborators. *)
Definition isCollaboratorCall (c : Call) : bool :=
  match c with
  | CPostMissionSummaryToThread _ | CCloseThread _
  | CUpdateStarterEmbed _ | CPostMissionResultsToChannel _ => true
  | _ => false
  end.

(** No collaborator call ever throws. *)
Definition collaboratorsReturn (E : Env) : Prop :=
  forall tr c, isCollaboratorCall c = true -> fault E tr c = None.

(** The mission is closed or exported. *)
Definition closedOrExported (missionId : string) (w : World) : Prop :=
  statusOf missionId w = Some closed \/ statusOf missionId w = Some exported.

(** An environment in which no call throws, and one in which only the given
    call (a collaborator call or [getSpreadsheet]) does. *)
Definition calmEnv : Env :=
  mkEnv (fun _ _ => None) (fun _ _ => true) true
        (fun _ => "2026-02-01T00:00:00.000Z").

Definition call_eqb (a b : Call) : bool :=
  match a, b with
  | CGetSpreadsheet, CGetSpreadsheet => true
  | CPostMissionSummaryToThread x, CPostMissionSummaryToThread y
  | CCloseThread x, CCloseThread y
  | CUpdateStarterEmbed x, CUpdateStarterEmbed y
  | CPostMissionResultsToChannel x, CPostMissionResultsToChannel y => (x =? y)%string
  | _, _ => false
  end.

Definition failingEnv (c : Call) (msg : string) : Env :=
  mkEnv (fun _ c' => if call_eqb c c' then Some msg else None) (fun _ _ => true) true
        (fun _ => "2026-02-01T00:00:00.000Z").

(** An environment in which the thread cannot be locked and the rows cannot
    be written, nothing else failing. *)
Definition lockAndWriteFailEnv : Env :=
  mkEnv (fun _ c => match c with
                    | CAddRows _ _ => Some "Quota exceeded"
                    | _ => None
                    end)
        (fun _ _ => false) true (fun _ => "2026-02-01T00:00:00.000Z").

(** An environment in which [addRows] works once and throws from then on. *)
Definition secondWriteFailsEnv : Env :=
  mkEnv (fun tr c =>
           match c with
           | CAddRows _ _ =>
               if existsb (fun c' => match c' with CAddRows _ _ => true | _ => false end) tr
               then Some "Quota exceeded" else None
           | _ => None
           end)
        (fun _ _ => true) true (fun _ => "2026-02-01T00:00:00.000Z").



(** ** Sample data *)

Definition sampleMission (id threadId : string) (deadline : Z)
    (st : MissionStatus) : Mission.t :=
  Mission.mk id "Morgan Stanley MDP" threadId deadline st
             "2026-01-01T00:00:00.000Z" None None None None.

Definition sampleSubmission (id messageId missionId : string)
    (votes : list Vote.t) : Submission.t :=
  Submission.mk id messageId "chan-1" "thread-1" missionId "user-1" "user#0001"
                "see https://example.org/a" ["https://example.org/a"] votes
                "2026-01-02T00:00:00.000Z" false discord.

(** The scenario of the specification: a mission past its deadline with two
    submissions, S1 scored 4 by judge A and 2 by judge B, S2 scored 5 by
    judge A; and a second mission of the same title without submissions. *)
Definition scenarioMission : Mission.t :=
  sampleMission "mission-1" "thread-1" 1000 active.

Definition emptyMission : Mission.t :=
  sampleMission "mission-2" "thread-2" 1000 active.

Definition scenarioS1 : Submission.t :=
  sampleSubmission "sub-1-aaaa" "msg-1" "mission-1"
    [Vote.mk "judge-A" 4 "2026-01-02T10:00:00.000Z";
     Vote.mk "judge-B" 2 "2026-01-02T11:00:00.000Z"].

Definition scenarioS2 : Submission.t :=
  sampleSubmission "sub-2-bbbb" "msg-2" "mission-1"
    [Vote.mk "judge-A" 5 "2026-01-02T12:00:00.000Z"].

Definition scenarioWorld : World :=
  mkWorld (mkDisk [scenarioMission; emptyMission] [scenarioS1; scenarioS2]) [] [].

(** The same two missions when the second has a submission too, filed
    between those of the first and scored by a judge of its own. *)
Definition otherMissionS : Submission.t :=
  sampleSubmission "sub-3-cccc" "msg-3" "mission-2"
    [Vote.mk "judge-C" 1 "2026-01-02T11:30:00.000Z"].

Definition twoMissionsWorld : World :=
  mkWorld (mkDisk [scenarioMission; emptyMission]
                  [scenarioS1; otherMissionS; scenarioS2]) [] [].

(** * The rest of the code

    The functions of [storage.ts], [sheets.ts], the command handlers, the
    earlier deadline checker and the Discord event handlers that the
    definitions above do not cover. *)

(** ** storage.ts: the Telegram link of a mission *)

Module MissionLinks.

Definition set_telegram (telegramMessageId telegramChatId : string) (m : Mission.t)
    : Mission.t :=
  Mission.mk (Mission.id m) (Mission.title m) (Mission.threadId m)
             (Mission.deadline m) (Mission.status m) (Mission.createdAt m)
             (Mission.exportedAt m) (Mission.brief m)
             (Some telegramMessageId) (Some telegramChatId).

(** [m.telegramMessageId === messageId]; a mission without the field
    compares [undefined] with a string. *)
Definition hasTelegramMessage (messageId : string) (m : Mission.t) : bool :=
  match Mission.telegramMessageId m with
  | Some x => (x =? messageId)%string
  | None => false
  end.

Definition getMissionByTelegramMessage (messageId : string) (d : Disk)
    : option Mission.t :=
  find (hasTelegramMessage messageId) (Storage.loadMissions d).

Definition updateMissionTelegramInfo (missionId telegramMessageId telegramChatId : string)
    (d : Disk) : Disk :=
  let data := Storage.loadMissions d in
  match find (fun m => Mission.id m =? missionId)%string data with
  | Some _ =>
      Storage.saveMissions
        (mutateFirst (fun m => Mission.id m =? missionId)%string
                     (set_telegram telegramMessageId telegramChatId) data) d
  | None => d
  end.

End MissionLinks.

(** A mission record with its lifecycle fields blanked: what is left is what
    [markMissionClosed] and [markMissionExported] never touch. *)
Definition withoutLifecycle (m : Mission.t) : Mission.t :=
  Mission.mk (Mission.id m) (Mission.title m) (Mission.threadId m)
             (Mission.deadline m) active (Mission.createdAt m) None
             (Mission.brief m) (Mission.telegramMessageId m)
             (Mission.telegramChatId m).

(** A mission record without its Telegram link: what
    [updateMissionTelegramInfo] never touches. *)
Definition withoutTelegram (m : Mission.t) : Mission.t :=
  Mission.mk (Mission.id m) (Mission.title m) (Mission.threadId m)
             (Mission.deadline m) (Mission.status m) (Mission.createdAt m)
             (Mission.exportedAt m) (Mission.brief m) None None.

(** Every exported function of [storage.ts] that writes [missions.json] or
    [submissions.json]. *)
Inductive StoreCall : Type :=
  | SOp (op : StoreOp)
  | SUpdateMissionTelegramInfo (missionId telegramMessageId telegramChatId : string).

Definition applyCall (c : StoreCall) (d : Disk) : Disk :=
  match c with
  | SOp op => applyOp op d
  | SUpdateMissionTelegramInfo missionId telegramMessageId telegramChatId =>
      MissionLinks.updateMissionTelegramInfo missionId telegramMessageId
        telegramChatId d
  end.

Definition applyCalls (cs : list StoreCall) (d : Disk) : Disk :=
  fold_left (fun d c => applyCall c d) cs d.

(** What no function of [storage.ts] ever changes in a record once it is
    written: a mission without its lifecycle fields and Telegram link, a
    submission without its votes and export flag. *)
Definition missionCore (m : Mission.t) : Mission.t :=
  withoutTelegram (withoutLifecycle m).

Definition submissionCore (s : Submission.t) : Submission.t :=
  Submission.set_exported false (Submission.set_votes [] s).

(** ** sheets.ts: tab titles *)

(** A character a tab title may hold: one outside the class
    [sanitizeTitle] replaces. *)
Definition titleChar (c : ascii) : bool := negb (isForbiddenInTitle c).

(** The strings of a submission that [exportMissionToSheets] slices or
    sorts, its content and the ids of its judges, are ASCII. *)
Definition asciiSubmission (s : Submission.t) : bool :=
  isAscii (Submission.content s)
  && forallb (fun v => isAscii (Vote.judgeId v)) (Submission.votes s).

(** Two missions whose titles differ in a replaced character only. *)
Definition slashMission : Mission.t :=
  Mission.mk "mission-11" "Q1/Q2 review" "thread-11" 1000 active
             "2026-01-01T00:00:00.000Z" None None None None.

Definition colonMission : Mission.t :=
  Mission.mk "mission-12" "Q1:Q2 review" "thread-12" 1000 active
             "2026-01-01T00:00:00.000Z" None None None None.

Definition sharedTabWorld : World :=
  mkWorld (mkDisk [slashMission; colonMission]
                  [sampleSubmission "sub-11-aaaa" "msg-11" "mission-11"
                     [Vote.mk "judge-A" 4 "2026-01-02T10:00:00.000Z"];
                   sampleSubmission "sub-12-bbbb" "msg-12" "mission-12" []])
          [] [].

(** The calls [exportMissionToSheets] can make. *)
Definition isExportCall (c : Call) : bool :=
  match c with
  | CGetSpreadsheet | CAddSheet _ | CClear _ | CSetHeaderRow _ _ | CAddRows _ _
  | CMarkMissionExported _ | CMarkSubmissionsExported _ => true
  | _ => false
  end.

(** ** The earlier deadline checker

    The first version of [deadline-checker.ts]: every mission past its
    deadline is exported, and nothing else is done with it. *)

Module EarlierChecker.

Fixpoint forOf (E : Env) (missions : list Mission.t) : M unit :=
  match missions with
  | [] => ret tt
  | mission :: rest =>
      (result <- exportMissionToSheets E mission ;; forOf E rest)%js
  end.

Definition checkDeadlines (E : Env) (now : Z) : M unit :=
  (missionsPastDeadline <- readDisk (Storage.getMissionsPastDeadline now) ;;
   if (List.length missionsPastDeadline =? 0)%nat then ret tt
   else forOf E missionsPastDeadline)%js.

End EarlierChecker.

(** ** What a sweep may write *)

(** [op] marks a mission of [ids], or its submissions, and does nothing
    else. *)
Definition isMarkOf (ids : list string) (op : StoreOp) : bool :=
  match op with
  | OpMarkMissionClosed missionId
  | OpMarkMissionExported _ missionId
  | OpMarkSubmissionsExported missionId => existsb (String.eqb missionId) ids
  | _ => false
  end.

(** ** discord.ts: the event handlers

    The three gateway handlers, against the data directory and the in-memory
    index [messageToSubmissionId].  What Discord supplies with an event (the
    author, the thread, the emoji, the member and its roles, the result of
    the URL match on the content) is the event record; clock readings are
    arguments, as for [storage.ts]. *)

Module Discord.

(** The key cap emoji of a digit: the digit, U+FE0F and U+20E3, in UTF-8. *)
Definition keycap (digit : ascii) : string :=
  String digit
    (string_of_list_ascii (map ascii_of_nat [239; 184; 143; 226; 131; 163]%nat)).

Definition VOTE_EMOJIS : list (string * Z) :=
  [(keycap "1", 1); (keycap "2", 2); (keycap "3", 3); (keycap "4", 4);
   (keycap "5", 5)].

Definition VOTE_EMOJI_ORDER : list string :=
  [keycap "1"; keycap "2"; keycap "3"; keycap "4"; keycap "5"].

(** U+1F4DD, in UTF-8. *)
Definition CONFIRMATION_EMOJI : string :=
  string_of_list_ascii (map ascii_of_nat [240; 159; 147; 157]%nat).

(** [VOTE_EMOJIS] is an object literal: besides its own five keys, a lookup
    finds the properties it inherits from [Object.prototype]. *)
Definition objectPrototypeKeys : list string :=
  ["constructor"; "__defineGetter__"; "__defineSetter__"; "hasOwnProperty";
   "__lookupGetter__"; "__lookupSetter__"; "isPrototypeOf";
   "propertyIsEnumerable"; "toString"; "valueOf"; "__proto__";
   "toLocaleString"].

(** The value of [VOTE_EMOJIS[emoji]]: a score, an inherited function or
    object, or [undefined]. *)
Inductive Property : Type :=
  | Own (score : Z)
  | Inherited
  | Undefined.

Definition voteEmoji (emoji : string) : Property :=
  match find (fun e => fst e =? emoji)%string VOTE_EMOJIS with
  | Some e => Own (snd e)
  | None => if existsb (String.eqb emoji) objectPrototypeKeys
            then Inherited else Undefined
  end.

(** [Map.prototype.get] and [set] on the index, kept in insertion order. *)
Definition mapGet (key : string) (m : list (string * string)) : option string :=
  option_map snd (find (fun e => fst e =? key)%string m).

Definition mapSet (key value : string) (m : list (string * string))
    : list (string * string) :=
  match find (fun e => fst e =? key)%string m with
  | Some _ => mutateFirst (fun e => fst e =? key)%string (fun _ => (key, value)) m
  | None => (m ++ [(key, value)])%list
  end.

Record Bot : Type := mkBot {
  store : Disk;
  messageToSubmissionId : list (string * string)
}.

Module Message.
Record t : Type := mk {
  authorBot : bool;
  (** [message.channel.isThread()]. *)
  isThread : bool;
  (** [thread.parentId]. *)
  parentId : option string;
  id : string;
  (** [thread.id], which is [message.channel.id]. *)
  threadId : string;
  threadName : string;
  authorId : string;
  authorTag : string;
  content : string;
  (** [message.content.match(urlRegex)]; [[]] stands for [null]. *)
  urls : list string
}.
End Message.

(** What the member lookups of the reaction handler come to: the member is
    cached, or fetched, or the fetch throws, or the message has no guild. *)
Inductive Member : Type :=
  | Cached (roles : list string)
  | Fetched (roles : list string)
  | FetchThrows
  | NoGuild.

Module Reaction.
Record t : Type := mk {
  userBot : bool;
  userId : string;
  (** [reaction.partial] holds and [reaction.fetch()] throws. *)
  fetchThrows : bool;
  (** [reaction.emoji.name]. *)
  emojiName : option string;
  messageId : string;
  member : Member
}.
End Reaction.

Inductive Action : Type :=
  | Ignored
  | ReactionRemoved
  | VoteRecorded (submissionId : string) (score : Z)
  | VoteRemoved (submissionId : string).

(** The end of a run of the reaction-add handler.  [ScoreNotANumber]: the
    handler reached [recordVote] with an inherited property of [VOTE_EMOJIS]
    as score; the vote this stores has no number as score. *)
Inductive Result : Type :=
  | Handled (b : Bot) (action : Action)
  | ScoreNotANumber (submissionId judgeId : string).

(** [config.discordJudgeRoleIds.some(roleId => member?.roles.cache.has(roleId))]. *)
Definition hasJudgeRole (judgeRoleIds : list string) (m : Member) : bool :=
  match m with
  | Cached roles | Fetched roles =>
      existsb (fun roleId => existsb (String.eqb roleId) roles) judgeRoleIds
  | FetchThrows | NoGuild => false
  end.

(** The submission id of a message: the index first (an empty id counts as
    none), then [getSubmissionByMessage]; [remember] tells whether a hit in
    storage is written to the index. *)
Definition lookupSubmission (remember : bool) (messageId : string) (b : Bot)
    : option (string * Bot) :=
  let fromStorage :=
    match Storage.getSubmissionByMessage messageId (store b) with
    | None => None
    | Some submission =>
        Some (Submission.id submission,
              if remember
              then mkBot (store b)
                         (mapSet messageId (Submission.id submission)
                                 (messageToSubmissionId b))
              else b)
    end in
  match mapGet messageId (messageToSubmissionId b) with
  | Some submissionId =>
      if (submissionId =? "")%string then fromStorage else Some (submissionId, b)
  | None => fromStorage
  end.

(** The reactions [message.react] has added when the [failAt]-th call
    throws: the rest of the [try] block is skipped. *)
Definition reactionsAdded (failAt : option nat) : list string :=
  match failAt with
  | None => CONFIRMATION_EMOJI :: VOTE_EMOJI_ORDER
  | Some k => firstn k (CONFIRMATION_EMOJI :: VOTE_EMOJI_ORDER)
  end.

(** [Events.MessageCreate]; the value is the state and the reactions added
    to the message.  [now], [nowIso] are the clock readings of
    [registerMission], [now'], [nowIso'] and [rnd] those of
    [createSubmission]; [defaultDeadline] is the time value of the date seven
    days on. *)
Definition onMessageCreate (discordMissionChannelId : string)
    (now : Z) (nowIso : string) (defaultDeadline : Z)
    (now' : Z) (nowIso' rnd : string) (failAt : option nat)
    (message : Message.t) (b : Bot) : Bot * list string :=
  if Message.authorBot message then (b, [])
  else if negb (Message.isThread message) then (b, [])
  else if negb match Message.parentId message with
               | Some parent => (parent =? discordMissionChannelId)%string
               | None => false
               end then (b, [])
  else match Message.urls message with
       | [] => (b, [])
       | urls =>
           let '(mission, d1) :=
             match Storage.getMissionByThread (Message.threadId message) (store b) with
             | Some mission => (mission, store b)
             | None =>
                 Storage.registerMission now nowIso (Message.threadId message)
                   (Message.threadName message) defaultDeadline None (store b)
             end in
           let '(submission, d2) :=
             Storage.createSubmission now' nowIso' rnd (Message.id message)
               (Message.threadId message) (Message.threadId message)
               (Mission.id mission) (Message.authorId message)
               (Message.authorTag message) (Message.content message) urls
               discord d1 in
           (mkBot d2 (mapSet (Message.id message) (Submission.id submission)
                             (messageToSubmissionId b)),
            reactionsAdded failAt)
       end.

(** [Events.MessageReactionAdd]. *)
Definition onReactionAdd (discordJudgeRoleIds : list string) (nowIso : string)
    (reaction : Reaction.t) (b : Bot) : Result :=
  if Reaction.userBot reaction then Handled b Ignored
  else if Reaction.fetchThrows reaction then Handled b Ignored
  else match Reaction.emojiName reaction with
       | None => Handled b Ignored
       | Some emoji =>
           if (emoji =? "")%string then Handled b Ignored
           else match voteEmoji emoji with
                | Undefined => Handled b Ignored
                | voteScore =>
                    match lookupSubmission true (Reaction.messageId reaction) b with
                    | None => Handled b Ignored
                    | Some (submissionId, b1) =>
                        match Reaction.member reaction with
                        | FetchThrows => Handled b1 Ignored
                        | member =>
                            if hasJudgeRole discordJudgeRoleIds member
                            then match voteScore with
                                 | Own score =>
                                     Handled
                                       (mkBot (Storage.recordVote nowIso submissionId
                                                 (Reaction.userId reaction) score
                                                 (store b1))
                                              (messageToSubmissionId b1))
                                       (VoteRecorded submissionId score)
                                 | _ => ScoreNotANumber submissionId
                                          (Reaction.userId reaction)
                                 end
                            else Handled b1 ReactionRemoved
                        end
                    end
                end
       end.

(** [Events.MessageReactionRemove]. *)
Definition onReactionRemove (reaction : Reaction.t) (b : Bot) : Bot * Action :=
  if Reaction.userBot reaction then (b, Ignored)
  else match Reaction.emojiName reaction with
       | None => (b, Ignored)
       | Some emoji =>
           if (emoji =? "")%string then (b, Ignored)
           else if match voteEmoji emoji with
                   | Own score => score =? 0
                   | Inherited => false
                   | Undefined => true
                   end then (b, Ignored)
           else match lookupSubmission false (Reaction.messageId reaction) b with
                | None => (b, Ignored)
                | Some (submissionId, _) =>
                    (mkBot (Storage.removeVote submissionId (Reaction.userId reaction)
                              (store b))
                           (messageToSubmissionId b),
                     VoteRemoved submissionId)
                end
       end.

End Discord.

(** A message the handler takes for a submission. *)
Definition isSubmissionMessage (discordMissionChannelId : string)
    (message : Discord.Message.t) : bool :=
  negb (Discord.Message.authorBot message)
  && Discord.Message.isThread message
  && match Discord.Message.parentId message with
     | Some parent => (parent =? discordMissionChannelId)%string
     | None => false
     end
  && negb (Nat.eqb (List.length (Discord.Message.urls message)) 0).

(** Every entry of the index names a submission on disk by its message id
    and its id. *)
Definition cacheSound (b : Discord.Bot) : Prop :=
  forall messageId submissionId,
    In (messageId, submissionId) (Discord.messageToSubmissionId b) ->
    exists s, In s (submissionsFile (Discord.store b))
              /\ Submission.messageId s = messageId
              /\ Submission.id s = submissionId.

(** From [d] to [d'] nothing changed but votes of [user]. *)
Definition onlyVotesOf (user : string) (d d' : Disk) : Prop :=
  missionsFile d' = missionsFile d
  /\ Forall2 (fun s s' =>
                Submission.set_votes [] s' = Submission.set_votes [] s
                /\ forall j, j <> user ->
                             votesBy j (Submission.votes s') = votesBy j (Submission.votes s))
             (submissionsFile d) (submissionsFile d').

(** Every stored score is one of 1 to 5. *)
Definition scoresInRange (d : Disk) : Prop :=
  forall s v, In s (submissionsFile d) -> In v (Submission.votes s) ->
              1 <= Vote.score v <= 5.

(** A thread with one submission, on which judge A clicked 4 and then 2. *)
Definition judgeRoles : list string := ["role-judge"].

Definition submissionMessage : Discord.Message.t :=
  Discord.Message.mk false true (Some "chan-missions") "msg-21" "thread-21"
    "Spring campaign" "user-7" "user#0007" "here: https://example.org/s"
    ["https://example.org/s"].

Definition clickOf (digit : ascii) (user : string) (roles : list string)
    : Discord.Reaction.t :=
  Discord.Reaction.mk false user false (Some (Discord.keycap digit)) "msg-21"
    (Discord.Cached roles).

Definition botAfterSubmission : Discord.Bot :=
  fst (Discord.onMessageCreate "chan-missions" 21 "2026-03-01T00:00:00.000Z" 9000
         22 "2026-03-01T00:00:01.000Z" "k3x9" None submissionMessage
         (Discord.mkBot emptyDisk [])).

(** ** commands/handlers.ts: escaping for Telegram MarkdownV2 *)

(** The character class of [escapeMarkdown]. *)
Definition isMarkdownSpecial (c : ascii) : bool :=
  existsb (Ascii.eqb c) (list_ascii_of_string "_*[]()~`>#+-=|{}.!\").

(** [text.replace(/[...]/g, '\\$&')]: a backslash goes before every
    character of the class. *)
Fixpoint escapeMarkdown (text : string) : string :=
  match text with
  | EmptyString => EmptyString
  | String c r =>
      if isMarkdownSpecial c then String "\" (String c (escapeMarkdown r))
      else String c (escapeMarkdown r)
  end.

(** How MarkdownV2 reads escaped text: a backslash makes the character after
    it literal.  [escaped] holds of a text in which every character of the
    class stands behind such a backslash, and [unescapeMarkdown] is the text
    a reader of it sees. *)
Fixpoint escaped (s : string) : bool :=
  match s with
  | EmptyString => true
  | String c r =>
      if Ascii.eqb c "\"
      then match r with
           | String d r' => isMarkdownSpecial d && escaped r'
           | EmptyString => false
           end
      else negb (isMarkdownSpecial c) && escaped r
  end.

Fixpoint unescapeMarkdown (s : string) : string :=
  match s with
  | EmptyString => EmptyString
  | String c r =>
      if Ascii.eqb c "\"
      then match r with
           | String d r' => String d (unescapeMarkdown r')
           | EmptyString => EmptyString
           end
      else String c (unescapeMarkdown r)
  end.

(** ** storage.ts and commands/handlers.ts: templates

    The templates live in a third file, [templates.json]; the functions below
    take and return its content.  Names are compared after [toLowerCase],
    which on ASCII names changes the letters A to Z and nothing else;
    [Templates.toLowerCase] is that function, so the comparison of names is
    the code's for ASCII names only (the code also folds the letters beyond
    ASCII, U+00C9 to U+00E9 for one). *)

Definition doubleQuote : string := String (ascii_of_nat 34) EmptyString.

Definition newline : string := String (ascii_of_nat 10) EmptyString.

(** U+2705, in UTF-8. *)
Definition checkMark : string :=
  string_of_list_ascii (map ascii_of_nat [226; 156; 133]%nat).

Module Template.
Record t : Type := mk {
  id : string;
  name : string;
  briefContent : string;
  defaultDeadlineDays : Z;
  claudePromptOverride : option string;
  announcementFormat : option string;
  roleIds : option (list string);
  createdAt : string;
  updatedAt : string
}.
End Template.

Module TemplateInput.
Record t : Type := mk {
  name : string;
  briefContent : string;
  defaultDeadlineDays : Z;
  claudePromptOverride : option string;
  announcementFormat : option string
}.
End TemplateInput.

Module CommandResult.
Record t : Type := mk {
  success : bool;
  message : option string;
  error : option string
}.
End CommandResult.

(** [arr.splice(index, 1)]. *)
Fixpoint splice1 {A : Type} (index : nat) (l : list A) : list A :=
  match l, index with
  | [], _ => []
  | _ :: r, O => r
  | x :: r, S k => x :: splice1 k r
  end.

Module Templates.

Definition toLowerChar (c : ascii) : ascii :=
  let n := nat_of_ascii c in
  if (Nat.leb 65 n && Nat.leb n 90)%bool then ascii_of_nat (n + 32) else c.

(** [s.toLowerCase()] of an ASCII string. *)
Definition toLowerCase (s : string) : string := string_map toLowerChar s.

Definition sameName (name : string) (t : Template.t) : bool :=
  (toLowerCase (Template.name t) =? toLowerCase name)%string.

(** [createTemplate]; [now] is [Date.now()], [nowIso] and [nowIso'] the two
    readings of [new Date().toISOString()]. *)
Definition createTemplate (now : Z) (nowIso nowIso' : string)
    (input : TemplateInput.t) (data : list Template.t)
    : outcome Template.t * list Template.t :=
  match find (sameName (TemplateInput.name input)) data with
  | Some existing =>
      (Thrown ("Template " ++ doubleQuote ++ TemplateInput.name input ++ doubleQuote
               ++ " already exists."), data)
  | None =>
      let template :=
        Template.mk ("tmpl-" ++ string_of_Z now)
                    (TemplateInput.name input)
                    (TemplateInput.briefContent input)
                    (TemplateInput.defaultDeadlineDays input)
                    (TemplateInput.claudePromptOverride input)
                    (TemplateInput.announcementFormat input)
                    None nowIso nowIso' in
      (Returned template, (data ++ [template])%list)
  end.

Definition getTemplateByName (name : string) (data : list Template.t)
    : option Template.t :=
  find (sameName name) data.

Definition deleteTemplate (id : string) (data : list Template.t)
    : bool * list Template.t :=
  match findIndex (fun t => Template.id t =? id)%string data with
  | None => (false, data)
  | Some index => (true, splice1 index data)
  end.

(** [handleCreateTemplateCommand]. *)
Definition handleCreateTemplateCommand (now : Z) (nowIso nowIso' : string)
    (input : TemplateInput.t) (data : list Template.t)
    : CommandResult.t * list Template.t :=
  match createTemplate now nowIso nowIso' input data with
  | (Returned template, data') =>
      (CommandResult.mk true
         (Some (checkMark ++ " Template *" ++ escapeMarkdown (Template.name template)
                ++ "* created\!" ++ newline ++ newline ++ "Use \`/tm "
                ++ escapeMarkdown (Template.name template)
                ++ "\` to create a mission from it\."))
         None,
       data')
  | (Thrown msg, data') => (CommandResult.mk false None (Some msg), data')
  end.

(** [handleDeleteTemplateCommand]. *)
Definition handleDeleteTemplateCommand (name : string) (data : list Template.t)
    : CommandResult.t * list Template.t :=
  match getTemplateByName name data with
  | None =>
      (CommandResult.mk false None
         (Some ("Template " ++ doubleQuote ++ name ++ doubleQuote ++ " not found.")),
       data)
  | Some template =>
      (CommandResult.mk true
         (Some (checkMark ++ " Template *" ++ escapeMarkdown (Template.name template)
                ++ "* deleted\."))
         None,
       snd (deleteTemplate (Template.id template) data))
  end.

End Templates.

(** No two templates bear the same name, letter case ignored. *)
Definition namesDistinct (data : list Template.t) : Prop :=
  NoDup (map (fun t => Templates.toLowerCase (Template.name t)) data).

(** Every template of the file has an ASCII name. *)
Definition asciiNames (data : list Template.t) : bool :=
  forallb (fun t => isAscii (Template.name t)) data.

Definition weeklyInput : TemplateInput.t :=
  TemplateInput.mk "Weekly" "Post about {{topic}} by {{deadline_date}}." 7 None None.

Definition twoTemplates : list Template.t :=
  snd (Templates.createTemplate 31 "2026-04-01T00:00:00.000Z"
         "2026-04-01T00:00:00.001Z"
         (TemplateInput.mk "launch" "Launch day: {{topic}}" 3 None None)
         (snd (Templates.createTemplate 30 "2026-03-31T00:00:00.000Z"
                 "2026-03-31T00:00:00.000Z" weeklyInput []))).

(** ** storage.ts: placeholders

    [text.replace(/\{\{(\w+)\}\}/g, (match, key) => vars[key] ?? match)] and
    the placeholder scan of [handleViewTemplateCommand], which runs the same
    expression with [exec].  [vars] is read through the function that gives,
    for a key, the string [vars[key]] is replaced with, or [None] when
    [vars[key]] is [undefined] or [null]. *)

(** [\w]. *)
Definition isWordChar (c : ascii) : bool :=
  let n := nat_of_ascii c in
  ((Nat.leb 48 n && Nat.leb n 57) || (Nat.leb 65 n && Nat.leb n 90)
   || (Nat.leb 97 n && Nat.leb n 122) || Nat.eqb n 95)%bool.

(** The longest run of word characters at the start of a string, and what
    follows it. *)
Fixpoint takeWord (s : string) : string * string :=
  match s with
  | EmptyString => (EmptyString, EmptyString)
  | String c r =>
      if isWordChar c
      then let (word, rest) := takeWord r in (String c word, rest)
      else (EmptyString, s)
  end.

(** A match of the expression at the start of a string: its key and its
    length. *)
Definition placeholderAt (s : string) : option (string * nat) :=
  match s with
  | String a (String b r) =>
      if (Ascii.eqb a "{" && Ascii.eqb b "{")%bool
      then match takeWord r with
           | (EmptyString, _) => None
           | (key, String c (String d _)) =>
               if (Ascii.eqb c "}" && Ascii.eqb d "}")%bool
               then Some (key, (String.length key + 4)%nat)
               else None
           | (_, _) => None
           end
      else None
  | _ => None
  end.

(** The scan, left to right: [skip] characters of an earlier match are still
    to be passed over. *)
Fixpoint replaceFrom (vars : string -> option string) (skip : nat) (s : string)
    : string :=
  match s with
  | EmptyString => EmptyString
  | String c r =>
      match skip with
      | S k => replaceFrom vars k r
      | O =>
          match placeholderAt s with
          | Some (key, len) =>
              match vars key with
              | Some value => value
              | None => substring 0 len s
              end ++ replaceFrom vars (len - 1) r
          | None => String c (replaceFrom vars O r)
          end
      end
  end.

Definition resolveTemplateVariables (text : string) (vars : string -> option string)
    : string :=
  replaceFrom vars 0 text.

Fixpoint placeholdersFrom (skip : nat) (s : string) (placeholders : list string)
    : list string :=
  match s with
  | EmptyString => placeholders
  | String c r =>
      match skip with
      | S k => placeholdersFrom k r placeholders
      | O =>
          match placeholderAt s with
          | Some (key, len) => placeholdersFrom (len - 1) r (setAdd placeholders key)
          | None => placeholdersFrom O r placeholders
          end
      end
  end.

(** The placeholders [handleViewTemplateCommand] lists for a brief. *)
Definition detectPlaceholders (briefContent : string) : list string :=
  placeholdersFrom 0 briefContent [].

(** [s] without its first [n] characters. *)
Fixpoint dropChars (n : nat) (s : string) : string :=
  match n, s with
  | O, _ => s
  | S k, String _ r => dropChars k r
  | S _, EmptyString => EmptyString
  end.

(** ** config.ts and telegram.ts: the id lists *)

Module Config.

(** [process.env[key] || defaultValue]. *)
Definition optionalEnv (value : option string) (defaultValue : string) : string :=
  match value with
  | Some v => if (v =? "")%string then defaultValue else v
  | None => defaultValue
  end.

(** [value.split(',')]. *)
Fixpoint split (value : string) : list string :=
  match value with
  | EmptyString => [EmptyString]
  | String c r =>
      if Ascii.eqb c ","
      then EmptyString :: split r
      else match split r with
           | first :: rest => String c first :: rest
           | [] => [String c EmptyString]
           end
  end.

Definition parseArray (value : string) : list string :=
  if (value =? "")%string then []
  else filter (fun s => negb (s =? "")%string) (map trim (split value)).

Definition telegramAllowedChatIds (TELEGRAM_ALLOWED_CHAT_IDS : option string)
    : list string :=
  parseArray (optionalEnv TELEGRAM_ALLOWED_CHAT_IDS "-5226358270").

End Config.

(** [isAllowedChat]; [chatId] is [ctx.chat?.id?.toString()]. *)
Definition isAllowedChat (telegramAllowedChatIds : list string)
    (chatId : option string) : bool :=
  match chatId with
  | None => false
  | Some chatId =>
      if (chatId =? "")%string then false
      else if (List.length telegramAllowedChatIds =? 0)%nat then true
      else existsb (String.eqb chatId) telegramAllowedChatIds
  end.

(** An id as [parseArray] returns it: not empty, without a comma, without
    white space at either end. *)
Definition isListedId (x : string) : bool :=
  negb (x =? "")%string
  && forallb (fun c => negb (Ascii.eqb c ",")) (list_ascii_of_string x)
  && (trim x =? x)%string.

(** [ids.join(',')]. *)
Fixpoint joinComma (ids : list string) : string :=
  match ids with
  | [] => EmptyString
  | [x] => x
  | x :: rest => (x ++ "," ++ joinComma rest)%string
  end.

(** ** telegram.ts: submissions by reply

    The [message:text] handler, up to its call of [appendSubmissionToSheet],
    whose code is not part of the sources at hand: the value is the data
    directory at that call, and what the handler has decided. *)

Module Telegram.

Module TextMessage.
Record t : Type := mk {
  text : string;
  (** [ctx.chat.id.toString()]: a text message always has a chat. *)
  chatId : string;
  (** [ctx.message.message_id]. *)
  messageId : Z;
  (** [ctx.message.reply_to_message?.message_id]. *)
  replyToId : option Z;
  (** [ctx.from?.id?.toString()], [ctx.from?.username],
      [ctx.from?.first_name]. *)
  fromId : option string;
  username : option string;
  firstName : option string;
  (** [text.match(urlRegex)]; [[]] stands for [null]. *)
  urls : list string
}.
End TextMessage.

Inductive Action : Type :=
  | Ignored
  | RepliedMissionClosed
  | SubmissionCreated (mission : Mission.t) (submission : Submission.t)
  | RepliedNotAMission
  | RepliedHowToSubmit.

(** [a || b] on strings that may be absent. *)
Definition orElse (a : option string) (b : string) : string :=
  match a with
  | Some s => if (s =? "")%string then b else s
  | None => b
  end.

Definition startsWithSlash (text : string) : bool :=
  match text with
  | String c _ => Ascii.eqb c "/"
  | EmptyString => false
  end.

Definition onText (telegramAllowedChatIds : list string) (sheetsConfigured : bool)
    (now : Z) (nowIso rnd : string) (message : TextMessage.t) (d : Disk)
    : Disk * Action :=
  if startsWithSlash (TextMessage.text message) then (d, Ignored)
  else match TextMessage.urls message with
       | [] => (d, Ignored)
       | urls =>
           let replied :=
             match TextMessage.replyToId message with
             | Some replyToId => negb (replyToId =? 0)
             | None => false
             end in
           let other :=
             if isAllowedChat telegramAllowedChatIds (Some (TextMessage.chatId message))
             then (d, if replied then RepliedNotAMission else RepliedHowToSubmit)
             else (d, Ignored) in
           match TextMessage.replyToId message with
           | Some replyToId =>
               if replyToId =? 0 then other
               else match MissionLinks.getMissionByTelegramMessage
                            (string_of_Z replyToId) d with
                    | None => other
                    | Some mission =>
                        if negb match Mission.telegramChatId mission with
                                | Some chat => (chat =? TextMessage.chatId message)%string
                                | None => false
                                end then (d, Ignored)
                        else if negb (status_eqb (Mission.status mission) active)
                        then (d, RepliedMissionClosed)
                        else if negb sheetsConfigured then (d, Ignored)
                        else
                          let '(submission, d') :=
                            Storage.createSubmission now nowIso rnd
                              (string_of_Z (TextMessage.messageId message))
                              (TextMessage.chatId message)
                              (Mission.threadId mission) (Mission.id mission)
                              (orElse (TextMessage.fromId message) "unknown")
                              (orElse (TextMessage.username message)
                                 (orElse (TextMessage.firstName message) "unknown"))
                              (TextMessage.text message) urls telegram d in
                          (d', SubmissionCreated mission submission)
                    end
           | None => other
           end
       end.

End Telegram.

(** A mission announced in a Telegram channel, and a reply to the
    announcement. *)
Definition announcedDisk : Disk :=
  MissionLinks.updateMissionTelegramInfo "mission-1" "501" "-100900"
    (disk scenarioWorld).

Definition replyWithUrl : Telegram.TextMessage.t :=
  Telegram.TextMessage.mk "mine: https://example.org/t" "-100900" 640 (Some 501)
    (Some "77") None (Some "Ada") ["https://example.org/t"].

(** A sequence of sweeps of [checkDeadlines], each with its environment and
    its scan time. *)
Definition sweeps (runs : list (Env * Z)) (w : World) : World :=
  fold_left (fun w run => snd (checkDeadlines (fst run) (snd run) w)) runs w.

(** ** storage.ts: listing templates

    [data.templates.sort((a, b) => new Date(b.createdAt).getTime() -
    new Date(a.createdAt).getTime())].  [Array.prototype.sort] is stable; it
    is taken here as the stable insertion sort.  [getTime] gives the time
    value of a [createdAt] string, which [createTemplate] always writes as a
    valid date. *)

Section ListingTemplates.
Variable getTime : string -> Z.

(** The comparator. *)
Definition newestFirst (a b : Template.t) : Z :=
  getTime (Template.createdAt b) - getTime (Template.createdAt a).

Fixpoint insertTemplate (x : Template.t) (sorted : list Template.t)
    : list Template.t :=
  match sorted with
  | [] => [x]
  | y :: r => if newestFirst x y <=? 0 then x :: sorted else y :: insertTemplate x r
  end.

Definition getAllTemplates (data : list Template.t) : list Template.t :=
  fold_right insertTemplate [] data.

End ListingTemplates.

(** The time a template was created at. *)
Definition creationTime (getTime : string -> Z) (t : Template.t) : Z :=
  getTime (Template.createdAt t).

(** ** The status server: the summary of active missions *)

(** [totalSubmissions] of [buildStatus]. *)
Definition totalSubmissions (d : Disk) : nat :=
  fold_left (fun total m =>
               (total + List.length (Storage.getSubmissionsByMission (Mission.id m) d))%nat)
            (Storage.getActiveMissions d) O.

(** The submission belongs to an active mission. *)
Definition ofActiveMission (d : Disk) (s : Submission.t) : bool :=
  existsb (fun m => (Submission.missionId s =? Mission.id m)%string)
          (Storage.getActiveMissions d).

(** ** telegram.ts: long messages

    [sendLongMessage], as the list of the texts it passes to [ctx.reply], in
    order, when every call resolves; a call that throws ends the function,
    and the replies made are then a prefix of that list. *)

Definition MAX_LENGTH : nat := 4000.

Definition paragraphBreak : string := newline ++ newline.

Definition prependChar (c : ascii) (pieces : list string) : list string :=
  match pieces with
  | first :: rest => String c first :: rest
  | [] => [String c EmptyString]
  end.

(** [text.split('\n\n')]. *)
Fixpoint splitParagraphs (text : string) : list string :=
  match text with
  | EmptyString => [EmptyString]
  | String c r =>
      if Ascii.eqb c (ascii_of_nat 10)
      then match r with
           | String d r' =>
               if Ascii.eqb d (ascii_of_nat 10)
               then EmptyString :: splitParagraphs r'
               else prependChar c (splitParagraphs r)
           | EmptyString => prependChar c (splitParagraphs r)
           end
      else prependChar c (splitParagraphs r)
  end.

(** The loop over the paragraphs: the chunk in the making and the replies
    made so far. *)
Fixpoint sendChunks (paragraphs : list string) (currentChunk : string)
    (replies : list string) : list string :=
  match paragraphs with
  | [] => if (currentChunk =? "")%string then replies
          else (replies ++ [currentChunk])%list
  | paragraph :: rest =>
      if (MAX_LENGTH <? String.length (currentChunk ++ paragraphBreak ++ paragraph))%nat
      then sendChunks rest paragraph
             (if (currentChunk =? "")%string then replies
              else (replies ++ [currentChunk])%list)
      else sendChunks rest
             (if (currentChunk =? "")%string then paragraph
              else (currentChunk ++ paragraphBreak ++ paragraph)%string)
             replies
  end.

Definition sendLongMessage (text : string) : list string :=
  if (String.length text <=? MAX_LENGTH)%nat then [text]
  else sendChunks (splitParagraphs text) EmptyString [].

(** Three paragraphs of 1500 characters, each followed by a paragraph
    break. *)
Fixpoint repeatString (n : nat) (s : string) : string :=
  match n with
  | O => EmptyString
  | S k => (s ++ repeatString k s)%string
  end.

Definition threeParagraphs : string :=
  repeatString 3 (repeatString 150 "0123456789" ++ paragraphBreak).

(** ** telegram.ts: the arguments of /tm *)

Definition isQuoteChar (ch : ascii) : bool :=
  (Ascii.eqb ch (ascii_of_nat 34) || Ascii.eqb ch "'")%bool.

(** The character loop of [parseTemplateArgs]: [quote] is the open quote
    character when [inQuote] holds. *)
Fixpoint tokenize (input : string) (parts : list string) (current : string)
    (quote : option ascii) : list string :=
  match input with
  | EmptyString =>
      if (current =? "")%string then parts else (parts ++ [current])%list
  | String ch r =>
      match quote with
      | Some quoteChar =>
          if Ascii.eqb ch quoteChar then tokenize r parts current None
          else tokenize r parts (current ++ String ch EmptyString) quote
      | None =>
          if isQuoteChar ch then tokenize r parts current (Some ch)
          else if Ascii.eqb ch " "
               then if (current =? "")%string then tokenize r parts EmptyString None
                    else tokenize r (parts ++ [current])%list EmptyString None
               else tokenize r parts (current ++ String ch EmptyString) None
      end
  end.

(** [part.slice(0, eqIdx)] and [part.slice(eqIdx + 1)] for the first [=] of
    a part; [None] when there is none. *)
Fixpoint splitAtEquals (part : string) : option (string * string) :=
  match part with
  | EmptyString => None
  | String c r =>
      if Ascii.eqb c "="
      then Some (EmptyString, r)
      else match splitAtEquals r with
           | Some (key, value) => Some (String c key, value)
           | None => None
           end
  end.

(** [variables[key] = value] on an object literal: a string assigned to
    [__proto__] is dropped by the setter of [Object.prototype]. *)
Definition setProperty (key value : string) (object : list (string * string))
    : list (string * string) :=
  if (key =? "__proto__")%string then object
  else Discord.mapSet key value object.

Definition parseTemplateArgs (input : string) : string * list (string * string) :=
  let parts := tokenize input [] EmptyString None in
  (hd EmptyString parts,
   fold_left (fun variables part =>
                match splitAtEquals part with
                | Some (key, value) =>
                    if (key =? "")%string then variables
                    else setProperty key value variables
                | None => variables
                end)
             (tl parts) []).

(** The text without its blanks. *)
Fixpoint withoutBlanks (s : string) : string :=
  match s with
  | EmptyString => EmptyString
  | String c r => if Ascii.eqb c " " then withoutBlanks r else String c (withoutBlanks r)
  end.

(** * Properties *)

(** ** Arrays *)

Section Arrays.
Context {A : Type}.
Variables (p : A -> bool) (f : A -> A).

Lemma mutateFirst_none (l : list A) :
  find p l = None -> mutateFirst p f l = l.
Proof.
  induction l as [|x r IH]; simpl; [reflexivity|].
  destruct (p x); [discriminate|]. intros H. now rewrite IH.
Qed.

Lemma mutateFirst_length (l : list A) :
  List.length (mutateFirst p f l) = List.length l.
Proof.
  induction l as [|x r IH]; simpl; [reflexivity|].
  destruct (p x); simpl; congruence.
Qed.

(** When the mutation keeps the key, [find] sees the mutated element. *)
Lemma find_mutateFirst (l : list A) :
  (forall x, p (f x) = p x) ->
  find p (mutateFirst p f l) = option_map f (find p l).
Proof.
  intros Hk. induction l as [|x r IH]; simpl; [reflexivity|].
  destruct (p x) eqn:Hx; simpl.
  - now rewrite Hk, Hx.
  - now rewrite Hx.
Qed.

(** Every position keeps its element, except the one [find] returns. *)
Lemma nth_error_mutateFirst (l : list A) (i : nat) (x : A) :
  nth_error l i = Some x ->
  nth_error (mutateFirst p f l) i = Some x
  \/ (find p l = Some x /\ nth_error (mutateFirst p f l) i = Some (f x)).
Proof.
  revert i. induction l as [|y r IH]; intros [|i] H; simpl in *; try discriminate.
  - injection H as ->. destruct (p x) eqn:Hx; simpl; auto.
  - destruct (p y); simpl; auto.
Qed.

Lemma mutateFirst_id (l : list A) :
  (forall x, find p l = Some x -> f x = x) -> mutateFirst p f l = l.
Proof.
  induction l as [|x r IH]; simpl; intros H; [reflexivity|].
  destruct (p x) eqn:Hx.
  - now rewrite H by auto.
  - now rewrite IH by auto.
Qed.

Lemma forallb_mutateFirst (q : A -> bool) (l : list A) :
  (forall x, q x = true -> q (f x) = true) ->
  forallb q l = true -> forallb q (mutateFirst p f l) = true.
Proof.
  intros Hq. induction l as [|x r IH]; simpl; [auto|].
  intros H. apply andb_true_iff in H as [Hx Hr].
  destruct (p x); simpl; apply andb_true_iff; auto.
Qed.
End Arrays.

Lemma find_app_none {A : Type} (p : A -> bool) (l : list A) (x : A) :
  find p l = None -> find p (l ++ [x]) = if p x then Some x else None.
Proof.
  induction l as [|y r IH]; simpl; [reflexivity|].
  destruct (p y); [discriminate|auto].
Qed.

Lemma find_none_iff {A : Type} (p : A -> bool) (l : list A) :
  find p l = None <-> forall x, In x l -> p x = false.
Proof.
  split; [apply find_none|].
  induction l as [|y r IH]; simpl; intros H; [reflexivity|].
  rewrite (H y) by auto. apply IH. auto.
Qed.

Lemma filter_none {A : Type} (p : A -> bool) (l : list A) :
  (forall x, In x l -> p x = false) -> filter p l = [].
Proof.
  induction l as [|y r IH]; simpl; intros H; [reflexivity|].
  rewrite (H y) by auto. apply IH. auto.
Qed.

(** ** Missions *)

Lemma status_eqb_eq (a b : MissionStatus) : status_eqb a b = true <-> a = b.
Proof. destruct a, b; simpl; split; intros H; congruence. Qed.

Lemma In_find_some {A : Type} (key : A -> string) (l : list A) (x : A) :
  In x l -> exists y, find (fun y => key y =? key x)%string l = Some y.
Proof.
  induction l as [|y r IH]; simpl; [intros []|intros [->|Hin]].
  - rewrite String.eqb_refl. eauto.
  - destruct (key y =? key x)%string; eauto.
Qed.

(** A selected mission is one the store knows by its id. *)
Lemma getMissionsPastDeadline_found now d m :
  In m (Storage.getMissionsPastDeadline now d) ->
  exists m', Storage.getMissionById (Mission.id m) d = Some m'.
Proof.
  unfold Storage.getMissionsPastDeadline, Storage.getMissionById. intros H.
  apply filter_In in H as [H _]. now apply (In_find_some Mission.id).
Qed.

(** What [registerMission] leaves on disk, whichever branch it takes: a
    record for the thread, the one it returns. *)
Lemma registerMission_found now nowIso threadId title deadline brief d :
  let r := Storage.registerMission now nowIso threadId title deadline brief d in
  Storage.getMissionByThread threadId (snd r) = Some (fst r).
Proof.
  unfold Storage.registerMission, Storage.getMissionByThread, Storage.loadMissions.
  destruct (find _ (missionsFile d)) as [existing|] eqn:Hf; simpl.
  - exact Hf.
  - rewrite find_app_none by exact Hf. simpl. now rewrite String.eqb_refl.
Qed.

Lemma registerMission_existing now nowIso threadId title deadline brief d m :
  Storage.getMissionByThread threadId d = Some m ->
  Storage.registerMission now nowIso threadId title deadline brief d = (m, d).
Proof.
  unfold Storage.registerMission, Storage.getMissionByThread. now intros ->.
Qed.

(** C5. Registering a thread twice returns the same mission both times (the
    same record, hence the same id), whatever title, deadline and brief the
    second call carries; the second call leaves [missions.json] as the first
    one left it, so no second record is added: the disk holds as many records
    for the thread as before the first call, or one if it held none. *)
Theorem registerMission_idempotent :
  forall now1 iso1 now2 iso2 threadId title1 title2 deadline1 deadline2
         brief1 brief2 d,
    let r1 := Storage.registerMission now1 iso1 threadId title1 deadline1 brief1 d in
    let r2 := Storage.registerMission now2 iso2 threadId title2 deadline2 brief2
                (snd r1) in
    let forThread := filter (fun m => Mission.threadId m =? threadId)%string in
    fst r2 = fst r1
    /\ Mission.id (fst r2) = Mission.id (fst r1)
    /\ snd r2 = snd r1
    /\ Storage.getMissionByThread threadId (snd r2) = Some (fst r1)
    /\ List.length (forThread (missionsFile (snd r2)))
       = Nat.max 1 (List.length (forThread (missionsFile d))).
Proof.
  intros. subst r2.
  pose proof (registerMission_found now1 iso1 threadId title1 deadline1 brief1 d) as Hf.
  fold r1 in Hf. cbv zeta in Hf.
  rewrite (registerMission_existing _ _ _ _ _ _ _ _ Hf). simpl.
  repeat split; try assumption.
  subst r1 forThread.
  unfold Storage.registerMission, Storage.loadMissions.
  destruct (find _ (missionsFile d)) as [existing|] eqn:Hfind; simpl.
  - apply find_some in Hfind as [Hin Hp].
    assert (In existing (filter (fun m => Mission.threadId m =? threadId)%string
                                (missionsFile d))) as Hin'
      by (apply filter_In; auto).
    destruct (filter _ (missionsFile d)); [destruct Hin'|simpl; lia].
  - rewrite filter_app. simpl. rewrite String.eqb_refl.
    rewrite length_app. simpl.
    assert (filter (fun m => Mission.threadId m =? threadId)%string (missionsFile d) = []) as ->.
    { apply filter_none, find_none_iff, Hfind. }
    reflexivity.
Qed.

(** C3, as the code has it: at scan time [now] the sweep selects exactly the
    missions on disk whose status is [active] and whose deadline is strictly
    earlier than [now], in the order of the file; a mission whose deadline
    equals [now] is not selected, and neither is a closed or exported one. *)
Theorem getMissionsPastDeadline_selects :
  forall now d,
    Storage.getMissionsPastDeadline now d
    = filter (fun m => status_eqb (Mission.status m) active) 
             (filter (fun m => Mission.deadline m <? now) (missionsFile d))
    /\ (forall m, In m (Storage.getMissionsPastDeadline now d)
                  <-> In m (missionsFile d)
                      /\ Mission.status m = active
                      /\ Mission.deadline m < now)
    /\ (forall m, In m (Storage.getMissionsPastDeadline now d) ->
                  Mission.deadline m <> now
                  /\ Mission.status m <> closed
                  /\ Mission.status m <> exported).
Proof.
  intros now d.
  assert (forall m, In m (Storage.getMissionsPastDeadline now d)
                    <-> In m (missionsFile d)
                        /\ Mission.status m = active
                        /\ Mission.deadline m < now) as Hiff.
  { intros m. unfold Storage.getMissionsPastDeadline, Storage.loadMissions.
    rewrite filter_In, andb_true_iff, status_eqb_eq, Z.ltb_lt. tauto. }
  split; [|split].
  - clear Hiff. unfold Storage.getMissionsPastDeadline, Storage.loadMissions.
    induction (missionsFile d) as [|m r IH]; simpl; [reflexivity|].
    destruct (Mission.deadline m <? now) eqn:Hd,
             (status_eqb (Mission.status m) active) eqn:Hs;
      simpl; rewrite ?Hs, ?IH; reflexivity.
  - exact Hiff.
  - intros m Hm. apply Hiff in Hm as (_ & Hs & Hd).
    rewrite Hs. repeat split; try discriminate. lia.
Qed.

Lemma getMissionsPastDeadline_witness :
  let early := sampleMission "mission-1" "thread-1" 999 active in
  let due := sampleMission "mission-2" "thread-2" 1000 active in
  let late := sampleMission "mission-3" "thread-3" 1001 active in
  let done := sampleMission "mission-4" "thread-4" 999 exported in
  let d := mkDisk [early; due; late; done] [] in
  Storage.getMissionsPastDeadline 1000 d = [early]
  /\ (In early (Storage.getMissionsPastDeadline 1000 d)
      <-> In early (missionsFile d)
          /\ Mission.status early = active /\ Mission.deadline early < 1000)
  /\ (Mission.deadline early <> 1000
      /\ Mission.status early <> closed /\ Mission.status early <> exported).
Proof.
  intros early due late done d.
  destruct (getMissionsPastDeadline_selects 1000 d) as (_ & Hiff & Hsel).
  split; [reflexivity|]. split; [apply Hiff|].
  apply Hsel. left. reflexivity.
Defined.

(** C3, counterexample: an active mission whose deadline equals the scan time
    is on disk, active and has [deadline <= now], yet it is not selected. *)
Lemma deadline_equal_to_scan_time_not_selected :
  let m := sampleMission "mission-1" "thread-1" 1000 active in
  let d := mkDisk [m] [] in
  ~ (In m (Storage.getMissionsPastDeadline 1000 d)
     <-> In m (missionsFile d)
         /\ Mission.status m = active
         /\ Mission.deadline m <= 1000).
Proof.
  intros m d [_ H].
  assert (In m (Storage.getMissionsPastDeadline 1000 d)) as Hin.
  { apply H. repeat split; [left; reflexivity | vm_compute; discriminate]. }
  vm_compute in Hin. exact Hin.
Qed.

(** The mission operations keep the file's positions and ids. *)
Lemma applyOp_keeps_missions op d i m :
  nth_error (missionsFile d) i = Some m ->
  exists m', nth_error (missionsFile (applyOp op d)) i = Some m'
             /\ Mission.id m' = Mission.id m
             /\ (m' = m
                 \/ (exists iso, m' = Mission.set_exportedAt iso
                                        (Mission.set_status exported m))
                 \/ (m' = Mission.set_status closed m
                     /\ exists missionId, op = OpMarkMissionClosed missionId
                          /\ Storage.getMissionById missionId d = Some m)).
Proof.
  intros Hi.
  assert (forall d', missionsFile d' = missionsFile d ->
            exists m', nth_error (missionsFile d') i = Some m'
                       /\ Mission.id m' = Mission.id m
                       /\ (m' = m
                           \/ (exists iso, m' = Mission.set_exportedAt iso
                                                  (Mission.set_status exported m))
                           \/ (m' = Mission.set_status closed m
                               /\ exists missionId, op = OpMarkMissionClosed missionId
                                    /\ Storage.getMissionById missionId d = Some m)))
    as Hsame by (intros d' ->; exists m; auto).
  destruct op; simpl;
    try (apply Hsame; unfold Storage.recordVote, Storage.removeVote;
         try destruct (find _ _); reflexivity).
  - unfold Storage.registerMission, Storage.loadMissions.
    destruct (find _ (missionsFile d)); simpl; exists m; repeat split; auto.
    rewrite nth_error_app1; [exact Hi|]. apply nth_error_Some. congruence.
  - unfold Storage.markMissionClosed, Storage.loadMissions.
    destruct (find _ (missionsFile d)) eqn:Hf; simpl; [|exists m; auto].
    destruct (nth_error_mutateFirst (fun m => Mission.id m =? missionId)%string
                (Mission.set_status closed) _ _ _ Hi) as [H|[Hfm H]].
    + exists m; auto.
    + exists (Mission.set_status closed m). repeat split; auto.
      right; right. split; [reflexivity|]. exists missionId. auto.
  - unfold Storage.markMissionExported, Storage.loadMissions.
    destruct (find _ (missionsFile d)) eqn:Hf; simpl; [|exists m; auto].
    destruct (nth_error_mutateFirst (fun m => Mission.id m =? missionId)%string
                (fun m => Mission.set_exportedAt nowIso
                            (Mission.set_status exported m)) _ _ _ Hi)
      as [H|[Hfm H]].
    + exists m; auto.
    + exists (Mission.set_exportedAt nowIso (Mission.set_status exported m)).
      split; [exact H|]. split; [reflexivity|]. right; left. now exists nowIso.
Qed.

Lemma applyOp_monotonic op d i m :
  closesExported op d = false ->
  nth_error (missionsFile d) i = Some m ->
  exists m', nth_error (missionsFile (applyOp op d)) i = Some m'
             /\ Mission.id m' = Mission.id m
             /\ (rank (Mission.status m) <= rank (Mission.status m'))%nat.
Proof.
  intros Hc Hi.
  destruct (applyOp_keeps_missions op d i m Hi) as (m' & Hn & Hid & Hm').
  exists m'. repeat split; auto.
  destruct Hm' as [->|[[iso ->]|[-> (missionId & -> & Hg)]]].
  - lia.
  - simpl. destruct (Mission.status m); simpl; lia.
  - simpl in Hc. rewrite Hg in Hc. simpl.
    destruct (Mission.status m); simpl in *; try lia; discriminate.
Qed.

(** C4, as the code has it: along every sequence of store operations in which
    [markMissionClosed] is never aimed at a mission that is exported at that
    moment, every mission keeps its position and id in [missions.json] and its
    status never moves backwards on active, closed, exported. *)
Theorem status_monotonic_unless_closing_exported :
  forall ops d,
    neverClosesExported ops d = true ->
    forall i m,
      nth_error (missionsFile d) i = Some m ->
      exists m', nth_error (missionsFile (applyOps ops d)) i = Some m'
                 /\ Mission.id m' = Mission.id m
                 /\ (rank (Mission.status m) <= rank (Mission.status m'))%nat.
Proof.
  induction ops as [|op r IH]; intros d Hok i m Hi; simpl in *.
  - exists m. auto.
  - apply andb_true_iff in Hok as [Hop Hr]. apply negb_true_iff in Hop.
    destruct (applyOp_monotonic op d i m Hop Hi) as (m1 & H1 & Hid1 & Hrk1).
    destruct (IH _ Hr i m1 H1) as (m' & H' & Hid' & Hrk').
    exists m'. repeat split; [exact H'|congruence|lia].
Qed.

Lemma status_monotonic_witness :
  let d := mkDisk [sampleMission "mission-1" "thread-1" 1000 active] [] in
  let ops := [OpRegisterMission 5 "2026-01-03T00:00:00.000Z" "thread-2" "Second" 2000 None;
              OpMarkMissionClosed "mission-1";
              OpMarkMissionExported "2026-01-04T00:00:00.000Z" "mission-1"] in
  neverClosesExported ops d = true
  /\ exists m', nth_error (missionsFile (applyOps ops d)) 0 = Some m'
             /\ Mission.id m' = "mission-1"
             /\ (rank active <= rank (Mission.status m'))%nat.
Proof.
  intros d ops. split; [reflexivity|].
  apply (status_monotonic_unless_closing_exported ops d eq_refl O
           (sampleMission "mission-1" "thread-1" 1000 active)).
  reflexivity.
Defined.

(** C4, counterexample: a mission registered and then exported is moved back
    to closed by [markMissionClosed]. *)
Lemma markMissionClosed_reopens_exported :
  let d := applyOps [OpRegisterMission 1 "2026-01-01T00:00:00.000Z" "thread-1"
                                       "Morgan Stanley MDP" 1000 None;
                     OpMarkMissionExported "2026-01-05T00:00:00.000Z" "mission-1"]
                    emptyDisk in
  option_map Mission.status (Storage.getMissionById "mission-1" d) = Some exported
  /\ option_map Mission.status
       (Storage.getMissionById "mission-1"
          (applyOp (OpMarkMissionClosed "mission-1") d)) = Some closed
  /\ ~ statusNeverRegresses (OpMarkMissionClosed "mission-1") d.
Proof.
  intros d. split; [reflexivity|]. split; [reflexivity|].
  intros H. specialize (H O _ _ eq_refl eq_refl). vm_compute in H. lia.
Qed.

(** ** Votes *)

Section VotesOfOneJudge.
Variable j : string.

(** The heart of [recordVote]: the judge's first entry becomes the new
    vote; their other entries, and everybody else's, stay. *)
Lemma votesBy_upsertVote (v : Vote.t) (votes : list Vote.t) :
  Vote.judgeId v = j ->
  votesBy j (Storage.upsertVote v votes) = v :: tl (votesBy j votes).
Proof.
  intros Hv. unfold Storage.upsertVote. rewrite Hv.
  induction votes as [|w r IH]; simpl.
  - now rewrite Hv, String.eqb_refl.
  - destruct (Vote.judgeId w =? j)%string eqn:Hw; simpl.
    + now rewrite Hv, String.eqb_refl.
    + destruct (findIndex _ r); simpl in *; now rewrite Hw.
Qed.

Lemma votesBy_upsertVote_other (v : Vote.t) (votes : list Vote.t) :
  Vote.judgeId v <> j ->
  votesBy j (Storage.upsertVote v votes) = votesBy j votes.
Proof.
  intros Hv. apply String.eqb_neq in Hv. unfold Storage.upsertVote.
  induction votes as [|w r IH]; simpl.
  - now rewrite Hv.
  - destruct (Vote.judgeId w =? Vote.judgeId v)%string eqn:Hw; simpl.
    + apply String.eqb_eq in Hw. rewrite Hw. now rewrite Hv.
    + destruct (findIndex _ r); simpl in *; now rewrite IH.
Qed.

(** The heart of [removeVote]. *)
Lemma votesBy_removed (votes : list Vote.t) :
  votesBy j (filter (fun v => negb (Vote.judgeId v =? j)%string) votes) = [].
Proof.
  induction votes as [|w r IH]; simpl; [reflexivity|].
  destruct (Vote.judgeId w =? j)%string eqn:Hw; simpl; [exact IH|].
  now rewrite Hw.
Qed.

Lemma remove_absent (votes : list Vote.t) :
  votesBy j votes = [] ->
  filter (fun v => negb (Vote.judgeId v =? j)%string) votes = votes.
Proof.
  induction votes as [|w r IH]; simpl; [reflexivity|].
  destruct (Vote.judgeId w =? j)%string; simpl; [discriminate|].
  intros H. now rewrite IH.
Qed.
End VotesOfOneJudge.

Lemma votesBy_removed_other (j j' : string) (votes : list Vote.t) :
  j' <> j ->
  votesBy j' (filter (fun v => negb (Vote.judgeId v =? j)%string) votes)
  = votesBy j' votes.
Proof.
  intros Hj. induction votes as [|w r IH]; simpl; [reflexivity|].
  destruct (Vote.judgeId w =? j)%string eqn:Hw; simpl.
  - apply String.eqb_eq in Hw. rewrite Hw.
    apply String.eqb_neq in Hj. rewrite String.eqb_sym, Hj. exact IH.
  - now rewrite IH.
Qed.

Lemma set_votes_same (s : Submission.t) : Submission.set_votes (Submission.votes s) s = s.
Proof. now destruct s. Qed.

Lemma recordVote_lookup nowIso submissionId judgeId score d s :
  Storage.getSubmissionById submissionId d = Some s ->
  Storage.getSubmissionById submissionId
    (Storage.recordVote nowIso submissionId judgeId score d)
  = Some (Submission.set_votes
            (Storage.upsertVote (Vote.mk judgeId score nowIso) (Submission.votes s)) s).
Proof.
  unfold Storage.getSubmissionById, Storage.recordVote, Storage.loadSubmissions.
  intros H. rewrite H. simpl. rewrite find_mutateFirst by reflexivity.
  now rewrite H.
Qed.

Lemma removeVote_lookup submissionId judgeId d :
  Storage.getSubmissionById submissionId (Storage.removeVote submissionId judgeId d)
  = option_map
      (fun s => Submission.set_votes
                  (filter (fun v => negb (Vote.judgeId v =? judgeId)%string)
                          (Submission.votes s)) s)
      (Storage.getSubmissionById submissionId d).
Proof.
  unfold Storage.getSubmissionById, Storage.removeVote, Storage.loadSubmissions.
  destruct (find _ (submissionsFile d)) eqn:H; simpl.
  - rewrite find_mutateFirst by reflexivity. now rewrite H.
  - now rewrite H.
Qed.

(** With unique keys, the element [find] returns is the only one carrying
    the key, so after the mutation every element with the key is mutated. *)
Lemma In_mutateFirst_unique {A : Type} (key : A -> string) (k : string)
    (f : A -> A) (l : list A) (x : A) :
  (forall y, key (f y) = key y) ->
  NoDup (map key l) ->
  In x (mutateFirst (fun y => key y =? k)%string f l) ->
  key x = k ->
  exists y, find (fun y => key y =? k)%string l = Some y /\ x = f y.
Proof.
  intros Hkey. induction l as [|y r IH]; simpl; intros Hnd Hin Hk; [destruct Hin|].
  inversion Hnd as [|? ? Hnotin Hnd']; subst.
  destruct (key y =? key x)%string eqn:Hy.
  - destruct Hin as [<-|Hin]; [eauto|].
    exfalso. apply Hnotin. apply String.eqb_eq in Hy. rewrite Hy.
    now apply in_map.
  - destruct Hin as [->|Hin]; [rewrite String.eqb_refl in Hy; discriminate|].
    now apply IH.
Qed.

Lemma recordVotes_app submissionId judgeId calls1 calls2 d :
  recordVotes submissionId judgeId (calls1 ++ calls2) d
  = recordVotes submissionId judgeId calls2
      (recordVotes submissionId judgeId calls1 d).
Proof. apply fold_left_app. Qed.

(** A run of [recordVote] calls for [(s, j)] keeps the submission in place,
    keeps at most one entry of [j], and leaves the other judges' entries. *)
Lemma recordVotes_invariant submissionId judgeId calls :
  forall d s0,
    Storage.getSubmissionById submissionId d = Some s0 ->
    (List.length (votesBy judgeId (Submission.votes s0)) <= 1)%nat ->
    exists s1,
      Storage.getSubmissionById submissionId
        (recordVotes submissionId judgeId calls d) = Some s1
      /\ (List.length (votesBy judgeId (Submission.votes s1)) <= 1)%nat
      /\ forall j', j' <> judgeId ->
           votesBy j' (Submission.votes s1) = votesBy j' (Submission.votes s0).
Proof.
  induction calls as [|[score ts] r IH]; intros d s0 Hs Hle; simpl.
  - exists s0. auto.
  - pose proof (recordVote_lookup ts submissionId judgeId score d s0 Hs) as H1.
    destruct (IH _ _ H1) as (s1 & Hs1 & Hle1 & Hoth).
    + simpl. rewrite votesBy_upsertVote by reflexivity.
      destruct (votesBy judgeId (Submission.votes s0)) as [|? [|? ?]];
        simpl in *; lia.
    + exists s1. repeat split; auto.
      intros j' Hj'. rewrite (Hoth j' Hj'). simpl.
      apply votesBy_upsertVote_other. simpl. congruence.
Qed.

(** Last write wins: with at most one entry of the judge beforehand, a
    non-empty run of [recordVote] calls leaves exactly the last vote. *)
Lemma recordVotes_last_wins :
  forall submissionId judgeId d s0 calls score ts,
    Storage.getSubmissionById submissionId d = Some s0 ->
    (List.length (votesBy judgeId (Submission.votes s0)) <= 1)%nat ->
    exists s1,
      Storage.getSubmissionById submissionId
        (recordVotes submissionId judgeId (calls ++ [(score, ts)]) d) = Some s1
      /\ votesBy judgeId (Submission.votes s1) = [Vote.mk judgeId score ts]
      /\ forall j', j' <> judgeId ->
           votesBy j' (Submission.votes s1) = votesBy j' (Submission.votes s0).
Proof.
  intros submissionId judgeId d s0 calls score ts Hs Hle.
  destruct (recordVotes_invariant submissionId judgeId calls d s0 Hs Hle)
    as (s1 & Hs1 & Hle1 & Hoth).
  rewrite recordVotes_app. simpl.
  rewrite (recordVote_lookup ts submissionId judgeId score _ s1 Hs1).
  eexists. split; [reflexivity|]. simpl. split.
  - rewrite votesBy_upsertVote by reflexivity.
    destruct (votesBy judgeId (Submission.votes s1)) as [|? [|? ?]];
      simpl in *; try reflexivity; lia.
  - intros j' Hj'. rewrite <- (Hoth j' Hj').
    apply votesBy_upsertVote_other. simpl. congruence.
Qed.

(** *** Uniqueness of judges is an invariant of the store *)

Lemma judgesUnique_iff (votes : list Vote.t) :
  judgesUnique votes = true
  <-> forall j, (List.length (votesBy j votes) <= 1)%nat.
Proof.
  induction votes as [|v r IH]; simpl.
  - split; auto.
  - rewrite andb_true_iff, negb_true_iff, IH. split.
    + intros [Hn Hr] j.
      destruct (Vote.judgeId v =? j)%string eqn:Hv; simpl; [|apply Hr].
      apply String.eqb_eq in Hv. subst j.
      unfold votesBy. rewrite filter_none; [simpl; lia|].
      intros w Hw. destruct (Vote.judgeId w =? Vote.judgeId v)%string eqn:E; auto.
      exfalso. assert (existsb (fun w => Vote.judgeId w =? Vote.judgeId v)%string r = true)
        as Hex by (apply existsb_exists; eauto).
      congruence.
    + intros H. split.
      * destruct (existsb _ r) eqn:Hex; [|reflexivity]. exfalso.
        apply existsb_exists in Hex as (w & Hw & Ew).
        specialize (H (Vote.judgeId v)). rewrite String.eqb_refl in H. simpl in H.
        assert (In w (votesBy (Vote.judgeId v) r)) as Hin by (apply filter_In; auto).
        destruct (votesBy (Vote.judgeId v) r); [destruct Hin|simpl in H; lia].
      * intros j. specialize (H j).
        destruct (Vote.judgeId v =? j)%string; simpl in H; [lia|exact H].
Qed.

Lemma judgesUnique_upsertVote (v : Vote.t) (votes : list Vote.t) :
  judgesUnique votes = true -> judgesUnique (Storage.upsertVote v votes) = true.
Proof.
  rewrite !judgesUnique_iff. intros H j.
  destruct (String.eqb_spec (Vote.judgeId v) j) as [Hj|Hj].
  - rewrite votesBy_upsertVote by exact Hj. specialize (H j).
    destruct (votesBy j votes) as [|? [|? ?]]; simpl in *; lia.
  - rewrite votesBy_upsertVote_other by exact Hj. apply H.
Qed.

Lemma judgesUnique_filter (q : Vote.t -> bool) (votes : list Vote.t) :
  judgesUnique votes = true -> judgesUnique (filter q votes) = true.
Proof.
  rewrite !judgesUnique_iff. intros H j. specialize (H j).
  unfold votesBy in *.
  assert (forall l, List.length (filter (fun v => Vote.judgeId v =? j)%string (filter q l))
                    <= List.length (filter (fun v => Vote.judgeId v =? j)%string l))%nat
    as Hle.
  { induction l as [|w l IHl]; simpl; [lia|].
    destruct (q w), (Vote.judgeId w =? j)%string eqn:E; simpl; rewrite ?E; simpl; lia. }
  specialize (Hle votes). lia.
Qed.

Lemma votesUnique_applyOp (op : StoreOp) (d : Disk) :
  votesUnique d = true -> votesUnique (applyOp op d) = true.
Proof.
  unfold votesUnique. intros H. destruct op; simpl.
  - unfold Storage.registerMission. destruct (find _ _); exact H.
  - unfold Storage.markMissionClosed. destruct (find _ _); exact H.
  - unfold Storage.markMissionExported. destruct (find _ _); exact H.
  - unfold Storage.loadSubmissions. rewrite forallb_app, H. reflexivity.
  - unfold Storage.recordVote. destruct (find _ _); [|exact H]. simpl.
    apply forallb_mutateFirst; [|exact H].
    intros x Hx. simpl. now apply judgesUnique_upsertVote.
  - unfold Storage.removeVote. destruct (find _ _); [|exact H]. simpl.
    apply forallb_mutateFirst; [|exact H].
    intros x Hx. simpl. now apply judgesUnique_filter.
  - unfold Storage.loadSubmissions. revert H.
    induction (submissionsFile d) as [|s r IH]; simpl; [auto|].
    intros H. apply andb_true_iff in H as [Hs Hr]. rewrite (IH Hr).
    destruct (Submission.missionId s =? missionId)%string; simpl;
      rewrite Hs; reflexivity.
Qed.

(** Every store built from nothing by the storage operations holds at most
    one vote per judge in every submission. *)
Lemma votesUnique_reachable (ops : list StoreOp) :
  votesUnique (applyOps ops emptyDisk) = true.
Proof.
  unfold applyOps.
  assert (forall d, votesUnique d = true ->
                    votesUnique (fold_left (fun d op => applyOp op d) ops d) = true) as H.
  { induction ops as [|op r IH]; intros d Hd; simpl; [exact Hd|].
    apply IH, votesUnique_applyOp, Hd. }
  apply H. reflexivity.
Qed.

Lemma votesUnique_at_most_one (d : Disk) (submissionId j : string) (s : Submission.t) :
  votesUnique d = true ->
  Storage.getSubmissionById submissionId d = Some s ->
  (List.length (votesBy j (Submission.votes s)) <= 1)%nat.
Proof.
  unfold votesUnique, Storage.getSubmissionById, Storage.loadSubmissions.
  intros H Hf. apply find_some in Hf as [Hin _].
  rewrite forallb_forall in H. apply judgesUnique_iff, H, Hin.
Qed.

(** C1. In every store built by the storage operations, for a submission
    the store holds and any judge [j]: after any non-empty sequence of
    [recordVote(s, j, score)] calls the submission's vote collection holds
    exactly one entry of [j], carrying the score and the timestamp of the
    last call; the entries of every other judge are the ones it held
    before. *)
Theorem recordVote_one_entry_last_wins :
  forall history submissionId judgeId s0 calls score ts,
    let d := applyOps history emptyDisk in
    Storage.getSubmissionById submissionId d = Some s0 ->
    exists s1,
      Storage.getSubmissionById submissionId
        (recordVotes submissionId judgeId (calls ++ [(score, ts)]) d) = Some s1
      /\ votesBy judgeId (Submission.votes s1) = [Vote.mk judgeId score ts]
      /\ forall j', j' <> judgeId ->
           votesBy j' (Submission.votes s1) = votesBy j' (Submission.votes s0).
Proof.
  intros history submissionId judgeId s0 calls score ts d Hs.
  apply recordVotes_last_wins; [exact Hs|].
  apply (votesUnique_at_most_one d submissionId); [|exact Hs].
  apply votesUnique_reachable.
Qed.

Lemma recordVote_scenario_witness :
  let history :=
    [OpCreateSubmission 1 "2026-01-02T00:00:00.000Z" "abcd" "msg-1" "chan-1"
       "thread-1" "mission-1" "user-1" "user#0001" "see https://example.org/a"
       ["https://example.org/a"] discord;
     OpRecordVote "2026-01-02T10:00:00.000Z" "sub-1-abcd" "judge-B" 2] in
  let d := applyOps history emptyDisk in
  let s0 := Submission.mk "sub-1-abcd" "msg-1" "chan-1" "thread-1" "mission-1"
              "user-1" "user#0001" "see https://example.org/a"
              ["https://example.org/a"]
              [Vote.mk "judge-B" 2 "2026-01-02T10:00:00.000Z"]
              "2026-01-02T00:00:00.000Z" false discord in
  Storage.getSubmissionById "sub-1-abcd" d = Some s0
  /\ exists s1,
       Storage.getSubmissionById "sub-1-abcd"
         (recordVotes "sub-1-abcd" "judge-A"
            ([(3, "2026-01-02T11:00:00.000Z")] ++ [(5, "2026-01-02T12:00:00.000Z")])
            d) = Some s1
       /\ votesBy "judge-A" (Submission.votes s1)
          = [Vote.mk "judge-A" 5 "2026-01-02T12:00:00.000Z"]
       /\ forall j', j' <> "judge-A" ->
            votesBy j' (Submission.votes s1) = votesBy j' (Submission.votes s0).
Proof.
  intros history d s0.
  assert (Storage.getSubmissionById "sub-1-abcd" d = Some s0) as H1 by reflexivity.
  split; [exact H1|].
  exact (recordVote_one_entry_last_wins history "sub-1-abcd" "judge-A" s0
           [(3, "2026-01-02T11:00:00.000Z")] 5 "2026-01-02T12:00:00.000Z" H1).
Defined.

(** C6. After [removeVote(s, j)] the submission the id denotes, if the store
    holds one, shows no entry of judge [j], whatever the store was before,
    in particular after any number of [recordVote(s, j, _)] calls; when
    submission ids are unique this holds for every record of the file
    carrying the id, so for every way of reading the submission. The other
    judges' entries stay; and when [j] had no entry (or the submission is
    unknown) [removeVote] leaves both files as they were. *)
Theorem removeVote_leaves_no_entry :
  forall submissionId judgeId d,
    (forall s', Storage.getSubmissionById submissionId
                  (Storage.removeVote submissionId judgeId d) = Some s' ->
                votesBy judgeId (Submission.votes s') = [])
    /\ (forall calls s',
          Storage.getSubmissionById submissionId
            (Storage.removeVote submissionId judgeId
               (recordVotes submissionId judgeId calls d)) = Some s' ->
          votesBy judgeId (Submission.votes s') = [])
    /\ (NoDup (map Submission.id (submissionsFile d)) ->
        forall s',
          In s' (submissionsFile (Storage.removeVote submissionId judgeId d)) ->
          Submission.id s' = submissionId ->
          votesBy judgeId (Submission.votes s') = [])
    /\ (forall s s' j',
          j' <> judgeId ->
          Storage.getSubmissionById submissionId d = Some s ->
          Storage.getSubmissionById submissionId
            (Storage.removeVote submissionId judgeId d) = Some s' ->
          votesBy j' (Submission.votes s') = votesBy j' (Submission.votes s))
    /\ ((forall s, Storage.getSubmissionById submissionId d = Some s ->
                   votesBy judgeId (Submission.votes s) = []) ->
        Storage.removeVote submissionId judgeId d = d).
Proof.
  intros submissionId judgeId d.
  assert (forall d0 s', Storage.getSubmissionById submissionId
                          (Storage.removeVote submissionId judgeId d0) = Some s' ->
                        votesBy judgeId (Submission.votes s') = []) as Hgone.
  { intros d0 s'. rewrite removeVote_lookup.
    destruct (Storage.getSubmissionById submissionId d0); simpl; [|discriminate].
    intros [= <-]. simpl. apply votesBy_removed. }
  split; [apply Hgone|]. split; [intros calls; apply Hgone|]. split; [|split].
  - intros Hnd s' Hin Hid. revert Hin.
    unfold Storage.removeVote, Storage.loadSubmissions.
    destruct (find _ (submissionsFile d)) eqn:Hf; simpl.
    + intros Hin.
      destruct (In_mutateFirst_unique Submission.id submissionId
                  (fun s => Submission.set_votes
                              (filter (fun v => negb (Vote.judgeId v =? judgeId)%string)
                                      (Submission.votes s)) s)
                  (submissionsFile d) s'
                  (fun y => eq_refl) Hnd Hin Hid) as (y & _ & ->).
      simpl. apply votesBy_removed.
    + intros Hin. exfalso.
      pose proof (find_none _ _ Hf s' Hin) as Hno. simpl in Hno.
      rewrite Hid, String.eqb_refl in Hno. discriminate.
  - intros s s' j' Hj Hs. rewrite removeVote_lookup, Hs. simpl.
    intros [= <-]. simpl. now apply votesBy_removed_other.
  - intros Habs. unfold Storage.removeVote, Storage.loadSubmissions.
    destruct (find _ (submissionsFile d)) eqn:Hf; [|reflexivity].
    rewrite mutateFirst_id; [now destruct d|].
    intros x Hx. rewrite remove_absent; [apply set_votes_same|].
    apply Habs. exact Hx.
Qed.

Lemma removeVote_witness :
  let s := sampleSubmission "sub-1-abcd" "msg-1" "mission-1"
             [Vote.mk "judge-B" 2 "2026-01-02T10:00:00.000Z"] in
  let d := mkDisk [] [s] in
  let calls := [(3, "2026-01-02T11:00:00.000Z"); (5, "2026-01-02T12:00:00.000Z")] in
  let after := Storage.removeVote "sub-1-abcd" "judge-A"
                 (recordVotes "sub-1-abcd" "judge-A" calls d) in
  Storage.getSubmissionById "sub-1-abcd" after = Some s
  /\ votesBy "judge-A" (Submission.votes s) = []
  /\ Storage.removeVote "sub-1-abcd" "judge-A" d = d.
Proof.
  intros s d calls after.
  destruct (removeVote_leaves_no_entry "sub-1-abcd" "judge-A" d)
    as (_ & Hcalls & _ & _ & Hnoop).
  assert (Storage.getSubmissionById "sub-1-abcd" after = Some s) as Hs by reflexivity.
  split; [exact Hs|]. split; [exact (Hcalls calls s Hs)|].
  apply Hnoop. intros s1 H1. vm_compute in H1. injection H1 as <-. reflexivity.
Defined.

(** ** Unknown ids *)

Lemma find_absent {A : Type} (key : A -> string) (k : string) (l : list A) :
  (forall x, In x l -> key x <> k) -> find (fun x => key x =? k)%string l = None.
Proof.
  intros H. apply find_none_iff. intros x Hx. apply String.eqb_neq, H, Hx.
Qed.

(** C9. For an id no record of the store carries: the lookups
    [getMissionById], [getMissionByThread] and [getSubmissionByMessage]
    return the empty result [null] (they are total: nothing is thrown), and
    [markMissionClosed], [markMissionExported], [recordVote] and [removeVote]
    return without saving, leaving both files as they were. *)
Theorem unknown_id_is_empty_result_or_no_op :
  forall d,
    (forall missionId,
        (forall m, In m (missionsFile d) -> Mission.id m <> missionId) ->
        Storage.getMissionById missionId d = None
        /\ Storage.markMissionClosed missionId d = d
        /\ forall nowIso, Storage.markMissionExported nowIso missionId d = d)
    /\ (forall threadId,
          (forall m, In m (missionsFile d) -> Mission.threadId m <> threadId) ->
          Storage.getMissionByThread threadId d = None)
    /\ (forall messageId,
          (forall s, In s (submissionsFile d) -> Submission.messageId s <> messageId) ->
          Storage.getSubmissionByMessage messageId d = None)
    /\ (forall submissionId,
          (forall s, In s (submissionsFile d) -> Submission.id s <> submissionId) ->
          forall nowIso judgeId score,
            Storage.recordVote nowIso submissionId judgeId score d = d
            /\ Storage.removeVote submissionId judgeId d = d).
Proof.
  intros d. repeat split.
  - now apply (find_absent Mission.id).
  - unfold Storage.markMissionClosed, Storage.loadMissions.
    now rewrite (find_absent Mission.id).
  - intros nowIso. unfold Storage.markMissionExported, Storage.loadMissions.
    now rewrite (find_absent Mission.id).
  - intros threadId H. now apply (find_absent Mission.threadId).
  - intros messageId H. now apply (find_absent Submission.messageId).
  - unfold Storage.recordVote, Storage.loadSubmissions.
    now rewrite (find_absent Submission.id).
  - unfold Storage.removeVote, Storage.loadSubmissions.
    now rewrite (find_absent Submission.id).
Qed.

Lemma unknown_id_witness :
  let d := mkDisk [sampleMission "mission-1" "thread-1" 1000 active]
                  [sampleSubmission "sub-1-abcd" "msg-1" "mission-1" []] in
  (Storage.getMissionById "mission-404" d = None
   /\ Storage.markMissionClosed "mission-404" d = d
   /\ forall nowIso, Storage.markMissionExported nowIso "mission-404" d = d)
  /\ Storage.getMissionByThread "thread-404" d = None
  /\ Storage.getSubmissionByMessage "msg-404" d = None
  /\ forall nowIso judgeId score,
       Storage.recordVote nowIso "sub-404" judgeId score d = d
       /\ Storage.removeVote "sub-404" judgeId d = d.
Proof.
  intros d.
  destruct (unknown_id_is_empty_result_or_no_op d) as (Hm & Ht & Hg & Hs).
  split; [|split; [|split]].
  - apply Hm. intros m [<-|[]]. discriminate.
  - apply Ht. intros m [<-|[]]. discriminate.
  - apply Hg. intros s [<-|[]]. discriminate.
  - apply Hs. intros s [<-|[]]. discriminate.
Defined.

(** ** Numbers: binary64 division and [toFixed(2)] *)

Lemma digits2_pos_bounds (p : positive) :
  2 ^ (Zpos (digits2_pos p) - 1) <= Zpos p < 2 ^ Zpos (digits2_pos p).
Proof.
  induction p as [p IH|p IH|]; cbn [digits2_pos].
  - rewrite Pos2Z.inj_succ.
    replace (Z.succ (Zpos (digits2_pos p)) - 1) with (Z.succ (Zpos (digits2_pos p) - 1)) by lia.
    rewrite !Z.pow_succ_r by lia. lia.
  - rewrite Pos2Z.inj_succ.
    replace (Z.succ (Zpos (digits2_pos p)) - 1) with (Z.succ (Zpos (digits2_pos p) - 1)) by lia.
    rewrite !Z.pow_succ_r by lia. lia.
  - simpl. lia.
Qed.

Lemma digits2_pos_unique (p : positive) (k : Z) :
  2 ^ (k - 1) <= Zpos p < 2 ^ k -> Zpos (digits2_pos p) = k.
Proof.
  intros [Hlo Hhi]. pose proof (digits2_pos_bounds p) as [Dlo Dhi].
  assert (0 < k) as Hk.
  { destruct (Z_lt_le_dec 0 k); [assumption|].
    destruct (Z.eq_dec k 0) as [->|]; [simpl in Hhi; lia|].
    rewrite Z.pow_neg_r in Hhi by lia. lia. }
  destruct (Z_lt_le_dec (Zpos (digits2_pos p)) k) as [H|H].
  - assert (2 ^ Zpos (digits2_pos p) <= 2 ^ (k - 1)) by (apply Z.pow_le_mono_r; lia). lia.
  - destruct (Z_lt_le_dec k (Zpos (digits2_pos p))) as [H'|H']; [|lia].
    assert (2 ^ k <= 2 ^ (Zpos (digits2_pos p) - 1)) by (apply Z.pow_le_mono_r; lia). lia.
Qed.

Lemma new_location_locOf (den num : Z) :
  0 <= num < den -> new_location den num = locOf num den.
Proof.
  intros H. unfold new_location, new_location_even, new_location_odd, locOf.
  destruct (Z.even den) eqn:He; [reflexivity|].
  destruct (num =? 0); [reflexivity|]. f_equal.
  assert (Z.odd den = true) as Ho by (rewrite <- Z.negb_even, He; reflexivity).
  apply Z.odd_spec in Ho as [j Hj].
  destruct (Z.compare_spec (2 * num + 1) den), (Z.compare_spec (2 * num) den);
    try reflexivity; lia.
Qed.

Lemma round_nearest_even_locOf (m num den : Z) :
  0 <= num < den ->
  let M := round_nearest_even m (locOf num den) in
  (M = m \/ M = m + 1)
  /\ 2 * Z.abs (M * den - (m * den + num)) <= den
  /\ (num = 0 -> M = m).
Proof.
  intros H M. subst M. unfold locOf, round_nearest_even.
  destruct (Z.eqb_spec num 0) as [->|Hn].
  - repeat split; auto; lia.
  - destruct (Z.compare_spec (2 * num) den).
    + destruct (Z.even m); repeat split; auto; lia.
    + repeat split; auto; lia.
    + repeat split; auto; lia.
Qed.

Lemma shr_fexp_53 (m e : Z) (l : location) :
  2 ^ 52 <= m < 2 ^ 53 -> -1074 <= e ->
  shr_fexp prec emax m e l = (shr_record_of_loc m l, e).
Proof.
  intros Hm He. unfold shr_fexp.
  destruct m as [|p|p]; try lia.
  cbn [Zdigits2]. rewrite (digits2_pos_unique p 53) by exact Hm.
  unfold fexp, SpecFloat.emin, prec, emax.
  replace (Z.max (53 + e - 53) (3 - 1024 - 53) - e) with 0 by lia.
  reflexivity.
Qed.

Lemma shr_fexp_54 (m e : Z) (l : location) :
  2 ^ 53 <= m < 2 ^ 54 -> -1075 <= e ->
  shr_fexp prec emax m e l = (shr_1 (shr_record_of_loc m l), e + 1).
Proof.
  intros Hm He. unfold shr_fexp.
  destruct m as [|p|p]; try lia.
  cbn [Zdigits2]. rewrite (digits2_pos_unique p 54) by exact Hm.
  unfold fexp, SpecFloat.emin, prec, emax.
  replace (Z.max (54 + e - 53) (3 - 1024 - 53) - e) with 1 by lia.
  reflexivity.
Qed.

(** Dropping the last bit of a mantissa moves the remainder with it. *)
Lemma shr_1_locOf (q num den : Z) :
  0 < q -> 0 <= num < den ->
  let mrs := shr_1 (shr_record_of_loc q (locOf num den)) in
  shr_m mrs = q / 2
  /\ loc_of_shr_record mrs = locOf ((q mod 2) * den + num) (2 * den).
Proof.
  intros Hq Hn.
  assert (forall b s, shr_m (shr_1 (Build_shr_record q b s)) = q / 2
                      /\ shr_r (shr_1 (Build_shr_record q b s)) = Z.odd q
                      /\ shr_s (shr_1 (Build_shr_record q b s)) = (b || s)%bool) as H1.
  { intros b s. destruct q as [|[p|p|]|p]; try lia; cbn [shr_1 shr_m shr_r shr_s].
    - repeat split. rewrite Pos2Z.inj_xI.
      apply (Z.div_unique _ 2 _ 1); lia.
    - repeat split. rewrite Pos2Z.inj_xO.
      apply (Z.div_unique _ 2 _ 0); lia.
    - repeat split. }
  intros mrs. subst mrs.
  assert (q mod 2 = if Z.odd q then 1 else 0) as Hmod.
  { rewrite Zmod_odd. reflexivity. }
  destruct (Z.eq_dec num 0) as [->|Hnum].
  - change (locOf 0 den) with loc_Exact.
    cbn [shr_record_of_loc]. destruct (H1 false false) as (Hm & Hr & Hs).
    split; [exact Hm|].
    destruct (shr_1 _) as [m' r' s']. cbn [shr_m shr_r shr_s] in *. subst r' s'.
    unfold locOf. rewrite Hmod. destruct (Z.odd q); cbn [loc_of_shr_record orb].
    + replace (1 * den + 0 =? 0) with false by (symmetry; apply Z.eqb_neq; lia).
      f_equal. symmetry. apply Z.compare_eq_iff. lia.
    + reflexivity.
  - assert (locOf num den = loc_Inexact (2 * num ?= den)) as ->.
    { unfold locOf. destruct (Z.eqb_spec num 0); congruence. }
    assert (exists b s, shr_record_of_loc q (loc_Inexact (2 * num ?= den))
                        = Build_shr_record q b s /\ (b || s)%bool = true) as (b & s & -> & Hbs).
    { destruct (2 * num ?= den); cbn; eauto. }
    destruct (H1 b s) as (Hm & Hr & Hs). split; [exact Hm|].
    destruct (shr_1 _) as [m' r' s']. cbn [shr_m shr_r shr_s] in *. subst r' s'.
    rewrite Hbs. unfold locOf. rewrite Hmod.
    destruct (Z.odd q); cbn [loc_of_shr_record].
    + replace (1 * den + num =? 0) with false by (symmetry; apply Z.eqb_neq; lia).
      f_equal. symmetry. apply Z.compare_gt_iff. lia.
    + replace (0 * den + num =? 0) with false by (symmetry; apply Z.eqb_neq; lia).
      f_equal. symmetry. apply Z.compare_lt_iff. lia.
Qed.

Lemma loc_of_shr_record_of_loc (m : Z) (l : location) :
  loc_of_shr_record (shr_record_of_loc m l) = l
  /\ shr_m (shr_record_of_loc m l) = m.
Proof. destruct l as [|[| |]]; split; reflexivity. Qed.

Lemma binary_round_aux_finish (q e : Z) (l : location) :
  binary_round_aux prec emax false q e l
  = finishRound (round_nearest_even (shr_m (fst (shr_fexp prec emax q e l)))
                                    (loc_of_shr_record (fst (shr_fexp prec emax q e l))))
                (snd (shr_fexp prec emax q e l)).
Proof.
  unfold binary_round_aux, finishRound.
  destruct (shr_fexp prec emax q e l) as [mrs' e']. reflexivity.
Qed.

Lemma finishRound_spec (M0 e0 : Z) :
  2 ^ 52 <= M0 <= 2 ^ 53 -> -1074 <= e0 <= 900 ->
  exists (M : positive) (k : Z),
    finishRound M0 e0 = S754_finite false M (e0 + k)
    /\ 2 ^ 52 <= Zpos M < 2 ^ 53
    /\ ((k = 0 /\ Zpos M = M0) \/ (k = 1 /\ 2 * Zpos M = M0)).
Proof.
  intros HM He. unfold finishRound.
  destruct (Z_lt_le_dec M0 (2 ^ 53)) as [Hlt|Hge].
  - rewrite shr_fexp_53 by lia. cbn [shr_record_of_loc shr_m].
    destruct M0 as [|p|p]; try lia.
    replace (e0 <=? emax - prec) with true
      by (symmetry; apply Z.leb_le; unfold emax, prec; lia).
    exists p, 0. rewrite Z.add_0_r. repeat split; lia.
  - assert (M0 = 2 ^ 53) as -> by lia.
    rewrite shr_fexp_54 by lia.
    change (shr_m (shr_1 (shr_record_of_loc (2 ^ 53) loc_Exact))) with (Zpos (2 ^ 52)).
    replace (e0 + 1 <=? emax - prec) with true
      by (symmetry; apply Z.leb_le; unfold emax, prec; lia).
    exists (2 ^ 52)%positive, 1. repeat split; lia.
Qed.

(** Rounding a quotient [q + num / den] of 53 or 54 bits to binary64. *)
Lemma binary_round_aux_normal (q e num den : Z) :
  2 ^ 52 <= q < 2 ^ 54 -> -1074 <= e <= 800 -> 0 <= num < den ->
  exists (M : positive) (k : Z),
    binary_round_aux prec emax false q e (locOf num den) = S754_finite false M (e + k)
    /\ 0 <= k <= 2
    /\ 2 ^ 52 <= Zpos M < 2 ^ 53
    /\ 2 * Z.abs (2 ^ k * Zpos M * den - (q * den + num)) <= 2 ^ k * den
    /\ (num = 0 -> q < 2 ^ 53 -> k = 0 /\ Zpos M = q).
Proof.
  intros Hq He Hn. rewrite binary_round_aux_finish.
  destruct (Z_lt_le_dec q (2 ^ 53)) as [Hlt|Hge].
  - rewrite shr_fexp_53 by lia. cbn [fst snd].
    destruct (loc_of_shr_record_of_loc q (locOf num den)) as [-> ->].
    destruct (round_nearest_even_locOf q num den Hn) as (HM0 & Hb & Hex).
    set (M0 := round_nearest_even q (locOf num den)) in *.
    destruct (finishRound_spec M0 e) as (M & k & -> & HM & Hk); [lia|lia|].
    exists M, k.
    destruct Hk as [[-> HMq]|[-> HMq]].
    + rewrite HMq. change (2 ^ 0) with 1. repeat split; lia.
    + change (2 ^ 1) with 2. rewrite HMq. repeat split; lia.
  - rewrite shr_fexp_54 by lia. cbn [fst snd].
    destruct (shr_1_locOf q num den) as [-> ->]; [lia|lia|].
    assert (0 <= q mod 2 < 2) as Hb2 by (apply Z.mod_pos_bound; lia).
    assert (q = 2 * (q / 2) + q mod 2) as Hdiv by (apply Z.div_mod; lia).
    assert (0 <= q mod 2 * den + num < 2 * den) as Hn' by nia.
    destruct (round_nearest_even_locOf (q / 2) _ _ Hn') as (HM0 & Hb & _).
    set (M0 := round_nearest_even (q / 2) (locOf (q mod 2 * den + num) (2 * den))) in *.
    assert (2 ^ 52 <= q / 2 < 2 ^ 53) as Hq2 by lia.
    destruct (finishRound_spec M0 (e + 1)) as (M & k & -> & HM & Hk); [lia|lia|].
    exists M, (1 + k). rewrite Z.add_assoc.
    assert (M0 * (2 * den) - (q / 2 * (2 * den) + (q mod 2 * den + num))
            = 2 * M0 * den - (q * den + num)) as Hring by nia.
    rewrite Hring in Hb.
    destruct Hk as [[-> HMq]|[-> HMq]].
    + change (2 ^ (1 + 0)) with 2. rewrite HMq. repeat split; lia.
    + change (2 ^ (1 + 1)) with 4.
      replace (4 * Zpos M * den) with (2 * M0 * den) by (rewrite <- HMq; ring).
      repeat split; lia.
Qed.

(** An integer below 2^53 is a binary64 number: its mantissa is the integer
    shifted up to 53 bits. *)
Lemma number_of_Z_normal (z : Z) :
  0 < z < 2 ^ 53 ->
  exists (m : positive) (s : Z),
    number_of_Z z = S754_finite false m (- s)
    /\ 0 <= s <= 52
    /\ Zpos m = z * 2 ^ s
    /\ 2 ^ 52 <= Zpos m < 2 ^ 53.
Proof.
  intros Hz. destruct z as [|p|p]; try lia.
  pose proof (digits2_pos_bounds p) as [Dlo Dhi].
  set (d := Zpos (digits2_pos p)) in *.
  assert (1 <= d <= 53) as Hd.
  { split; [subst d; lia|].
    destruct (Z_lt_le_dec 53 d) as [H|H]; [|exact H].
    assert (2 ^ 53 <= 2 ^ (d - 1)) by (apply Z.pow_le_mono_r; lia). lia. }
  assert (Zpos p * 2 ^ (53 - d) < 2 ^ 53) as Hhi.
  { replace (2 ^ 53) with (2 ^ d * 2 ^ (53 - d))
      by (rewrite <- Z.pow_add_r by lia; f_equal; lia).
    apply Z.mul_lt_mono_pos_r; [apply Z.pow_pos_nonneg; lia|exact Dhi]. }
  assert (2 ^ 52 <= Zpos p * 2 ^ (53 - d)) as Hlo.
  { replace (2 ^ 52) with (2 ^ (d - 1) * 2 ^ (53 - d))
      by (rewrite <- Z.pow_add_r by lia; f_equal; lia).
    apply Z.mul_le_mono_nonneg_r; [apply Z.pow_nonneg; lia|exact Dlo]. }
  unfold number_of_Z, binary_normalize, binary_round.
  fold d. unfold fexp, SpecFloat.emin, prec, emax.
  replace (Z.max (d + 0 - 53) (3 - 1024 - 53)) with (d - 53) by lia.
  assert (exists mz : positive,
             shl_align p 0 (d - 53) = (mz, d - 53)
             /\ Zpos mz = Zpos p * 2 ^ (53 - d)) as (mz & -> & Hmz).
  { unfold shl_align. destruct (d - 53 - 0) as [|k|k] eqn:Hk; try lia.
    - exists p. replace (d - 53) with 0 by lia. replace (53 - d) with 0 by lia.
      split; [reflexivity|]. simpl. lia.
    - exists (Pos.iter xO p k). split; [reflexivity|].
      change (Pos.iter xO p k) with (Zpower.shift_pos k p).
      rewrite Zpower.shift_pos_correct.
      replace (53 - d) with (Zpos k) by lia. change (Z.pow_pos 2 k) with (2 ^ Zpos k).
      ring. }
  destruct (binary_round_aux_normal (Zpos mz) (d - 53) 0 1)
    as (M & k & HM & _ & HMb & _ & Hex); [lia|lia|lia|].
  change (locOf 0 1) with loc_Exact in HM.
  change (binary_round_aux 53 1024 false (Zpos mz) (d - 53) loc_Exact)
    with (binary_round_aux prec emax false (Zpos mz) (d - 53) loc_Exact).
  rewrite HM. destruct Hex as [-> HMq]; [reflexivity|lia|].
  exists M, (53 - d). replace (d - 53 + 0) with (- (53 - d)) by lia.
  repeat split; try lia.
Qed.

(** The quotient of two 53-bit mantissas, correctly rounded. *)
Lemma SFdiv_normal (m1 m2 : positive) (e1 e2 : Z) :
  2 ^ 52 <= Zpos m1 < 2 ^ 53 -> 2 ^ 52 <= Zpos m2 < 2 ^ 53 ->
  -52 <= e1 - e2 <= 52 ->
  exists (M : positive) (k : Z),
    SFdiv prec emax (S754_finite false m1 e1) (S754_finite false m2 e2)
    = S754_finite false M (e1 - e2 - 53 + k)
    /\ 0 <= k <= 2
    /\ 2 ^ 52 <= Zpos M < 2 ^ 53
    /\ 2 * Z.abs (2 ^ k * Zpos M * Zpos m2 - Zpos m1 * 2 ^ 53) <= 2 ^ k * Zpos m2.
Proof.
  intros H1 H2 He. unfold SFdiv, SFdiv_core_binary. cbn [xorb Zdigits2].
  rewrite (digits2_pos_unique m1 53), (digits2_pos_unique m2 53) by assumption.
  unfold fexp, SpecFloat.emin, prec, emax.
  replace (Z.min (Z.max (53 + e1 - (53 + e2) - 53) (3 - 1024 - 53)) (e1 - e2))
    with (e1 - e2 - 53) by lia.
  replace (e1 - e2 - (e1 - e2 - 53)) with 53 by lia.
  cbv iota beta.
  rewrite Z.shiftl_mul_pow2 by lia.
  pose proof (Z_div_mod (Zpos m1 * 2 ^ 53) (Zpos m2) eq_refl) as Hdm.
  destruct (Z.div_eucl (Zpos m1 * 2 ^ 53) (Zpos m2)) as [q r].
  destruct Hdm as [Heq Hr].
  assert (2 ^ 52 <= q < 2 ^ 54) as Hq by nia.
  rewrite new_location_locOf by exact Hr.
  destruct (binary_round_aux_normal q (e1 - e2 - 53) r (Zpos m2))
    as (M & k & HM & Hk & HMb & Hb & _); [lia|lia|lia|].
  exists M, k.
  change (binary_round_aux 53 1024 false q (e1 - e2 - 53) (locOf r (Zpos m2)))
    with (binary_round_aux prec emax false q (e1 - e2 - 53) (locOf r (Zpos m2))).
  rewrite HM. repeat split; lia.
Qed.

(** The quotient of two integers, as binary64 computes it. *)
Lemma SFdiv_integers (S n : Z) :
  0 < S < 2 ^ 44 -> 0 < n < 2 ^ 53 ->
  exists (M p : positive),
    SFdiv prec emax (number_of_Z S) (number_of_Z n) = S754_finite false M (Zneg p)
    /\ 2 * Z.abs (Zpos M * n - S * 2 ^ Zpos p) <= n
    /\ 100 * n < 2 ^ Zpos p.
Proof.
  intros HS Hn.
  destruct (number_of_Z_normal S) as (m1 & s1 & -> & Hs1 & Hm1 & Hb1); [lia|].
  destruct (number_of_Z_normal n) as (m2 & s2 & -> & Hs2 & Hm2 & Hb2); [lia|].
  assert (9 <= s1) as Hs1'.
  { destruct (Z_lt_le_dec s1 9) as [H|H]; [|exact H].
    assert (2 ^ s1 <= 2 ^ 8) by (apply Z.pow_le_mono_r; lia).
    assert (0 < 2 ^ s1) by (apply Z.pow_pos_nonneg; lia).
    change (2 ^ 44) with 17592186044416 in HS.
    change (2 ^ 52) with 4503599627370496 in Hb1.
    change (2 ^ 8) with 256 in *. nia. }
  destruct (SFdiv_normal m1 m2 (- s1) (- s2) Hb1 Hb2) as (M & k & -> & Hk & HMb & Hb);
    [lia|].
  set (p := 53 - k + s1 - s2).
  assert (8 <= p) as Hp by (subst p; lia).
  exists M, (Z.to_pos p).
  replace (- s1 - - s2 - 53 + k) with (Zneg (Z.to_pos p))
    by (rewrite <- Pos2Z.opp_pos, Z2Pos.id by lia; subst p; lia).
  rewrite Z2Pos.id by lia.
  split; [reflexivity|].
  set (c := 2 ^ k * 2 ^ s2).
  assert (0 < c) as Hc by (subst c; apply Z.mul_pos_pos; apply Z.pow_pos_nonneg; lia).
  assert (2 ^ 53 * 2 ^ s1 = 2 ^ p * c) as Hpow.
  { subst c p. rewrite <- !Z.pow_add_r by lia. f_equal. lia. }
  split.
  - assert (2 ^ k * Zpos M * Zpos m2 - Zpos m1 * 2 ^ 53
            = c * (Zpos M * n - S * 2 ^ p)) as Hfac.
    { rewrite Hm1, Hm2. subst c.
      replace (S * 2 ^ s1 * 2 ^ 53) with (S * (2 ^ 53 * 2 ^ s1)) by ring.
      rewrite Hpow. ring. }
    rewrite Hfac, Z.abs_mul, (Z.abs_eq c) in Hb by lia.
    replace (2 ^ k * Zpos m2) with (c * n) in Hb by (rewrite Hm2; subst c; ring).
    apply (Z.mul_le_mono_pos_l _ _ c); [exact Hc|]. lia.
  - assert (n * 2 ^ s2 < 2 ^ 53) as Hn2 by lia.
    assert (2 ^ p = 2 ^ (53 - s2) * 2 ^ (s1 - k)) as ->
      by (subst p; rewrite <- Z.pow_add_r by lia; f_equal; lia).
    assert (2 ^ 7 <= 2 ^ (s1 - k)) as H7 by (apply Z.pow_le_mono_r; lia).
    assert (n < 2 ^ (53 - s2)) as Hn3.
    { apply (Z.mul_lt_mono_pos_r (2 ^ s2)); [apply Z.pow_pos_nonneg; lia|].
      rewrite <- Z.pow_add_r by lia. replace (53 - s2 + s2) with 53 by lia. exact Hn2. }
    change (2 ^ 7) with 128 in H7. nia.
Qed.

Lemma toFixed2_nearest (S n : Z) (M p : positive) :
  0 < S -> 0 < n ->
  2 * Z.abs (Zpos M * n - S * 2 ^ Zpos p) <= n ->
  100 * n < 2 ^ Zpos p ->
  exists N, toFixed2 (S754_finite false M (Zneg p)) = fixed2 N
            /\ 0 <= N
            /\ nearestHundredth N S n.
Proof.
  intros HS Hn Hb HP. cbn [toFixed2].
  set (P := 2 ^ Zpos p) in *.
  assert (0 < P) as HPpos by lia.
  exists ((200 * Zpos M + P) / (2 * P)). split; [reflexivity|].
  pose proof (Z.div_mod (200 * Zpos M + P) (2 * P)) as Hdm.
  pose proof (Z.mod_pos_bound (200 * Zpos M + P) (2 * P)) as Hmb.
  set (N := (200 * Zpos M + P) / (2 * P)) in *.
  set (R := (200 * Zpos M + P) mod (2 * P)) in *.
  specialize (Hdm ltac:(lia)). specialize (Hmb ltac:(lia)).
  assert (0 <= N) as HN.
  { subst N. apply Z.div_pos; lia. }
  split; [exact HN|]. unfold nearestHundredth.
  assert (Zpos M * n - S * P <= n /\ S * P - Zpos M * n <= n) as [Hb1 Hb2] by lia.
  assert (2 * (Zpos M * n - S * P) <= n /\ 2 * (S * P - Zpos M * n) <= n) as [Hc1 Hc2] by lia.
  split.
  - (* (2N - 1) n <= 200 S *)
    destruct (Z_le_gt_dec ((2 * N - 1) * n) (200 * S)) as [H|H]; [exact H|]. exfalso.
    assert ((2 * N - 1) * P <= 200 * Zpos M) as H1 by lia.
    assert ((2 * N - 1) * P * n <= 200 * Zpos M * n) as H2
      by (apply Z.mul_le_mono_nonneg_r; lia).
    assert ((200 * S + 1) * P <= (2 * N - 1) * n * P) as H3
      by (apply Z.mul_le_mono_nonneg_r; lia).
    nia.
  - destruct (Z_le_gt_dec (200 * S) ((2 * N + 1) * n)) as [H|H]; [exact H|]. exfalso.
    assert (200 * Zpos M + 1 <= (2 * N + 1) * P) as H1 by lia.
    assert ((200 * Zpos M + 1) * n <= (2 * N + 1) * P * n) as H2
      by (apply Z.mul_le_mono_nonneg_r; lia).
    assert (((2 * N + 1) * n + 1) * P <= 200 * S * P) as H3
      by (apply Z.mul_le_mono_nonneg_r; lia).
    nia.
Qed.

Lemma fold_left_add_bounds (l : list Z) (a lo hi : Z) :
  (forall x, In x l -> lo <= x <= hi) ->
  a + lo * Z.of_nat (List.length l) <= fold_left Z.add l a
  <= a + hi * Z.of_nat (List.length l).
Proof.
  revert a. induction l as [|x r IH]; intros a H; simpl List.length; simpl fold_left.
  - lia.
  - specialize (IH (a + x) (fun y Hy => H y (or_intror Hy))).
    pose proof (H x (or_introl eq_refl)). rewrite Nat2Z.inj_succ. lia.
Qed.

(** The average score cell: the marker when there is no vote; otherwise,
    for scores in the domain 1 to 5, the two-decimal rendering of a hundredth
    nearest to the arithmetic mean. The bound on the number of votes is the
    one every JavaScript array satisfies. *)
Lemma avgScore_mean (votes : list Vote.t) :
  avgScore [] = "N/A"
  /\ (votes <> [] ->
      (forall v, In v votes -> 1 <= Vote.score v <= 5) ->
      Z.of_nat (List.length votes) < 2 ^ 32 ->
      exists N, avgScore votes = fixed2 N
                /\ 0 <= N
                /\ nearestHundredth N (sumScores votes) (Z.of_nat (List.length votes))).
Proof.
  split; [reflexivity|]. intros Hne Hdom Hlen.
  unfold avgScore. rewrite length_map.
  destruct votes as [|v0 r]; [congruence|].
  change (0 <? List.length (v0 :: r))%nat with true. cbv iota.
  fold (sumScores (v0 :: r)).
  set (n := Z.of_nat (List.length (v0 :: r))) in *.
  assert (0 < n) as Hn by (subst n; simpl List.length; lia).
  assert (0 + 1 * n <= sumScores (v0 :: r) <= 0 + 5 * n) as HS.
  { unfold sumScores. subst n. rewrite <- (length_map Vote.score).
    apply fold_left_add_bounds. intros x Hx.
    apply in_map_iff in Hx as (v & <- & Hv). now apply Hdom. }
  change (2 ^ 32) with 4294967296 in Hlen.
  destruct (SFdiv_integers (sumScores (v0 :: r)) n) as (M & p & -> & Hb & HP).
  - change (2 ^ 44) with 17592186044416. lia.
  - change (2 ^ 53) with 9007199254740992. lia.
  - apply toFixed2_nearest; lia.
Qed.

(** ** Judges and rows *)

Lemma setAdd_In (l : list string) (x y : string) :
  In y (setAdd l x) <-> In y l \/ y = x.
Proof.
  unfold setAdd. destruct (existsb (String.eqb x) l) eqn:Hex.
  - apply existsb_exists in Hex as (z & Hz & Hxz). apply String.eqb_eq in Hxz. subst z.
    split; [auto|]. intros [H| ->]; assumption.
  - rewrite in_app_iff. simpl. intuition.
Qed.

Lemma setAdd_NoDup (l : list string) (x : string) :
  NoDup l -> NoDup (setAdd l x).
Proof.
  intros H. unfold setAdd. destruct (existsb (String.eqb x) l) eqn:Hex; [exact H|].
  apply NoDup_app; [exact H|repeat constructor; simpl; tauto|].
  intros a Ha [Hxa|[]]. subst a.
  assert (existsb (String.eqb x) l = true) as Hc
    by (apply existsb_exists; exists x; split; [exact Ha|apply String.eqb_refl]).
  congruence.
Qed.

Lemma addVotes_spec (votes : list Vote.t) (ids : list string) :
  let ids' := fold_left (fun ids v => setAdd ids (Vote.judgeId v)) votes ids in
  (forall j, In j ids' <-> In j ids \/ exists v, In v votes /\ Vote.judgeId v = j)
  /\ (NoDup ids -> NoDup ids').
Proof.
  revert ids. induction votes as [|v r IH]; intros ids; simpl.
  - split; [|auto]. intros j. split; [auto|]. intros [H|(v & [] & _)]. exact H.
  - destruct (IH (setAdd ids (Vote.judgeId v))) as [Hin Hnd]. split.
    + intros j. rewrite Hin, setAdd_In. split.
      * intros [[H| ->]|(w & Hw & Hj)]; eauto.
      * intros [H|(w & [<-|Hw] & Hj)]; eauto.
    + intros H. apply Hnd, setAdd_NoDup, H.
Qed.

Lemma addSubmissions_spec (submissions : list Submission.t) (ids : list string) :
  let ids' := fold_left (fun judgeIds s =>
                           fold_left (fun ids v => setAdd ids (Vote.judgeId v))
                                     (Submission.votes s) judgeIds)
                        submissions ids in
  (forall j, In j ids'
             <-> In j ids \/ exists s v, In s submissions /\ In v (Submission.votes s)
                                         /\ Vote.judgeId v = j)
  /\ (NoDup ids -> NoDup ids').
Proof.
  revert ids. induction submissions as [|s r IH]; intros ids; simpl.
  - split; [|auto]. intros j. split; [auto|]. intros [H|(s & v & [] & _)]. exact H.
  - destruct (addVotes_spec (Submission.votes s) ids) as [Hin1 Hnd1].
    destruct (IH (fold_left (fun ids v => setAdd ids (Vote.judgeId v))
                            (Submission.votes s) ids)) as [Hin Hnd].
    split.
    + intros j. rewrite Hin, Hin1. split.
      * intros [[H|(v & Hv & Hj)]|(s' & v & Hs' & Hv & Hj)]; eauto 7.
      * intros [H|(s' & v & [<-|Hs'] & Hv & Hj)]; eauto 7.
    + intros H. apply Hnd, Hnd1, H.
Qed.

Lemma insertSorted_perm (x : string) (l : list string) :
  Permutation (insertSorted x l) (x :: l).
Proof.
  induction l as [|y r IH]; simpl; [reflexivity|].
  destruct (String.leb x y); [reflexivity|].
  rewrite IH. apply perm_swap.
Qed.

Lemma sortStrings_perm (l : list string) : Permutation (sortStrings l) l.
Proof.
  induction l as [|x r IH]; simpl; [reflexivity|].
  rewrite insertSorted_perm. now constructor.
Qed.

(** One judge column per distinct judge id seen in the mission. *)
Lemma judgeIdArray_spec (submissions : list Submission.t) :
  NoDup (judgeIdArray submissions)
  /\ forall j, In j (judgeIdArray submissions)
               <-> exists s v, In s submissions /\ In v (Submission.votes s)
                               /\ Vote.judgeId v = j.
Proof.
  unfold judgeIdArray.
  destruct (addSubmissions_spec submissions []) as [Hin Hnd]. split.
  - eapply Permutation_NoDup; [symmetry; apply sortStrings_perm|].
    apply Hnd. constructor.
  - intros j. split.
    + intros H. apply (Permutation_in _ (sortStrings_perm _)) in H.
      apply Hin in H as [[]|H]. exact H.
    + intros H. apply (Permutation_in _ (Permutation_sym (sortStrings_perm _))).
      apply Hin. auto.
Qed.

(** The cells of a row. *)
Lemma buildRow_cells (judgeIds : list string) (s : Submission.t) :
  List.length (buildRow judgeIds s) = (8 + List.length judgeIds)%nat
  /\ nth_error (buildRow judgeIds s) 0 = Some (Submission.id s)
  /\ nth_error (buildRow judgeIds s) 7 = Some (avgScore (Submission.votes s))
  /\ forall k j,
       nth_error judgeIds k = Some j ->
       nth_error (buildRow judgeIds s) (8 + k)
       = Some (match votesBy j (Submission.votes s) with
               | vote :: _ => string_of_Z (Vote.score vote)
               | [] => ""
               end).
Proof.
  unfold buildRow. repeat split.
  - rewrite length_app. unfold judgeScores. rewrite length_map. reflexivity.
  - intros k j Hk.
    change (8 + k)%nat with (List.length [Submission.id s; Submission.userId s;
              Submission.userTag s; hd "" (Submission.urls s);
              slice_to 500 (Submission.content s); Submission.submittedAt s;
              string_of_Z (Z.of_nat (List.length (Submission.votes s)));
              avgScore (Submission.votes s)] + k)%nat.
    rewrite nth_error_app2 by lia.
    replace (_ + k - _)%nat with k by (simpl; lia).
    unfold judgeScores. rewrite nth_error_map, Hk. simpl. f_equal.
    unfold votesBy. induction (Submission.votes s) as [|v r IH]; simpl; [reflexivity|].
    destruct (Vote.judgeId v =? j)%string; [reflexivity|exact IH].
Qed.

Lemma buildHeaders_cells (judgeIds : list string) :
  List.length (buildHeaders judgeIds) = (8 + List.length judgeIds)%nat
  /\ nth_error (buildHeaders judgeIds) 7 = Some "Average Score"
  /\ forall k j,
       nth_error judgeIds k = Some j ->
       nth_error (buildHeaders judgeIds) (8 + k) = Some ("Judge_" ++ slice_last 6 j).
Proof.
  unfold buildHeaders. repeat split.
  - rewrite length_app, length_map. reflexivity.
  - intros k j Hk.
    change (8 + k)%nat with (List.length ["Submission ID"; "User ID"; "User Tag"; "URL";
              "Content"; "Submitted At"; "Vote Count"; "Average Score"] + k)%nat.
    rewrite nth_error_app2 by lia.
    replace (_ + k - _)%nat with k by (simpl; lia).
    now rewrite nth_error_map, Hk.
Qed.

(** ** The spreadsheet *)

Lemma sheetsByTitle_updateSheet (title : string) (f : Sheet -> Sheet) (d : Doc) :
  sheetsByTitle title (updateSheet title f d)
  = option_map f (sheetsByTitle title d).
Proof.
  unfold sheetsByTitle, updateSheet.
  rewrite find_mutateFirst by reflexivity.
  destruct (find _ d); reflexivity.
Qed.

Lemma sheetsByTitle_added (title : string) (d : Doc) :
  sheetsByTitle title d = None ->
  sheetsByTitle title (d ++ [(title, mkSheet [] [])])%list = Some (mkSheet [] []).
Proof.
  unfold sheetsByTitle. intros H.
  destruct (find _ d) eqn:Hf; [discriminate|].
  rewrite find_app_none by exact Hf. simpl. now rewrite String.eqb_refl.
Qed.

(** One step of symbolic execution of a run. *)
Ltac run_step :=
  repeat (progress (cbv beta iota;
                    cbn [disk doc trace logCall onDisk onDoc fst snd])).

Section ExportRuns.
Variable E : Env.

Lemma external_returns c effect w :
  fault E (trace w) c = None ->
  external E c effect w = (Returned tt, effect (logCall c w)).
Proof. unfold external. now intros ->. Qed.

Lemma external_throws c effect w msg :
  fault E (trace w) c = Some msg ->
  external E c effect w = (Thrown msg, logCall c w).
Proof. unfold external. now intros ->. Qed.

(** [exportMissionToSheets] catches everything: it always resolves. *)
Lemma export_always_returns mission w :
  exists res, fst (exportMissionToSheets E mission w) = Returned res.
Proof.
  unfold exportMissionToSheets, tryCatch.
  match goal with |- context [match ?c w with _ => _ end] => destruct (c w) as [[res|msg] w1] end.
  - now exists res.
  - simpl. eauto.
Qed.

(** The run on a mission without submissions, once the spreadsheet is
    open. *)
Lemma export_empty mission w :
  exportSubmissions mission w = [] ->
  fault E (trace w) CGetSpreadsheet = None ->
  exportMissionToSheets E mission w
  = (Returned (mkResult true 0 None),
     mkWorld (Storage.markMissionExported
                (clockIso E (trace w ++ [CGetSpreadsheet])) (Mission.id mission)
                (disk w))
             (doc w)
             (trace w ++ [CGetSpreadsheet; CMarkMissionExported (Mission.id mission)])).
Proof.
  unfold exportSubmissions. intros Hs Hf.
  unfold exportMissionToSheets, tryCatch, bind, getSpreadsheet, readDisk.
  rewrite external_returns by exact Hf. simpl. rewrite Hs. simpl.
  unfold markMissionExported, storage, onDisk, logCall, ret. simpl.
  now rewrite <- app_assoc.
Qed.

(** The run when opening the spreadsheet throws: nothing is touched. *)
Lemma export_unreachable mission w msg :
  fault E (trace w) CGetSpreadsheet = Some msg ->
  exportMissionToSheets E mission w
  = (Returned (mkResult false 0 (Some msg)), logCall CGetSpreadsheet w).
Proof.
  intros Hf. unfold exportMissionToSheets, tryCatch, bind, getSpreadsheet.
  now rewrite (external_throws _ _ _ _ Hf).
Qed.

(** The run on a mission with submissions, when it reports success: every
    call went through, in the order of [exportCalls]. *)
Lemma export_nonempty_success mission w :
  exportSubmissions mission w <> [] ->
  succeeded (exportMissionToSheets E mission w) ->
  exists nowIso,
    exportMissionToSheets E mission w
    = (Returned (mkResult true (List.length (exportRows mission w)) None),
       mkWorld (Storage.markSubmissionsExported (Mission.id mission)
                  (Storage.markMissionExported nowIso (Mission.id mission) (disk w)))
               (docAfterExport mission w)
               (trace w ++ exportCalls mission w)).
Proof.
  intros Hne (res & Hres & Hok). revert Hres.
  unfold docAfterExport, exportCalls, exportHeaders, exportRows.
  unfold exportSubmissions in *.
  unfold exportMissionToSheets, tryCatch, bind, getSpreadsheet, readDisk, readDoc,
    clear, addSheet, setHeaderRow, addRows, markMissionExported,
    markSubmissionsExported, storage, ret, external.
  fold (exportTitle mission).
  destruct (fault E (trace w) CGetSpreadsheet) eqn:F1;
    [simpl; intros [= <-]; discriminate|].
  run_step.
  destruct (Storage.getSubmissionsByMission (Mission.id mission) (disk w))
    as [|s0 subs] eqn:Hsubs; [congruence|].
  cbn [List.length Nat.eqb]. run_step.
  destruct (sheetsByTitle (exportTitle mission) (doc w)) as [sh|] eqn:Hsh;
    run_step;
    repeat (match goal with
            | |- context [fault E ?tr ?c] =>
                destruct (fault E tr c) eqn:?;
                [simpl; intros [= <-]; discriminate|]
            end; run_step);
    intros _; eexists; unfold onDisk, onDoc, logCall; cbn [disk doc trace];
    rewrite <- !app_assoc; reflexivity.
Qed.
End ExportRuns.

Lemma markMissionExported_lookup nowIso missionId d m :
  Storage.getMissionById missionId d = Some m ->
  Storage.getMissionById missionId (Storage.markMissionExported nowIso missionId d)
  = Some (Mission.set_exportedAt nowIso (Mission.set_status exported m)).
Proof.
  unfold Storage.getMissionById, Storage.markMissionExported, Storage.loadMissions.
  intros H. rewrite H. simpl. rewrite find_mutateFirst by reflexivity. now rewrite H.
Qed.

Lemma markMissionClosed_lookup missionId d m :
  Storage.getMissionById missionId d = Some m ->
  Storage.getMissionById missionId (Storage.markMissionClosed missionId d)
  = Some (Mission.set_status closed m).
Proof.
  unfold Storage.getMissionById, Storage.markMissionClosed, Storage.loadMissions.
  intros H. rewrite H. simpl. rewrite find_mutateFirst by reflexivity. now rewrite H.
Qed.

Lemma markMissionExported_submissions nowIso missionId d :
  submissionsFile (Storage.markMissionExported nowIso missionId d) = submissionsFile d.
Proof. unfold Storage.markMissionExported. now destruct (find _ _). Qed.

Lemma markSubmissionsExported_missions missionId d :
  missionsFile (Storage.markSubmissionsExported missionId d) = missionsFile d.
Proof. reflexivity. Qed.

(** Marking the submissions exported changes their flag only: the mission
    has the same submissions afterwards. *)
Lemma getSubmissionsByMission_marked missionId d :
  Storage.getSubmissionsByMission missionId (Storage.markSubmissionsExported missionId d)
  = map (Submission.set_exported true) (Storage.getSubmissionsByMission missionId d).
Proof.
  unfold Storage.getSubmissionsByMission, Storage.markSubmissionsExported,
    Storage.loadSubmissions. simpl.
  induction (submissionsFile d) as [|s r IH]; simpl; [reflexivity|].
  destruct (Submission.missionId s =? missionId)%string eqn:Hs; simpl; rewrite Hs, IH;
    reflexivity.
Qed.

(** C10, as the code has it: for a mission without submissions, once
    [getSpreadsheet] has resolved, [exportMissionToSheets] returns success
    with row count 0 and marks the mission exported; the spreadsheet is left
    as it was (no tab created, cleared or written), the only calls made are
    [getSpreadsheet] and [markMissionExported] (so [markSubmissionsExported]
    is not invoked) and [submissions.json] is untouched. *)
Theorem export_without_submissions :
  forall E mission w,
    exportSubmissions mission w = [] ->
    fault E (trace w) CGetSpreadsheet = None ->
    let r := exportMissionToSheets E mission w in
    fst r = Returned (mkResult true 0 None)
    /\ doc (snd r) = doc w
    /\ trace (snd r)
       = (trace w ++ [CGetSpreadsheet; CMarkMissionExported (Mission.id mission)])%list
    /\ submissionsFile (disk (snd r)) = submissionsFile (disk w)
    /\ (forall m, Storage.getMissionById (Mission.id mission) (disk w) = Some m ->
                  statusOf (Mission.id mission) (snd r) = Some exported).
Proof.
  intros E mission w Hs Hf r. subst r. rewrite (export_empty E mission w Hs Hf).
  simpl. repeat split.
  - apply markMissionExported_submissions.
  - intros m Hm. unfold statusOf. simpl.
    now rewrite (markMissionExported_lookup _ _ _ _ Hm).
Qed.

Lemma empty_export_witness :
  let mission := sampleMission "mission-1" "thread-1" 1000 closed in
  let w := mkWorld (mkDisk [mission] []) [] [] in
  let r := exportMissionToSheets calmEnv mission w in
  exportSubmissions mission w = []
  /\ fault calmEnv (trace w) CGetSpreadsheet = None
  /\ fst r = Returned (mkResult true 0 None)
  /\ doc (snd r) = doc w
  /\ trace (snd r) = [CGetSpreadsheet; CMarkMissionExported "mission-1"]
  /\ submissionsFile (disk (snd r)) = submissionsFile (disk w)
  /\ (forall m, Storage.getMissionById "mission-1" (disk w) = Some m ->
                statusOf "mission-1" (snd r) = Some exported).
Proof.
  intros mission w r.
  split; [reflexivity|]. split; [reflexivity|].
  exact (export_without_submissions calmEnv mission w eq_refl eq_refl).
Defined.

(** C10, counterexample: [getSpreadsheet] throws (the spreadsheet id is not
    configured); the export of a mission without submissions then reports
    failure and the mission is not marked exported. *)
Lemma empty_export_fails_when_spreadsheet_unreachable :
  let mission := sampleMission "mission-1" "thread-1" 1000 closed in
  let w := mkWorld (mkDisk [mission] []) [] [] in
  let r := exportMissionToSheets
             (failingEnv CGetSpreadsheet "GOOGLE_SPREADSHEET_ID not configured")
             mission w in
  exportSubmissions mission w = []
  /\ fst r = Returned (mkResult false 0 (Some "GOOGLE_SPREADSHEET_ID not configured"))
  /\ statusOf "mission-1" (snd r) = Some closed
  /\ ~ (fst r = Returned (mkResult true 0 None)
        /\ statusOf "mission-1" (snd r) = Some exported).
Proof.
  intros mission w r. repeat split.
  intros [H _]. vm_compute in H. discriminate.
Qed.

(** ** Export runs and the tab *)

Lemma docAfterExport_tab mission w :
  sheetsByTitle (exportTitle mission) (docAfterExport mission w)
  = Some (mkSheet (exportHeaders mission w) (exportRows mission w)).
Proof.
  unfold docAfterExport. rewrite !sheetsByTitle_updateSheet.
  destruct (sheetsByTitle (exportTitle mission) (doc w)) eqn:Hsh.
  - rewrite sheetsByTitle_updateSheet, Hsh. reflexivity.
  - rewrite sheetsByTitle_added by exact Hsh. reflexivity.
Qed.

Lemma exportRows_length mission w :
  List.length (exportRows mission w) = List.length (exportSubmissions mission w).
Proof. unfold exportRows. apply length_map. Qed.

Lemma succeeded_opened E mission w :
  succeeded (exportMissionToSheets E mission w) ->
  fault E (trace w) CGetSpreadsheet = None.
Proof.
  intros (res & Hres & Hok).
  destruct (fault E (trace w) CGetSpreadsheet) as [msg|] eqn:Hf; [|reflexivity].
  rewrite (export_unreachable E mission w msg Hf) in Hres.
  simpl in Hres. injection Hres as <-. discriminate.
Qed.

(** What one successful run leaves behind. *)
Lemma export_success E mission w :
  succeeded (exportMissionToSheets E mission w) ->
  let r := exportMissionToSheets E mission w in
  (exists res, fst r = Returned res
               /\ rowCount res = List.length (exportSubmissions mission w))
  /\ List.length (exportSubmissions mission (snd r))
     = List.length (exportSubmissions mission w)
  /\ (exportSubmissions mission w <> [] ->
      sheetsByTitle (exportTitle mission) (doc (snd r))
      = Some (mkSheet (exportHeaders mission w) (exportRows mission w))
      /\ trace (snd r) = (trace w ++ exportCalls mission w)%list)
  /\ (exportSubmissions mission w = [] -> doc (snd r) = doc w).
Proof.
  intros Hok r. subst r.
  destruct (exportSubmissions mission w) as [|s0 subs] eqn:Hsubs.
  - rewrite (export_empty E mission w Hsubs (succeeded_opened E mission w Hok)).
    simpl. repeat split; try congruence.
    + eexists; split; reflexivity.
    + unfold exportSubmissions, Storage.getSubmissionsByMission,
        Storage.loadSubmissions in *. simpl.
      now rewrite markMissionExported_submissions, Hsubs.
  - assert (exportSubmissions mission w <> []) as Hne by congruence.
    destruct (export_nonempty_success E mission w Hne Hok) as (nowIso & ->).
    simpl. repeat split; try congruence.
    + eexists; split; [reflexivity|]. simpl.
      now rewrite exportRows_length, Hsubs.
    + unfold exportSubmissions in *. simpl.
      rewrite getSubmissionsByMission_marked, length_map.
      unfold Storage.getSubmissionsByMission, Storage.loadSubmissions in *.
      now rewrite markMissionExported_submissions, Hsubs.
    + apply docAfterExport_tab.
Qed.

(** C8, as the code has it: when [exportMissionToSheets] runs twice for the
    same mission and succeeds both times, then for a mission with at least
    one submission the mission's tab holds as many rows as the mission has
    submissions after each run, both runs report that count, and the second
    run starts on the tab with [clear]; for a mission without submissions
    both runs leave the spreadsheet untouched, so its tab, if any, keeps the
    rows it had. *)
Theorem export_twice_row_count :
  forall E mission w,
    let n := List.length (exportSubmissions mission w) in
    let t := exportTitle mission in
    let r1 := exportMissionToSheets E mission w in
    let r2 := exportMissionToSheets E mission (snd r1) in
    succeeded r1 -> succeeded r2 ->
    (exists res1 res2, fst r1 = Returned res1 /\ fst r2 = Returned res2
                       /\ rowCount res1 = n /\ rowCount res2 = n)
    /\ (n <> 0%nat ->
        tabRowCount t (doc (snd r1)) = n
        /\ tabRowCount t (doc (snd r2)) = n
        /\ exists calls, trace (snd r2)
                         = (trace (snd r1) ++ CGetSpreadsheet :: CClear t :: calls)%list)
    /\ (n = 0%nat ->
        tabRowCount t (doc (snd r1)) = tabRowCount t (doc w)
        /\ tabRowCount t (doc (snd r2)) = tabRowCount t (doc w)).
Proof.
  intros E mission w n t r1 r2 H1 H2.
  destruct (export_success E mission w H1) as ((res1 & Hr1 & Hc1) & Hn1 & Hne1 & He1).
  destruct (export_success E mission (snd r1) H2)
    as ((res2 & Hr2 & Hc2) & Hn2 & Hne2 & He2).
  fold r1 in Hr1, Hn1, Hne1, He1, Hr2, Hc2, Hn2, Hne2, He2.
  fold r2 in Hr2, Hn2, Hne2, He2. fold n in Hc1, Hn1. fold t in Hne1, Hne2.
  split; [|split].
  - exists res1, res2. repeat split; auto; congruence.
  - intros Hn.
    assert (exportSubmissions mission w <> []) as Hw
      by (intros E0; apply Hn; subst n; now rewrite E0).
    assert (exportSubmissions mission (snd r1) <> []) as Hw1
      by (intros E0; apply Hn; rewrite <- Hn1, E0; reflexivity).
    destruct (Hne1 Hw) as [Ht1 _]. destruct (Hne2 Hw1) as [Ht2 Htr2].
    unfold tabRowCount. rewrite Ht1, Ht2. simpl.
    rewrite !exportRows_length. repeat split; [exact Hn1|].
    rewrite Htr2. unfold exportCalls. fold t. rewrite Ht1. eexists. reflexivity.
  - intros Hn.
    assert (exportSubmissions mission w = []) as Hw
      by (apply length_zero_iff_nil; exact Hn).
    assert (exportSubmissions mission (snd r1) = []) as Hw1
      by (apply length_zero_iff_nil; rewrite Hn1; exact Hn).
    rewrite (He2 Hw1), (He1 Hw). auto.
Qed.

Lemma export_twice_witness :
  let r1 := exportMissionToSheets calmEnv scenarioMission scenarioWorld in
  let r2 := exportMissionToSheets calmEnv scenarioMission (snd r1) in
  succeeded r1 /\ succeeded r2
  /\ tabRowCount "Morgan Stanley MDP" (doc (snd r1)) = 2%nat
  /\ tabRowCount "Morgan Stanley MDP" (doc (snd r2)) = 2%nat.
Proof.
  intros r1 r2.
  assert (succeeded r1) as H1
    by (eexists; split; [vm_compute; reflexivity|reflexivity]).
  assert (succeeded r2) as H2
    by (eexists; split; [vm_compute; reflexivity|reflexivity]).
  split; [exact H1|]. split; [exact H2|].
  destruct (export_twice_row_count calmEnv scenarioMission scenarioWorld H1 H2)
    as (_ & Hn & _).
  destruct Hn as (Ha & Hb & _); [vm_compute; discriminate|].
  split; [exact Ha|exact Hb].
Defined.

(** C8, counterexample. First, a mission without submissions whose title is
    that of a tab already holding two rows (here: the tab written by the
    export of another mission of the same title): both runs of its export
    succeed and leave the tab alone, so the tab holds two rows, not zero.
    Second, a mission with two submissions whose second export fails while
    writing the rows: the tab was cleared already and holds no row. *)
Lemma tab_rows_differ_from_submission_count :
  (let w := snd (exportMissionToSheets calmEnv scenarioMission scenarioWorld) in
   let r1 := exportMissionToSheets calmEnv emptyMission w in
   let r2 := exportMissionToSheets calmEnv emptyMission (snd r1) in
   succeeded r1 /\ succeeded r2
   /\ List.length (exportSubmissions emptyMission w) = 0%nat
   /\ tabRowCount (exportTitle emptyMission) (doc (snd r1)) = 2%nat
   /\ tabRowCount (exportTitle emptyMission) (doc (snd r2)) = 2%nat
   /\ ~ (tabRowCount (exportTitle emptyMission) (doc (snd r1))
         = List.length (exportSubmissions emptyMission w)
         /\ tabRowCount (exportTitle emptyMission) (doc (snd r2))
            = List.length (exportSubmissions emptyMission w)))
  /\ (let r1 := exportMissionToSheets secondWriteFailsEnv scenarioMission scenarioWorld in
      let r2 := exportMissionToSheets secondWriteFailsEnv scenarioMission (snd r1) in
      succeeded r1
      /\ fst r2 = Returned (mkResult false 0 (Some "Quota exceeded"))
      /\ List.length (exportSubmissions scenarioMission scenarioWorld) = 2%nat
      /\ tabRowCount (exportTitle scenarioMission) (doc (snd r1)) = 2%nat
      /\ tabRowCount (exportTitle scenarioMission) (doc (snd r2)) = 0%nat).
Proof.
  split.
  - intros w r1 r2.
    split; [eexists; split; [vm_compute; reflexivity|reflexivity]|].
    split; [eexists; split; [vm_compute; reflexivity|reflexivity]|].
    split; [vm_compute; reflexivity|].
    split; [vm_compute; reflexivity|].
    split; [vm_compute; reflexivity|].
    intros [H _]. vm_compute in H. discriminate.
  - intros r1 r2.
    split; [eexists; split; [vm_compute; reflexivity|reflexivity]|].
    repeat split; vm_compute; reflexivity.
Qed.

Lemma Forall2_map_right {A B : Type} (P : A -> B -> Prop) (f : A -> B) (l : list A) :
  (forall x, In x l -> P x (f x)) -> Forall2 P l (map f l).
Proof.
  induction l as [|x r IH]; intros H; simpl; constructor.
  - apply H. now left.
  - apply IH. intros y Hy. apply H. now right.
Qed.

(** C7, as the code has it.  For a mission with at least one submission, a
    run of the export that reports success has written one header row and,
    with one call of [addRows], one row per submission whose [missionId] is
    the mission's, in the order of [submissions.json], and nothing for the
    submissions of other missions; the mission's tab (for an ASCII title,
    the tab named by [sanitizeTitle]) holds exactly that header and those
    rows, and the row count reported is the number of those submissions.
    There is one judge column per distinct judge id seen across those
    submissions, labelled for an ASCII id with its last six characters.  In
    the row of a submission, the first cell is the submission's id; the
    average-score cell is the marker [N/A] when the submission has no vote
    and otherwise (scores in the domain 1 to 5) the two-decimal rendering of
    a hundredth nearest to the arithmetic mean of its scores; the cell of a
    judge column is blank when that judge cast no vote on the submission and
    the judge's score otherwise. *)
Theorem successful_export_rows_and_judge_columns :
  forall E mission w,
    let subs := filter (fun s => (Submission.missionId s =? Mission.id mission)%string)
                  (submissionsFile (disk w)) in
    let run := exportMissionToSheets E mission w in
    subs <> [] ->
    succeeded run ->
    exists t judges header tabRows,
      (isAscii (Mission.title mission) = true ->
       t = sanitizeTitle (Mission.title mission))
      /\ sheetsByTitle t (doc (snd run)) = Some (mkSheet header tabRows)
      /\ (exists c,
             trace (snd run)
             = (trace w ++ [CGetSpreadsheet; c; CSetHeaderRow t header;
                            CAddRows t tabRows;
                            CMarkMissionExported (Mission.id mission);
                            CMarkSubmissionsExported (Mission.id mission)])%list)
      /\ (exists res, fst run = Returned res /\ rowCount res = List.length subs)
      /\ NoDup judges
      /\ (forall j, In j judges
                    <-> exists s v, In s (submissionsFile (disk w))
                                    /\ Submission.missionId s = Mission.id mission
                                    /\ In v (Submission.votes s)
                                    /\ Vote.judgeId v = j)
      /\ List.length header = (8 + List.length judges)%nat
      /\ nth_error header 7 = Some "Average Score"
      /\ (forall k j, nth_error judges k = Some j -> isAscii j = true ->
                      nth_error header (8 + k) = Some ("Judge_" ++ slice_last 6 j))
      /\ Forall2
           (fun s row =>
              let votes := Submission.votes s in
              List.length row = (8 + List.length judges)%nat
              /\ nth_error row 0 = Some (Submission.id s)
              /\ (votes = [] -> nth_error row 7 = Some "N/A")
              /\ (votes <> [] ->
                  (forall v, In v votes -> 1 <= Vote.score v <= 5) ->
                  Z.of_nat (List.length votes) < 2 ^ 32 ->
                  exists N, nth_error row 7 = Some (fixed2 N)
                            /\ 0 <= N
                            /\ nearestHundredth N (sumScores votes)
                                                (Z.of_nat (List.length votes)))
              /\ forall k j,
                   nth_error judges k = Some j ->
                   (votesBy j votes = [] -> nth_error row (8 + k) = Some "")
                   /\ (forall v rest, votesBy j votes = v :: rest ->
                                      nth_error row (8 + k)
                                      = Some (string_of_Z (Vote.score v))))
           subs tabRows.
Proof.
  intros E mission w subs run Hne Hok. set (t := exportTitle mission).
  assert (exportSubmissions mission w = subs) as Hsubs by reflexivity.
  assert (exportSubmissions mission w <> []) as Hne' by (rewrite Hsubs; exact Hne).
  destruct (export_success E mission w Hok) as ((res & Hres & Hcount) & _ & Htab & _).
  destruct (Htab Hne') as [Ht Htr]. fold run in Hres, Ht, Htr. fold t in Ht.
  destruct (judgeIdArray_spec subs) as [Hnd Hin].
  exists t, (judgeIdArray subs), (exportHeaders mission w), (exportRows mission w).
  split; [reflexivity|]. split; [exact Ht|]. split.
  { rewrite Htr. unfold exportCalls. fold t. eexists. reflexivity. }
  split; [exists res; rewrite <- Hsubs; auto|].
  split; [exact Hnd|]. split.
  { intros j. rewrite Hin. split.
    - intros (s & v & Hs & Hv & Hj). apply filter_In in Hs as [Hs Hm].
      apply String.eqb_eq in Hm. eauto 7.
    - intros (s & v & Hs & Hm & Hv & Hj). exists s, v. repeat split; auto.
      apply filter_In. split; [exact Hs|]. now apply String.eqb_eq. }
  unfold exportHeaders, exportRows. rewrite Hsubs.
  destruct (buildHeaders_cells (judgeIdArray subs)) as (Hlen & Havgh & Hcolh).
  split; [exact Hlen|]. split; [exact Havgh|]. split; [intros k j Hk _; now apply Hcolh|].
  apply Forall2_map_right. intros s _. cbv zeta.
  set (votes := Submission.votes s).
  destruct (buildRow_cells (judgeIdArray subs) s) as (Hrl & Hid & Havg & Hcols).
  fold votes in Havg, Hcols.
  split; [exact Hrl|]. split; [exact Hid|]. split; [|split].
  - intros Hv. rewrite Havg, Hv. reflexivity.
  - intros Hv Hdom Hn.
    destruct (avgScore_mean votes) as [_ Hmean].
    destruct (Hmean Hv Hdom Hn) as (N & HN & HN0 & Hnear).
    exists N. rewrite Havg, HN. auto.
  - intros k j Hk. rewrite (Hcols k j Hk). split.
    + now intros ->.
    + now intros v rest ->.
Qed.

Lemma successful_export_witness :
  let mission := scenarioMission in
  let w := twoMissionsWorld in
  let run := exportMissionToSheets calmEnv mission w in
  filter (fun s => (Submission.missionId s =? Mission.id mission)%string)
    (submissionsFile (disk w)) = [scenarioS1; scenarioS2]
  /\ List.length (submissionsFile (disk w)) = 3%nat
  /\ succeeded run
  /\ sheetsByTitle "Morgan Stanley MDP" (doc (snd run))
     = Some (mkSheet
               ["Submission ID"; "User ID"; "User Tag"; "URL"; "Content";
                "Submitted At"; "Vote Count"; "Average Score";
                "Judge_udge-A"; "Judge_udge-B"]
               [["sub-1-aaaa"; "user-1"; "user#0001"; "https://example.org/a";
                 "see https://example.org/a"; "2026-01-02T00:00:00.000Z";
                 "2"; "3.00"; "4"; "2"];
                ["sub-2-bbbb"; "user-1"; "user#0001"; "https://example.org/a";
                 "see https://example.org/a"; "2026-01-02T00:00:00.000Z";
                 "1"; "5.00"; "5"; ""]])
  /\ isAscii (Mission.title mission) = true
  /\ exists (judges header : list string) (tabRows : list (list string)),
       sheetsByTitle "Morgan Stanley MDP" (doc (snd run)) = Some (mkSheet header tabRows)
       /\ NoDup judges
       /\ List.length header = (8 + List.length judges)%nat
       /\ List.length tabRows = 2%nat.
Proof.
  intros mission w run.
  assert (filter (fun s => (Submission.missionId s =? Mission.id mission)%string)
            (submissionsFile (disk w)) <> []) as H1 by discriminate.
  assert (succeeded run) as H2
    by (eexists; split; [vm_compute; reflexivity|reflexivity]).
  destruct (successful_export_rows_and_judge_columns calmEnv mission w H1 H2)
    as (t & judges & header & tabRows & Ht & Htab & _ & _ & Hnd & _ & Hlen & _ & _
        & Hrows).
  rewrite (Ht eq_refl) in Htab.
  split; [reflexivity|]. split; [reflexivity|]. split; [exact H2|].
  split; [vm_compute; reflexivity|]. split; [reflexivity|].
  exists judges, header, tabRows.
  split; [exact Htab|]. split; [exact Hnd|]. split; [exact Hlen|].
  apply Forall2_length in Hrows. rewrite <- Hrows. reflexivity.
Defined.

(** C7, counterexample: a mission with two submissions whose export fails.
    First the spreadsheet id is not configured, so [getSpreadsheet] throws:
    the run reports failure and the spreadsheet has no tab, no header and no
    row.  Second the rows cannot be written: the run reports failure after
    the tab has been created and the header set, and the tab holds no row.
    Either way the destination does not hold one row per submission. *)
Lemma failed_export_leaves_no_row :
  let mission := scenarioMission in
  let w := twoMissionsWorld in
  filter (fun s => (Submission.missionId s =? Mission.id mission)%string)
    (submissionsFile (disk w)) = [scenarioS1; scenarioS2]
  /\ (let run := exportMissionToSheets
                   (failingEnv CGetSpreadsheet "GOOGLE_SPREADSHEET_ID not configured")
                   mission w in
      fst run = Returned (mkResult false 0 (Some "GOOGLE_SPREADSHEET_ID not configured"))
      /\ doc (snd run) = []
      /\ trace (snd run) = [CGetSpreadsheet]
      /\ ~ exists header tabRows,
             sheetsByTitle (exportTitle mission) (doc (snd run))
             = Some (mkSheet header tabRows)
             /\ List.length tabRows = 2%nat)
  /\ (let run := exportMissionToSheets lockAndWriteFailEnv mission w in
      fst run = Returned (mkResult false 0 (Some "Quota exceeded"))
      /\ option_map rows (sheetsByTitle (exportTitle mission) (doc (snd run))) = Some []
      /\ ~ exists header tabRows,
             sheetsByTitle (exportTitle mission) (doc (snd run))
             = Some (mkSheet header tabRows)
             /\ List.length tabRows = 2%nat).
Proof.
  intros mission w. split; [reflexivity|]. split.
  - intros run. split; [vm_compute; reflexivity|]. split; [vm_compute; reflexivity|].
    split; [vm_compute; reflexivity|].
    intros (header & tabRows & H & _). vm_compute in H. discriminate.
  - intros run. split; [vm_compute; reflexivity|]. split; [vm_compute; reflexivity|].
    intros (header & tabRows & H & Hlen). vm_compute in H.
    injection H as _ <-. discriminate.
Qed.

(** ** The deadline sweep *)

Section Sweep.
Variable E : Env.

(** Steps 1 to 4 touch neither the data directory nor the spreadsheet. *)
Lemma announceDeadline_keeps mission w :
  disk (snd (announceDeadline E mission w)) = disk w
  /\ doc (snd (announceDeadline E mission w)) = doc w.
Proof.
  unfold announceDeadline, bind, readDisk, postMissionSummaryToThread, closeThread,
    updateStarterEmbed, external.
  repeat (match goal with
          | |- context [fault E ?tr ?c] => destruct (fault E tr c) eqn:?
          end; run_step; auto).
Qed.

Lemma postMissionResultsToChannel_keeps missionId w :
  disk (snd (postMissionResultsToChannel E missionId w)) = disk w
  /\ doc (snd (postMissionResultsToChannel E missionId w)) = doc w.
Proof.
  unfold postMissionResultsToChannel, external.
  destruct (fault E (trace w) _); auto.
Qed.

(** A run of the export either reports success or leaves the data
    directory as it was. *)
Lemma export_failure_keeps_disk mission w :
  succeeded (exportMissionToSheets E mission w)
  \/ ((exists res, fst (exportMissionToSheets E mission w) = Returned res
                   /\ success res = false)
      /\ disk (snd (exportMissionToSheets E mission w)) = disk w).
Proof.
  unfold succeeded.
  unfold exportMissionToSheets, tryCatch, bind, getSpreadsheet, readDisk, readDoc,
    clear, addSheet, setHeaderRow, addRows, markMissionExported,
    markSubmissionsExported, storage, ret, external.
  destruct (fault E (trace w) CGetSpreadsheet) eqn:F1; run_step;
    [right; split; [eexists; split; reflexivity|reflexivity]|].
  destruct (Storage.getSubmissionsByMission (Mission.id mission) (disk w))
    as [|s0 subs] eqn:Hsubs; cbn [List.length Nat.eqb]; run_step;
    [left; eexists; split; reflexivity|].
  destruct (sheetsByTitle (sanitizeTitle (Mission.title mission)) (doc w));
    repeat (match goal with
            | |- context [fault E ?tr ?c] =>
                destruct (fault E tr c) eqn:?; run_step;
                [right; split; [eexists; split; reflexivity|reflexivity]|]
            end);
    left; eexists; split; reflexivity.
Qed.
End Sweep.

Lemma export_success_status E mission w m :
  succeeded (exportMissionToSheets E mission w) ->
  Storage.getMissionById (Mission.id mission) (disk w) = Some m ->
  statusOf (Mission.id mission) (snd (exportMissionToSheets E mission w))
  = Some exported.
Proof.
  intros Hok Hm. unfold statusOf.
  destruct (exportSubmissions mission w) as [|s0 subs] eqn:Hsubs.
  - rewrite (export_empty E mission w Hsubs (succeeded_opened E mission w Hok)).
    simpl. now rewrite (markMissionExported_lookup _ _ _ _ Hm).
  - assert (exportSubmissions mission w <> []) as Hne by congruence.
    destruct (export_nonempty_success E mission w Hne Hok) as (nowIso & ->).
    simpl. unfold Storage.getMissionById, Storage.loadMissions.
    rewrite markSubmissionsExported_missions.
    fold (Storage.loadMissions (Storage.markMissionExported nowIso (Mission.id mission) (disk w))).
    fold (Storage.getMissionById (Mission.id mission)
            (Storage.markMissionExported nowIso (Mission.id mission) (disk w))).
    now rewrite (markMissionExported_lookup _ _ _ _ Hm).
Qed.

(** One iteration of the sweep on a mission the store holds. *)
Lemma processMission_spec :
  forall E mission w m,
    Storage.getMissionById (Mission.id mission) (disk w) = Some m ->
    let missionId := Mission.id mission in
    let r := processMission E mission w in
    (forall w1,
        announceDeadline E mission w = (Returned tt, w1) ->
        statusOf missionId (snd (markMissionClosed missionId w1)) = Some closed
        /\ In (CMarkMissionClosed missionId) (trace (snd r))
        /\ (statusOf missionId (snd r) = Some closed \/ statusOf missionId (snd r) = Some exported))
    /\ (Mission.status m <> exported ->
        statusOf missionId (snd r) = Some exported ->
        sheetsConfigured E = true
        /\ exists res, fst r = Returned (Some res) /\ success res = true).
Proof.
  intros E mission w m Hm missionId r. subst missionId.
  pose proof (announceDeadline_keeps E mission w) as [Hd1 _].
  assert (forall w1, disk w1 = disk w ->
            statusOf (Mission.id mission) (snd (markMissionClosed (Mission.id mission) w1)) = Some closed) as Hclosed.
  { intros w1 Hw1. unfold statusOf, markMissionClosed, storage.
    cbn [snd disk onDisk logCall]. rewrite Hw1. now rewrite (markMissionClosed_lookup _ _ _ Hm). }
  subst r. unfold processMission, bind.
  destruct (announceDeadline E mission w) as [[[]|msg] w1] eqn:Ha; simpl in Hd1.
  - (* steps 1 to 4 returned *)
    specialize (Hclosed w1 Hd1).
    set (w2 := snd (markMissionClosed (Mission.id mission) w1)) in *.
    assert (markMissionClosed (Mission.id mission) w1 = (Returned tt, w2)) as ->
      by reflexivity.
    assert (In (CMarkMissionClosed (Mission.id mission)) (trace w2)) as Htr2
      by (subst w2; simpl; apply in_or_app; right; left; reflexivity).
    assert (exists m2, Storage.getMissionById (Mission.id mission) (disk w2) = Some m2
                       /\ Mission.status m2 = closed) as (m2 & Hm2 & Hs2).
    { unfold statusOf in Hclosed.
      destruct (Storage.getMissionById (Mission.id mission) (disk w2)) as [m2|]; [|discriminate].
      exists m2. split; [reflexivity|]. simpl in Hclosed. congruence. }
    pose proof (postMissionResultsToChannel_keeps E (Mission.id mission) w2) as [Hd3 _].
    assert (forall c w', In c (trace w') ->
              In c (trace (snd (postMissionResultsToChannel E (Mission.id mission) w')))) as Htr3.
    { intros c w' Hc. unfold postMissionResultsToChannel, external.
      destruct (fault E (trace w') _); simpl; apply in_or_app; auto. }
    specialize (Htr3 _ _ Htr2).
    destruct (postMissionResultsToChannel E (Mission.id mission) w2) as [[[]|msg3] w3] eqn:Hp;
      simpl in Hd3, Htr3.
    + (* step 6 returned: step 7 *)
      unfold exportIfConfigured, bind, ret.
      destruct (sheetsConfigured E) eqn:Hcfg.
      * assert (Storage.getMissionById (Mission.id mission) (disk w3) = Some m2) as Hm3
          by (rewrite Hd3; exact Hm2).
        assert (forall c, In c (trace w3) ->
                          In c (trace (snd (exportMissionToSheets E mission w3)))) as Hmono.
        { intros c Hc.
          destruct (export_failure_keeps_disk E mission w3) as [Hok|[_ _]].
          - destruct (exportSubmissions mission w3) eqn:Hsubs.
            + rewrite (export_empty E mission w3 Hsubs (succeeded_opened E mission w3 Hok)).
              simpl. apply in_or_app. auto.
            + assert (exportSubmissions mission w3 <> []) as Hne by congruence.
              destruct (export_nonempty_success E mission w3 Hne Hok) as (nowIso & ->).
              simpl. apply in_or_app. auto.
          - clear - Hc.
            unfold exportMissionToSheets, tryCatch, bind, getSpreadsheet, readDisk,
              readDoc, clear, addSheet, setHeaderRow, addRows, markMissionExported,
              markSubmissionsExported, storage, ret, external.
            repeat (match goal with
                    | |- context [fault E ?tr ?c] => destruct (fault E tr c) eqn:?
                    | |- context [Nat.eqb (List.length ?l) 0] => destruct l
                    | |- context [sheetsByTitle ?t ?d] => destruct (sheetsByTitle t d)
                    end; run_step; cbn [List.length Nat.eqb]);
              unfold onDisk, onDoc, logCall; cbn [trace];
              repeat (apply in_or_app; left); exact Hc. }
        destruct (export_failure_keeps_disk E mission w3) as [Hok|[(res & Hres & Hfail) Hkeep]].
        -- pose proof (export_success_status E mission w3 m2 Hok Hm3) as Hst.
           destruct Hok as (res & Hres & Hsucc).
           destruct (exportMissionToSheets E mission w3) as [o w4].
           simpl in Hres, Hst, Hmono. subst o. simpl.
           split.
           ++ intros w1' [= <-]. auto.
           ++ intros _ _. split; [reflexivity|]. exists res. auto.
        -- destruct (exportMissionToSheets E mission w3) as [o w4].
           simpl in Hres, Hkeep, Hmono. subst o. simpl.
           assert (statusOf (Mission.id mission) w4 = Some closed) as Hst
             by (unfold statusOf; rewrite Hkeep, Hd3; exact Hclosed).
           split.
           ++ intros w1' [= <-]. auto.
           ++ intros _ Hex. congruence.
      * simpl.
        assert (statusOf (Mission.id mission) w3 = Some closed) as Hst
          by (unfold statusOf; rewrite Hd3; exact Hclosed).
        split.
        -- intros w1' [= <-]. auto.
        -- intros _ Hex. congruence.
    + (* step 6 threw *)
      simpl.
      assert (statusOf (Mission.id mission) w3 = Some closed) as Hst
        by (unfold statusOf; rewrite Hd3; exact Hclosed).
      split.
      * intros w1' [= <-]. auto.
      * intros _ Hex. congruence.
  - (* one of steps 2 to 4 threw *)
    simpl. split; [intros w1' [=]|].
    intros Hne Hex. unfold statusOf in Hex. rewrite Hd1, Hm in Hex.
    simpl in Hex. congruence.
Qed.

Lemma find_mutateFirst_other {A : Type} (p p' : A -> bool) (f : A -> A) (l : list A) :
  (forall x, p' x = true -> p x = false /\ p (f x) = false) ->
  find p (mutateFirst p' f l) = find p l.
Proof.
  intros H. induction l as [|x r IH]; simpl; [reflexivity|].
  destruct (p' x) eqn:Hx; simpl.
  - destruct (H x Hx) as [-> ->]. reflexivity.
  - now rewrite IH.
Qed.

Lemma markMissionClosed_other missionId other d :
  other <> missionId ->
  Storage.getMissionById other (Storage.markMissionClosed missionId d)
  = Storage.getMissionById other d.
Proof.
  intros Hne. unfold Storage.getMissionById, Storage.markMissionClosed,
    Storage.loadMissions.
  destruct (find _ (missionsFile d)); [|reflexivity]. simpl.
  apply find_mutateFirst_other. intros x Hx. apply String.eqb_eq in Hx.
  simpl. rewrite Hx. split; apply String.eqb_neq; congruence.
Qed.

Lemma markMissionExported_other nowIso missionId other d :
  other <> missionId ->
  Storage.getMissionById other (Storage.markMissionExported nowIso missionId d)
  = Storage.getMissionById other d.
Proof.
  intros Hne. unfold Storage.getMissionById, Storage.markMissionExported,
    Storage.loadMissions.
  destruct (find _ (missionsFile d)); [|reflexivity]. simpl.
  apply find_mutateFirst_other. intros x Hx. apply String.eqb_eq in Hx.
  simpl. rewrite Hx. split; apply String.eqb_neq; congruence.
Qed.

(** What a run of the export can do to [missions.json]: nothing, or mark
    the mission exported. *)
Lemma export_missions E mission w :
  missionsFile (disk (snd (exportMissionToSheets E mission w))) = missionsFile (disk w)
  \/ exists nowIso,
       missionsFile (disk (snd (exportMissionToSheets E mission w)))
       = missionsFile (Storage.markMissionExported nowIso (Mission.id mission) (disk w)).
Proof.
  destruct (export_failure_keeps_disk E mission w) as [Hok|[_ ->]]; [|now left].
  right. destruct (exportSubmissions mission w) eqn:Hsubs.
  - rewrite (export_empty E mission w Hsubs (succeeded_opened E mission w Hok)).
    simpl. eauto.
  - assert (exportSubmissions mission w <> []) as Hne by congruence.
    destruct (export_nonempty_success E mission w Hne Hok) as (nowIso & ->).
    simpl. eauto.
Qed.

(** An iteration leaves the status of every other mission id alone. *)
Lemma processMission_other E mission w other :
  other <> Mission.id mission ->
  statusOf other (snd (processMission E mission w)) = statusOf other w.
Proof.
  intros Hne.
  assert (forall w', statusOf other (snd (exportMissionToSheets E mission w'))
                     = statusOf other w') as Hexp.
  { intros w'. unfold statusOf, Storage.getMissionById, Storage.loadMissions.
    destruct (export_missions E mission w') as [->|(nowIso & ->)]; [reflexivity|].
    f_equal. now apply markMissionExported_other. }
  pose proof (announceDeadline_keeps E mission w) as [Hd1 _].
  unfold processMission, bind.
  destruct (announceDeadline E mission w) as [[[]|msg] w1]; simpl in Hd1;
    [|simpl; unfold statusOf; now rewrite Hd1].
  set (w2 := snd (markMissionClosed (Mission.id mission) w1)).
  assert (markMissionClosed (Mission.id mission) w1 = (Returned tt, w2)) as ->
    by reflexivity.
  assert (statusOf other w2 = statusOf other w) as H2.
  { subst w2. unfold statusOf, markMissionClosed, storage.
    cbn [snd disk onDisk logCall]. rewrite Hd1. f_equal.
    now apply markMissionClosed_other. }
  pose proof (postMissionResultsToChannel_keeps E (Mission.id mission) w2) as [Hd3 _].
  destruct (postMissionResultsToChannel E (Mission.id mission) w2) as [[[]|msg3] w3];
    simpl in Hd3.
  - unfold exportIfConfigured, bind, ret. destruct (sheetsConfigured E).
    + specialize (Hexp w3).
      destruct (exportMissionToSheets E mission w3) as [[res|msg4] w4]; simpl in *;
        rewrite Hexp; unfold statusOf; rewrite Hd3; exact H2.
    + simpl. unfold statusOf. rewrite Hd3. exact H2.
  - simpl. unfold statusOf. rewrite Hd3. exact H2.
Qed.

Section QuietCollaborators.
Variable E : Env.
Hypothesis quiet : collaboratorsReturn E.

Lemma announceDeadline_returns mission w :
  exists w1, announceDeadline E mission w = (Returned tt, w1).
Proof.
  unfold announceDeadline, bind, readDisk, postMissionSummaryToThread, closeThread,
    updateStarterEmbed, external.
  repeat (rewrite quiet by reflexivity; run_step). eauto.
Qed.

Lemma processMission_returns mission w :
  exists result, fst (processMission E mission w) = Returned result.
Proof.
  unfold processMission, bind.
  destruct (announceDeadline_returns mission w) as (w1 & ->).
  cbn [markMissionClosed storage].
  unfold postMissionResultsToChannel, external at 1.
  rewrite quiet by reflexivity.
  unfold exportIfConfigured, bind, ret. destruct (sheetsConfigured E); [|simpl; eauto].
  match goal with |- context [exportMissionToSheets E mission ?w'] =>
    destruct (export_always_returns E mission w') as (res & Hres);
    destruct (exportMissionToSheets E mission w') as [o w4] end.
  simpl in Hres. subst o. simpl. eauto.
Qed.

(** Once closed or exported, a mission stays so through the rest of the
    sweep; and the iteration that processes it leaves it so. *)
Lemma processMission_keeps_done mission w missionId :
  closedOrExported missionId w \/ missionId = Mission.id mission ->
  statusOf missionId w <> None ->
  closedOrExported missionId (snd (processMission E mission w)).
Proof.
  intros Hdone Hsome.
  destruct (String.eqb_spec missionId (Mission.id mission)) as [->|Hne].
  - destruct (Storage.getMissionById (Mission.id mission) (disk w)) as [m|] eqn:Hm;
      [|unfold statusOf in Hsome; rewrite Hm in Hsome; now elim Hsome].
    destruct (announceDeadline_returns mission w) as (w1 & Hw1).
    destruct (processMission_spec E mission w m Hm) as [Hclose _].
    destruct (Hclose w1 Hw1) as (_ & _ & H). exact H.
  - destruct Hdone as [Hdone|Heq]; [|contradiction].
    unfold closedOrExported. now rewrite (processMission_other E mission w _ Hne).
Qed.

Lemma processMission_keeps_known mission w missionId :
  statusOf missionId w <> None ->
  statusOf missionId (snd (processMission E mission w)) <> None.
Proof.
  intros Hsome.
  destruct (String.eqb_spec missionId (Mission.id mission)) as [->|Hne].
  - destruct (processMission_keeps_done mission w (Mission.id mission)) as [H|H];
      auto; rewrite H; discriminate.
  - now rewrite (processMission_other E mission w _ Hne).
Qed.

(** The loop of the sweep, when no collaborator throws: it runs to its end
    and leaves every mission of the batch closed or exported. *)
Lemma forOf_closes_all missions :
  forall w,
    (forall m, In m missions -> statusOf (Mission.id m) w <> None) ->
    fst (forOf E missions w) = Returned tt
    /\ (forall missionId, statusOf missionId w <> None ->
                          closedOrExported missionId w ->
                          closedOrExported missionId (snd (forOf E missions w)))
    /\ (forall m, In m missions ->
                  closedOrExported (Mission.id m) (snd (forOf E missions w))).
Proof.
  induction missions as [|m0 rest IH]; intros w Hknown; simpl.
  - repeat split; auto. intros m [].
  - unfold bind.
    destruct (processMission_returns m0 w) as (result & Hret).
    pose proof (fun missionId => processMission_keeps_done m0 w missionId) as Hdone.
    pose proof (fun missionId => processMission_keeps_known m0 w missionId) as Hkn.
    destruct (processMission E m0 w) as [o w1]. simpl in Hret, Hdone, Hkn. subst o.
    destruct (IH w1) as (Hfst & Hkeep & Hall).
    { intros m Hm. apply Hkn, Hknown. now right. }
    split; [exact Hfst|]. split.
    + intros missionId Hsome Hce. apply Hkeep; auto.
    + intros m [<-|Hm]; [|now apply Hall].
      apply Hkeep; [apply Hkn, Hknown; now left|].
      apply Hdone; [now right|apply Hknown; now left].
Qed.
End QuietCollaborators.

(** [checkDeadlines] has no [try] of its own: were a collaborator to throw,
    the exception would leave the loop at that call.  Here the
    summary-posting call throws; the sweep stops before step 5 and the
    mission is still active.  Whether the collaborators of [discord.ts] can
    throw is decided by their bodies, which the sources do not hold. *)
Lemma sweep_stops_where_a_collaborator_throws :
  let E := failingEnv (CPostMissionSummaryToThread "thread-1") "Missing Access" in
  let r := checkDeadlines E 2000 scenarioWorld in
  In scenarioMission (Storage.getMissionsPastDeadline 2000 (disk scenarioWorld))
  /\ fst r = Thrown "Missing Access"
  /\ statusOf "mission-1" (snd r) = Some active
  /\ ~ In (CMarkMissionClosed "mission-1") (trace (snd r)).
Proof.
  intros E r. split; [left; reflexivity|].
  split; [vm_compute; reflexivity|]. split; [vm_compute; reflexivity|].
  vm_compute. intros [H|[]]. discriminate.
Qed.

(** ** The scenarios of the specification, run *)

(** A sweep over the scenario: the mission becomes exported, its tab holds
    the two rows, S1 with average 3.00 and S2 with 5.00 and a blank cell for
    judge B. *)
Example sweep_scenario :
  let r := checkDeadlines calmEnv 2000 scenarioWorld in
  fst r = Returned tt
  /\ statusOf "mission-1" (snd r) = Some exported
  /\ option_map rows (sheetsByTitle "Morgan Stanley MDP" (doc (snd r)))
     = Some [["sub-1-aaaa"; "user-1"; "user#0001"; "https://example.org/a";
              "see https://example.org/a"; "2026-01-02T00:00:00.000Z";
              "2"; "3.00"; "4"; "2"];
             ["sub-2-bbbb"; "user-1"; "user#0001"; "https://example.org/a";
              "see https://example.org/a"; "2026-01-02T00:00:00.000Z";
              "1"; "5.00"; "5"; ""]].
Proof. vm_compute. repeat split. Qed.

(** A failed thread lock does not block closing, and a failed export leaves
    the mission closed. *)
Example sweep_with_failed_lock_and_export :
  let r := processMission lockAndWriteFailEnv scenarioMission scenarioWorld in
  fst r = Returned (Some (mkResult false 0 (Some "Quota exceeded")))
  /\ statusOf "mission-1" (snd r) = Some closed.
Proof. vm_compute. split; reflexivity. Qed.

(** Judge A assigns 3, then changes to 5: one vote of judge A, with score 5. *)
Example vote_changed_scenario :
  let d := mkDisk [] [sampleSubmission "sub-1-aaaa" "msg-1" "mission-1" []] in
  let d' := Storage.recordVote "2026-01-02T12:00:00.000Z" "sub-1-aaaa" "judge-A" 5
              (Storage.recordVote "2026-01-02T11:00:00.000Z" "sub-1-aaaa" "judge-A" 3 d) in
  option_map Submission.votes (Storage.getSubmissionById "sub-1-aaaa" d')
  = Some [Vote.mk "judge-A" 5 "2026-01-02T12:00:00.000Z"].
Proof. reflexivity. Qed.

Example avgScore_samples :
  avgScore [] = "N/A"
  /\ avgScore [Vote.mk "a" 4 ""; Vote.mk "b" 2 ""] = "3.00"
  /\ avgScore [Vote.mk "a" 5 ""; Vote.mk "b" 4 ""; Vote.mk "c" 4 ""] = "4.33"
  /\ toFixed2 (SFdiv prec emax (number_of_Z 1) (number_of_Z 8)) = "0.13"
  /\ toFixed2 (SFdiv prec emax (number_of_Z 107) (number_of_Z 40)) = "2.67"
  /\ toFixed2 (SFdiv prec emax (number_of_Z (-1)) (number_of_Z 3)) = "-0.33".
Proof. vm_compute. repeat split. Qed.

Example string_helpers_samples :
  sanitizeTitle "  Morgan: [MDP]/x  " = "Morgan- -MDP--x"
  /\ sortStrings (fold_left setAdd ["b"; "a"; "b"; "10"; "9"] []) = ["10"; "9"; "a"; "b"]
  /\ slice_last 6 "123456789" = "456789"
  /\ slice_last 6 "123" = "123".
Proof. vm_compute. repeat split. Qed.


(** * Further properties *)

Lemma find_app_some {A : Type} (p : A -> bool) (l l' : list A) (x : A) :
  find p l = Some x -> find p (l ++ l') = Some x.
Proof.
  induction l as [|y r IH]; simpl; [discriminate|].
  destruct (p y); auto.
Qed.

(** ** storage.ts: submissions *)

(** X1. A submission just created is the one [getSubmissionByMessage]
    returns for its message id, unless an older record already carries that
    message id, in which case the older record keeps being returned; the new
    record has no vote and is not exported; it is appended to the
    submissions of its mission and to no other mission's. *)
Theorem createSubmission_then_lookup :
  forall now nowIso rnd messageId channelId threadId missionId userId userTag
         content urls source d,
    let r := Storage.createSubmission now nowIso rnd messageId channelId threadId
               missionId userId userTag content urls source d in
    let s := fst r in
    Submission.votes s = []
    /\ Submission.exported s = false
    /\ Submission.messageId s = messageId
    /\ submissionsFile (snd r) = (submissionsFile d ++ [s])%list
    /\ missionsFile (snd r) = missionsFile d
    /\ Storage.getSubmissionByMessage messageId (snd r)
       = match Storage.getSubmissionByMessage messageId d with
         | Some older => Some older
         | None => Some s
         end
    /\ Storage.getSubmissionsByMission missionId (snd r)
       = (Storage.getSubmissionsByMission missionId d ++ [s])%list
    /\ (forall other, other <> missionId ->
                      Storage.getSubmissionsByMission other (snd r)
                      = Storage.getSubmissionsByMission other d).
Proof.
  intros. subst r s. unfold Storage.createSubmission, Storage.getSubmissionByMessage,
    Storage.getSubmissionsByMission, Storage.loadSubmissions. simpl.
  repeat split.
  - destruct (find _ (submissionsFile d)) eqn:Hf.
    + now apply find_app_some.
    + rewrite find_app_none by exact Hf. simpl. now rewrite String.eqb_refl.
  - rewrite filter_app. simpl. now rewrite String.eqb_refl.
  - intros other Hne. rewrite filter_app. simpl.
    apply String.eqb_neq in Hne. rewrite String.eqb_sym, Hne.
    apply app_nil_r.
Qed.

Lemma createSubmission_witness :
  let d := mkDisk [] [sampleSubmission "sub-1-aaaa" "msg-1" "mission-1" []] in
  let r := Storage.createSubmission 7 "2026-01-03T00:00:00.000Z" "zzzz" "msg-1"
             "chan-1" "thread-1" "mission-1" "user-2" "user#0002"
             "https://example.org/b" ["https://example.org/b"] discord d in
  "mission-2" <> "mission-1"
  /\ Storage.getSubmissionByMessage "msg-1" (snd r)
     = Some (sampleSubmission "sub-1-aaaa" "msg-1" "mission-1" [])
  /\ List.length (Storage.getSubmissionsByMission "mission-1" (snd r)) = 2%nat
  /\ Storage.getSubmissionsByMission "mission-2" (snd r)
     = Storage.getSubmissionsByMission "mission-2" d.
Proof.
  intros d r.
  assert ("mission-2" <> "mission-1") as Hne by discriminate.
  destruct (createSubmission_then_lookup 7 "2026-01-03T00:00:00.000Z" "zzzz" "msg-1"
              "chan-1" "thread-1" "mission-1" "user-2" "user#0002"
              "https://example.org/b" ["https://example.org/b"] discord d)
    as (_ & _ & _ & _ & _ & Hlook & Hmine & Hother).
  split; [exact Hne|]. split; [exact Hlook|]. split.
  - fold r in Hmine. rewrite Hmine. reflexivity.
  - exact (Hother "mission-2" Hne).
Defined.

(** X2. [markSubmissionsExported] raises the flag of every submission of the
    mission and changes nothing else: the records keep their order, ids and
    votes, the submissions of other missions are untouched, and so is
    [missions.json]; marking twice is marking once. *)
Theorem markSubmissionsExported_flags_only :
  forall missionId d,
    let d' := Storage.markSubmissionsExported missionId d in
    (forall s, In s (submissionsFile d') ->
               Submission.missionId s = missionId -> Submission.exported s = true)
    /\ map (Submission.set_exported false) (submissionsFile d')
       = map (Submission.set_exported false) (submissionsFile d)
    /\ (forall other, other <> missionId ->
                      Storage.getSubmissionsByMission other d'
                      = Storage.getSubmissionsByMission other d)
    /\ missionsFile d' = missionsFile d
    /\ Storage.markSubmissionsExported missionId d' = d'.
Proof.
  intros missionId d d'. subst d'.
  unfold Storage.markSubmissionsExported, Storage.getSubmissionsByMission,
    Storage.loadSubmissions. simpl.
  split; [|split; [|split; [|split]]].
  - intros s Hs Hm. apply in_map_iff in Hs as (s0 & <- & _).
    destruct (Submission.missionId s0 =? missionId)%string eqn:E; [reflexivity|].
    simpl in Hm. apply String.eqb_neq in E. contradiction.
  - rewrite map_map. apply map_ext. intros s.
    destruct (Submission.missionId s =? missionId)%string; reflexivity.
  - intros other Hne. induction (submissionsFile d) as [|s r IH]; simpl; [reflexivity|].
    destruct (Submission.missionId s =? missionId)%string eqn:E; simpl.
    + apply String.eqb_eq in E. rewrite E.
      apply String.eqb_neq in Hne. rewrite String.eqb_sym, Hne. exact IH.
    + now rewrite IH.
  - reflexivity.
  - unfold Storage.saveSubmissions. simpl. f_equal.
    rewrite map_map. apply map_ext. intros s.
    destruct (Submission.missionId s =? missionId)%string eqn:E; simpl; now rewrite E.
Qed.

Lemma markSubmissionsExported_witness :
  let d := disk scenarioWorld in
  let d' := Storage.markSubmissionsExported "mission-1" d in
  In (Submission.set_exported true scenarioS1) (submissionsFile d')
  /\ Submission.exported (Submission.set_exported true scenarioS1) = true
  /\ Storage.getSubmissionsByMission "mission-2" d'
     = Storage.getSubmissionsByMission "mission-2" d.
Proof.
  intros d d'.
  destruct (markSubmissionsExported_flags_only "mission-1" d) as (Hflag & _ & Hoth & _).
  assert (In (Submission.set_exported true scenarioS1) (submissionsFile d')) as Hin
    by (left; reflexivity).
  split; [exact Hin|]. split.
  - exact (Hflag _ Hin eq_refl).
  - apply Hoth. discriminate.
Defined.

(** ** storage.ts: missions *)

(** X3. The missions past their deadline are among the active missions, and
    the selection only grows with time: as long as [missions.json] does not
    change, a mission selected at one scan time is selected at every later
    one. *)
Theorem getMissionsPastDeadline_grows :
  forall now later d,
    now <= later ->
    incl (Storage.getMissionsPastDeadline now d) (Storage.getMissionsPastDeadline later d)
    /\ incl (Storage.getMissionsPastDeadline now d) (Storage.getActiveMissions d)
    /\ Storage.getMissionsPastDeadline now d
       = filter (fun m => Mission.deadline m <? now) (Storage.getActiveMissions d).
Proof.
  intros now later d Hle.
  unfold Storage.getMissionsPastDeadline, Storage.getActiveMissions, Storage.loadMissions.
  split; [|split].
  - intros m Hm. apply filter_In in Hm as [Hin Hp]. apply filter_In. split; [exact Hin|].
    apply andb_true_iff in Hp as [Hs Hd]. rewrite Hs. simpl.
    apply Z.ltb_lt. apply Z.ltb_lt in Hd. lia.
  - intros m Hm. apply filter_In in Hm as [Hin Hp]. apply filter_In. split; [exact Hin|].
    now apply andb_true_iff in Hp as [Hs _].
  - induction (missionsFile d) as [|m r IH]; simpl; [reflexivity|].
    destruct (status_eqb (Mission.status m) active); simpl; [|exact IH].
    destruct (Mission.deadline m <? now); now rewrite IH.
Qed.

Lemma getMissionsPastDeadline_grows_witness :
  let d := disk scenarioWorld in
  1500 <= 2500
  /\ incl (Storage.getMissionsPastDeadline 1500 d) (Storage.getMissionsPastDeadline 2500 d)
  /\ incl (Storage.getMissionsPastDeadline 1500 d) (Storage.getActiveMissions d).
Proof.
  intros d. assert (1500 <= 2500) as H by lia.
  destruct (getMissionsPastDeadline_grows 1500 2500 d H) as (H1 & H2 & _).
  split; [exact H|]. split; [exact H1|exact H2].
Defined.

Lemma map_mutateFirst {A B : Type} (g : A -> B) (p : A -> bool) (f : A -> A)
    (l : list A) :
  (forall x, g (f x) = g x) -> map g (mutateFirst p f l) = map g l.
Proof.
  intros H. induction l as [|x r IH]; simpl; [reflexivity|].
  destruct (p x); simpl; [now rewrite H|now rewrite IH].
Qed.

(** The first element satisfying [q] after a mutation that makes its target
    satisfy [q], when nothing satisfied [q] before. *)
Lemma find_mutateFirst_fresh {A : Type} (p q : A -> bool) (f : A -> A) (l : list A) :
  (forall x, q (f x) = true) -> find q l = None ->
  find q (mutateFirst p f l) = option_map f (find p l).
Proof.
  intros Hq. induction l as [|x r IH]; simpl; [reflexivity|].
  destruct (q x) eqn:Hx; [discriminate|]. intros Hn.
  destruct (p x); simpl.
  - now rewrite Hq.
  - rewrite Hx. auto.
Qed.

(** X4. [updateMissionTelegramInfo] on a known mission id links the first
    record with that id to the Telegram message: the record is then found by
    its id with the link set, and by the Telegram message id provided no
    mission was linked to that message before; every other field, every other
    record and [submissions.json] stay as they were.  On an unknown id
    nothing is written. *)
Theorem updateMissionTelegramInfo_links :
  forall missionId telegramMessageId telegramChatId d,
    let d' := MissionLinks.updateMissionTelegramInfo missionId telegramMessageId
                telegramChatId d in
    match Storage.getMissionById missionId d with
    | Some m =>
        let linked := MissionLinks.set_telegram telegramMessageId telegramChatId m in
        Storage.getMissionById missionId d' = Some linked
        /\ (MissionLinks.getMissionByTelegramMessage telegramMessageId d = None ->
            MissionLinks.getMissionByTelegramMessage telegramMessageId d' = Some linked)
        /\ (forall other, other <> missionId ->
                          Storage.getMissionById other d' = Storage.getMissionById other d)
        /\ map withoutTelegram (missionsFile d') = map withoutTelegram (missionsFile d)
        /\ submissionsFile d' = submissionsFile d
    | None => d' = d
    end.
Proof.
  intros missionId tm tc d d'. subst d'.
  unfold MissionLinks.updateMissionTelegramInfo, Storage.getMissionById,
    MissionLinks.getMissionByTelegramMessage, Storage.loadMissions.
  destruct (find _ (missionsFile d)) as [m|] eqn:Hf; [|reflexivity].
  unfold Storage.saveMissions. cbn [missionsFile submissionsFile].
  split; [|split; [|split; [|split]]].
  - rewrite find_mutateFirst by reflexivity. now rewrite Hf.
  - intros Hn. rewrite find_mutateFirst_fresh; [now rewrite Hf| |exact Hn].
    intros x. unfold MissionLinks.hasTelegramMessage. simpl. apply String.eqb_refl.
  - intros other Hne. apply find_mutateFirst_other. intros x Hx.
    apply String.eqb_eq in Hx. simpl. rewrite Hx.
    split; apply String.eqb_neq; congruence.
  - now apply map_mutateFirst.
  - reflexivity.
Qed.

Lemma updateMissionTelegramInfo_witness :
  let d := disk scenarioWorld in
  let d' := MissionLinks.updateMissionTelegramInfo "mission-2" "tg-77" "chat-9" d in
  MissionLinks.getMissionByTelegramMessage "tg-77" d = None
  /\ MissionLinks.getMissionByTelegramMessage "tg-77" d'
     = Some (MissionLinks.set_telegram "tg-77" "chat-9" emptyMission)
  /\ Storage.getMissionById "mission-1" d' = Some scenarioMission.
Proof.
  intros d d'.
  pose proof (updateMissionTelegramInfo_links "mission-2" "tg-77" "chat-9" d) as H.
  change (Storage.getMissionById "mission-2" d) with (Some emptyMission) in H.
  cbv beta iota zeta in H. destruct H as (_ & Hlink & Hoth & _).
  assert (MissionLinks.getMissionByTelegramMessage "tg-77" d = None) as Hn
    by reflexivity.
  split; [exact Hn|]. split; [exact (Hlink Hn)|].
  etransitivity; [apply Hoth; discriminate|reflexivity].
Defined.

Lemma mutateFirst_unique_status (k : string) (f : Mission.t -> Mission.t)
    (st : MissionStatus) (l : list Mission.t) :
  (forall x, Mission.id (f x) = Mission.id x) ->
  (forall x, Mission.status (f x) = st) ->
  NoDup (map Mission.id l) ->
  forall m, Mission.id m = k ->
    In m (mutateFirst (fun m => Mission.id m =? k)%string f l) ->
    Mission.status m = st.
Proof.
  intros Hid Hst. induction l as [|x r IH]; simpl; [intros _ m _ []|].
  intros Hnd m Hm. inversion Hnd as [|? ? Hx Hr]; subst.
  destruct (Mission.id x =? Mission.id m)%string eqn:E.
  - intros [<-|Hin]; [apply Hst|].
    apply String.eqb_eq in E. exfalso. apply Hx. rewrite E. now apply in_map.
  - intros [->|Hin]; [now rewrite String.eqb_refl in E|].
    now apply (IH Hr m eq_refl Hin).
Qed.

(** X5. [markMissionClosed] and [markMissionExported] touch nothing but the
    lifecycle fields ([status], [exportedAt]) of the mission records:
    [missions.json] keeps its records, their order and all their other
    fields, and [submissions.json] is not written.  When mission ids are
    unique, no record carrying the id of a mission that has been closed or
    exported is selected by [getActiveMissions] or [getMissionsPastDeadline]
    afterwards. *)
Theorem lifecycle_marks_touch_status_only :
  forall nowIso missionId d,
    let dc := Storage.markMissionClosed missionId d in
    let de := Storage.markMissionExported nowIso missionId d in
    map withoutLifecycle (missionsFile dc) = map withoutLifecycle (missionsFile d)
    /\ map withoutLifecycle (missionsFile de) = map withoutLifecycle (missionsFile d)
    /\ submissionsFile dc = submissionsFile d
    /\ submissionsFile de = submissionsFile d
    /\ (NoDup (map Mission.id (missionsFile d)) ->
        forall m now,
          Mission.id m = missionId ->
          ~ In m (Storage.getActiveMissions dc)
          /\ ~ In m (Storage.getActiveMissions de)
          /\ ~ In m (Storage.getMissionsPastDeadline now dc)
          /\ ~ In m (Storage.getMissionsPastDeadline now de)).
Proof.
  intros nowIso missionId d dc de. subst dc de.
  unfold Storage.markMissionClosed, Storage.markMissionExported,
    Storage.getActiveMissions, Storage.getMissionsPastDeadline, Storage.loadMissions.
  destruct (find (fun m => (Mission.id m =? missionId)%string) (missionsFile d))
    as [m0|] eqn:Hf; unfold Storage.saveMissions; cbn [missionsFile submissionsFile].
  - rewrite !map_mutateFirst by reflexivity.
    split; [reflexivity|]. split; [reflexivity|]. split; [reflexivity|].
    split; [reflexivity|].
    intros Hnd m now Hm.
    assert (forall f st, (forall x, Mission.id (f x) = Mission.id x) ->
              (forall x, Mission.status (f x) = st) -> st <> active ->
              forall q,
              ~ In m (filter (fun m => status_eqb (Mission.status m) active && q m)
                        (mutateFirst (fun m => Mission.id m =? missionId)%string f
                           (missionsFile d)))) as Hno.
    { intros f st Hid Hst Hst' q Hc. apply filter_In in Hc as [Hc Hp].
      apply andb_true_iff in Hp as [Hp _]. apply status_eqb_eq in Hp.
      rewrite (mutateFirst_unique_status missionId f st _ Hid Hst Hnd m Hm Hc) in Hp.
      contradiction. }
    assert (forall l : list Mission.t,
              filter (fun m => status_eqb (Mission.status m) active) l
              = filter (fun m => status_eqb (Mission.status m) active && true) l) as Ht
      by (intros l; apply filter_ext; intros a; now rewrite andb_true_r).
    rewrite !Ht.
    split; [|split; [|split]].
    + apply (Hno _ closed); [reflexivity|reflexivity|discriminate].
    + apply (Hno _ exported); [reflexivity|reflexivity|discriminate].
    + apply (Hno _ closed); [reflexivity|reflexivity|discriminate].
    + apply (Hno _ exported); [reflexivity|reflexivity|discriminate].
  - split; [reflexivity|]. split; [reflexivity|]. split; [reflexivity|].
    split; [reflexivity|]. intros _ m now Hm.
    assert (~ In m (missionsFile d)) as Hnot.
    { intros Hc. apply (find_none _ _ Hf) in Hc. subst missionId.
      now rewrite String.eqb_refl in Hc. }
    repeat split; intros Hc; apply filter_In in Hc as [Hc _]; contradiction.
Qed.

Lemma lifecycle_marks_witness :
  let d := disk scenarioWorld in
  NoDup (map Mission.id (missionsFile d))
  /\ ~ In (Mission.set_status closed scenarioMission)
         (Storage.getActiveMissions (Storage.markMissionClosed "mission-1" d))
  /\ ~ In scenarioMission
         (Storage.getMissionsPastDeadline 5000 (Storage.markMissionClosed "mission-1" d)).
Proof.
  intros d.
  assert (NoDup (map Mission.id (missionsFile d))) as Hnd.
  { repeat constructor; simpl; intuition discriminate. }
  destruct (lifecycle_marks_touch_status_only "2026-01-09T00:00:00.000Z" "mission-1" d)
    as (_ & _ & _ & _ & H).
  split; [exact Hnd|]. split.
  - exact (proj1 (H Hnd (Mission.set_status closed scenarioMission) 5000 eq_refl)).
  - exact (proj1 (proj2 (proj2 (H Hnd scenarioMission 5000 eq_refl)))).
Defined.

(** ** storage.ts: the store as a whole *)

Lemma applyCall_append_only c d :
  (exists added, map missionCore (missionsFile (applyCall c d))
                 = (map missionCore (missionsFile d) ++ added)%list)
  /\ (exists added, map submissionCore (submissionsFile (applyCall c d))
                    = (map submissionCore (submissionsFile d) ++ added)%list)
  /\ (NoDup (map Mission.threadId (missionsFile d)) ->
      NoDup (map Mission.threadId (missionsFile (applyCall c d)))).
Proof.
  assert (forall d', missionsFile d' = missionsFile d ->
            (exists added, map missionCore (missionsFile d')
                           = (map missionCore (missionsFile d) ++ added)%list)
            /\ (NoDup (map Mission.threadId (missionsFile d)) ->
                NoDup (map Mission.threadId (missionsFile d')))) as Hm.
  { intros d' ->. split; [exists []; now rewrite app_nil_r|auto]. }
  assert (forall d', submissionsFile d' = submissionsFile d ->
            exists added, map submissionCore (submissionsFile d')
                          = (map submissionCore (submissionsFile d) ++ added)%list) as Hs.
  { intros d' ->. exists []. now rewrite app_nil_r. }
  assert (forall p f,
            (forall x, missionCore (f x) = missionCore x) ->
            (forall x, Mission.threadId (f x) = Mission.threadId x) ->
            (exists added, map missionCore (mutateFirst p f (missionsFile d))
                           = (map missionCore (missionsFile d) ++ added)%list)
            /\ (NoDup (map Mission.threadId (missionsFile d)) ->
                NoDup (map Mission.threadId (mutateFirst p f (missionsFile d))))) as Hmut.
  { intros p f H1 H2. rewrite !map_mutateFirst by assumption.
    split; [exists []; now rewrite app_nil_r|auto]. }
  assert (forall p f,
            (forall x, submissionCore (f x) = submissionCore x) ->
            exists added, map submissionCore (mutateFirst p f (submissionsFile d))
                          = (map submissionCore (submissionsFile d) ++ added)%list) as Hsmut.
  { intros p f H1. rewrite map_mutateFirst by assumption.
    exists []. now rewrite app_nil_r. }
  destruct c as [[now nowIso threadId title deadline brief
                 | missionId | nowIso missionId
                 | now nowIso rnd messageId channelId threadId missionId userId userTag
                       content urls source
                 | nowIso submissionId judgeId score
                 | submissionId judgeId
                 | missionId]
                | missionId tm tc]; simpl.
  - unfold Storage.registerMission, Storage.loadMissions.
    destruct (find _ (missionsFile d)) eqn:Hf; simpl.
    + destruct (Hm d eq_refl) as [H1 H2]. auto.
    + split; [|split; [now apply Hs|]].
      * rewrite map_app. eauto.
      * intros Hnd. rewrite map_app. simpl.
        apply NoDup_app; [exact Hnd|repeat constructor; intros []|].
        intros t Hin [<-|[]]. apply in_map_iff in Hin as (m & Ht & Hin).
        apply (find_none _ _ Hf) in Hin. simpl in Hin.
        rewrite Ht, String.eqb_refl in Hin. discriminate.
  - unfold Storage.markMissionClosed, Storage.loadMissions.
    destruct (find _ (missionsFile d)); simpl.
    + destruct (Hmut (fun m => Mission.id m =? missionId)%string
                  (Mission.set_status closed)) as [H1 H2]; auto.
    + destruct (Hm d eq_refl) as [H1 H2]. auto.
  - unfold Storage.markMissionExported, Storage.loadMissions.
    destruct (find _ (missionsFile d)); simpl.
    + destruct (Hmut (fun m => Mission.id m =? missionId)%string
                  (fun m => Mission.set_exportedAt nowIso
                              (Mission.set_status exported m))) as [H1 H2]; auto.
    + destruct (Hm d eq_refl) as [H1 H2]. auto.
  - destruct (Hm d eq_refl) as [H1 H2]. split; [exact H1|split; [|exact H2]].
    unfold Storage.loadSubmissions. rewrite map_app. eauto.
  - unfold Storage.recordVote, Storage.loadSubmissions.
    destruct (find _ (submissionsFile d)); simpl.
    + destruct (Hm d eq_refl) as [H1 H2]. split; [exact H1|split; [|exact H2]].
      now apply Hsmut.
    + destruct (Hm d eq_refl) as [H1 H2]. auto.
  - unfold Storage.removeVote, Storage.loadSubmissions.
    destruct (find _ (submissionsFile d)); simpl.
    + destruct (Hm d eq_refl) as [H1 H2]. split; [exact H1|split; [|exact H2]].
      now apply Hsmut.
    + destruct (Hm d eq_refl) as [H1 H2]. auto.
  - destruct (Hm d eq_refl) as [H1 H2]. split; [exact H1|split; [|exact H2]].
    unfold Storage.loadSubmissions. exists []. rewrite app_nil_r, map_map.
    apply map_ext. intros x.
    now destruct (Submission.missionId x =? missionId)%string.
  - unfold MissionLinks.updateMissionTelegramInfo, Storage.loadMissions.
    destruct (find _ (missionsFile d)); simpl.
    + destruct (Hmut (fun m => Mission.id m =? missionId)%string
                  (MissionLinks.set_telegram tm tc)) as [H1 H2]; auto.
    + destruct (Hm d eq_refl) as [H1 H2]. auto.
Qed.

(** X6. The store only appends.  Whatever sequence of writing calls of
    [storage.ts] is run, every mission and every submission on disk stays on
    disk, at its position, with every field kept but the mutable ones (a
    mission's status, export time and Telegram link; a submission's votes and
    export flag); new records go to the end.  And if no two missions share a
    thread before, none do after. *)
Theorem store_is_append_only :
  forall cs d,
    let d' := applyCalls cs d in
    (exists added, map missionCore (missionsFile d')
                   = (map missionCore (missionsFile d) ++ added)%list)
    /\ (exists added, map submissionCore (submissionsFile d')
                      = (map submissionCore (submissionsFile d) ++ added)%list)
    /\ (NoDup (map Mission.threadId (missionsFile d)) ->
        NoDup (map Mission.threadId (missionsFile d'))).
Proof.
  intros cs. unfold applyCalls.
  induction cs as [|c cs IH]; intros d; simpl.
  - split; [exists []; now rewrite app_nil_r|].
    split; [exists []; now rewrite app_nil_r|auto].
  - destruct (applyCall_append_only c d) as ([a1 H1] & [a2 H2] & H3).
    destruct (IH (applyCall c d)) as ([b1 I1] & [b2 I2] & I3).
    split; [|split].
    + exists (a1 ++ b1)%list. now rewrite I1, H1, app_assoc.
    + exists (a2 ++ b2)%list. now rewrite I2, H2, app_assoc.
    + auto.
Qed.

Lemma store_is_append_only_witness :
  let cs := [SOp (OpRegisterMission 7 "2026-01-05T00:00:00.000Z" "thread-1"
                    "Again" 9000 None);
             SOp (OpRegisterMission 8 "2026-01-05T00:00:01.000Z" "thread-3"
                    "Third" 9000 None);
             SUpdateMissionTelegramInfo "mission-8" "tg-1" "chat-1";
             SOp (OpMarkMissionClosed "mission-1");
             SOp (OpRemoveVote "sub-1-aaaa" "judge-A")] in
  let d := disk scenarioWorld in
  NoDup (map Mission.threadId (missionsFile d))
  /\ NoDup (map Mission.threadId (missionsFile (applyCalls cs d)))
  /\ List.length (missionsFile (applyCalls cs d)) = 3%nat.
Proof.
  intros cs d.
  assert (NoDup (map Mission.threadId (missionsFile d))) as Hnd.
  { repeat constructor; simpl; intuition discriminate. }
  destruct (store_is_append_only cs d) as (_ & _ & H).
  split; [exact Hnd|]. split; [exact (H Hnd)|reflexivity].
Defined.

Lemma find_mutateFirst_absent {A : Type} (p q : A -> bool) (f : A -> A) (l : list A) :
  (forall x, q (f x) = q x) -> find q l = None -> find q (mutateFirst p f l) = None.
Proof.
  intros Hq. induction l as [|x r IH]; simpl; [reflexivity|].
  destruct (q x) eqn:Hx; [discriminate|]. intros Hn.
  destruct (p x); simpl.
  - now rewrite Hq, Hx.
  - rewrite Hx. auto.
Qed.

Lemma mutateFirst_app_found {A : Type} (p : A -> bool) (f : A -> A) (l l' : list A) :
  find p l <> None -> mutateFirst p f (l ++ l') = (mutateFirst p f l ++ l')%list.
Proof.
  induction l as [|x r IH]; simpl; [intros H; now contradiction H|].
  destruct (p x); [reflexivity|]. intros H. now rewrite IH.
Qed.

(** X7. A mission's id is the clock reading of its registration and nothing
    else.  If no mission carries that id yet, the new mission is the one the
    id denotes and ids stay unique.  If an older mission was registered at
    the same clock reading, both carry the same id: the id keeps denoting the
    older one, and marking by id (here [markMissionExported]) lands on the
    older record and leaves the new mission active, still found by its
    thread. *)
Theorem mission_id_is_the_clock_reading :
  forall now nowIso threadId title deadline brief d,
    Storage.getMissionByThread threadId d = None ->
    let r := Storage.registerMission now nowIso threadId title deadline brief d in
    let id := ("mission-" ++ string_of_Z now)%string in
    Mission.id (fst r) = id
    /\ Mission.status (fst r) = active
    /\ (Storage.getMissionById id d = None ->
        Storage.getMissionById id (snd r) = Some (fst r)
        /\ (NoDup (map Mission.id (missionsFile d)) ->
            NoDup (map Mission.id (missionsFile (snd r)))))
    /\ (forall older,
          Storage.getMissionById id d = Some older ->
          older <> fst r
          /\ Storage.getMissionById id (snd r) = Some older
          /\ forall iso,
               let d' := Storage.markMissionExported iso id (snd r) in
               Storage.getMissionByThread threadId d' = Some (fst r)
               /\ In (fst r) (Storage.getActiveMissions d')).
Proof.
  intros now nowIso threadId title deadline brief d Hthread r id. subst r id.
  unfold Storage.registerMission.
  unfold Storage.getMissionByThread in Hthread. rewrite Hthread.
  cbn [fst snd Mission.id Mission.status].
  unfold Storage.getMissionById, Storage.getMissionByThread, Storage.markMissionExported,
    Storage.getActiveMissions, Storage.saveMissions, Storage.loadMissions in *.
  cbn [missionsFile submissionsFile].
  set (id := ("mission-" ++ string_of_Z now)%string).
  set (mission := Mission.mk id title threadId deadline active nowIso None brief None None).
  split; [reflexivity|]. split; [reflexivity|]. split.
  - intros Hid. split.
    + rewrite find_app_none by exact Hid. simpl. now rewrite String.eqb_refl.
    + intros Hnd. rewrite map_app. simpl.
      apply NoDup_app; [exact Hnd|repeat constructor; intros []|].
      intros t Hin [<-|[]]. apply in_map_iff in Hin as (m & Ht & Hin).
      apply (find_none _ _ Hid) in Hin. simpl in Hin.
      rewrite Ht, String.eqb_refl in Hin. discriminate.
  - intros older Hid.
    assert (In older (missionsFile d)) as Hin by (apply find_some in Hid; tauto).
    split; [|split].
    + intros ->. apply (find_none _ _ Hthread) in Hin. simpl in Hin.
      now rewrite String.eqb_refl in Hin.
    + now apply find_app_some.
    + intros iso. rewrite (find_app_some _ _ _ _ Hid). cbn [missionsFile].
      rewrite mutateFirst_app_found by (rewrite Hid; discriminate).
      split.
      * rewrite find_app_none.
        -- simpl. now rewrite String.eqb_refl.
        -- apply find_mutateFirst_absent; [reflexivity|exact Hthread].
      * apply filter_In. split; [|reflexivity].
        apply in_or_app. right. now left.
Qed.

Lemma mission_id_witness :
  let d := disk scenarioWorld in
  let r := Storage.registerMission 1 "2026-01-06T00:00:00.000Z" "thread-9" "Clash"
             9000 None d in
  Storage.getMissionByThread "thread-9" d = None
  /\ Mission.id (fst r) = Mission.id scenarioMission
  /\ scenarioMission <> fst r
  /\ Storage.getMissionById "mission-1" (snd r) = Some scenarioMission
  /\ In (fst r) (Storage.getActiveMissions
                   (Storage.markMissionExported "2026-01-07T00:00:00.000Z"
                      "mission-1" (snd r))).
Proof.
  intros d r.
  assert (Storage.getMissionByThread "thread-9" d = None) as Hn by reflexivity.
  destruct (mission_id_is_the_clock_reading 1 "2026-01-06T00:00:00.000Z" "thread-9"
              "Clash" 9000 None d Hn) as (Hid & _ & _ & Hold).
  destruct (Hold scenarioMission eq_refl) as (Hne & Hfound & Hmark).
  split; [exact Hn|]. split; [exact Hid|]. split; [exact Hne|].
  split; [exact Hfound|].
  exact (proj2 (Hmark "2026-01-07T00:00:00.000Z")).
Defined.

(** ** sheets.ts: tab titles *)

Lemma string_map_length f s : String.length (string_map f s) = String.length s.
Proof. induction s; simpl; congruence. Qed.

Lemma string_map_app f s t :
  string_map f (s ++ t) = (string_map f s ++ string_map f t)%string.
Proof. induction s; simpl; congruence. Qed.

Lemma string_map_fixed f s :
  forallb (fun c => Ascii.eqb (f c) c) (list_ascii_of_string s) = true ->
  string_map f s = s.
Proof.
  induction s as [|c r IH]; simpl; [reflexivity|].
  intros H. apply andb_true_iff in H as [Hc Hr]. apply Ascii.eqb_eq in Hc.
  now rewrite Hc, IH.
Qed.

Lemma slice_to_length n s : (String.length (slice_to n s) <= n)%nat.
Proof.
  unfold slice_to. revert s. induction n as [|n IH]; intros [|c r]; simpl; try lia.
  specialize (IH r). lia.
Qed.

Lemma slice_to_short n s : (String.length s <= n)%nat -> slice_to n s = s.
Proof.
  unfold slice_to. revert s. induction n as [|n IH]; intros [|c r]; simpl;
    try reflexivity; try lia.
  intros H. rewrite IH by lia. reflexivity.
Qed.

Lemma slice_to_app n s t :
  (n <= String.length s)%nat -> slice_to n (s ++ t) = slice_to n s.
Proof.
  unfold slice_to. revert s. induction n as [|n IH]; intros [|c r]; simpl;
    try reflexivity; try lia.
  - now destruct t.
  - intros H. rewrite IH by lia. reflexivity.
Qed.

Lemma slice_to_chars p n s :
  forallb p (list_ascii_of_string s) = true ->
  forallb p (list_ascii_of_string (slice_to n s)) = true.
Proof.
  unfold slice_to. revert s. induction n as [|n IH]; intros [|c r]; simpl;
    try reflexivity.
  intros H. apply andb_true_iff in H as [Hc Hr]. rewrite Hc. now apply IH.
Qed.

Lemma trimStart_length s : (String.length (trimStart s) <= String.length s)%nat.
Proof. induction s as [|c r IH]; simpl; [lia|]. destruct (isSpace c); simpl; lia. Qed.

Lemma trimStart_chars p s :
  forallb p (list_ascii_of_string s) = true ->
  forallb p (list_ascii_of_string (trimStart s)) = true.
Proof.
  induction s as [|c r IH]; simpl; [reflexivity|].
  intros H. destruct (isSpace c); [|exact H].
  apply andb_true_iff in H as [_ Hr]. now apply IH.
Qed.

Lemma trimStart_first s c : get 0 (trimStart s) = Some c -> isSpace c = false.
Proof.
  induction s as [|a r IH]; simpl; [discriminate|].
  destruct (isSpace a) eqn:Ha; [exact IH|]. simpl. congruence.
Qed.

Lemma trimEnd_length s : (String.length (trimEnd s) <= String.length s)%nat.
Proof.
  induction s as [|c r IH]; simpl; [lia|].
  destruct (trimEnd r); [destruct (isSpace c)|]; simpl in *; lia.
Qed.

Lemma trimEnd_chars p s :
  forallb p (list_ascii_of_string s) = true ->
  forallb p (list_ascii_of_string (trimEnd s)) = true.
Proof.
  induction s as [|c r IH]; simpl; [reflexivity|].
  intros H. apply andb_true_iff in H as [Hc Hr]. specialize (IH Hr).
  destruct (trimEnd r); [destruct (isSpace c)|]; simpl in *; rewrite ?Hc; auto.
Qed.

Lemma trimEnd_first s c :
  isSpace c = false -> exists r, trimEnd (String c s) = String c r.
Proof. intros H. simpl. destruct (trimEnd s); [rewrite H|]; eauto. Qed.

Lemma trimEnd_last s c :
  get (String.length (trimEnd s) - 1) (trimEnd s) = Some c -> isSpace c = false.
Proof.
  induction s as [|a r IH]; simpl; [discriminate|].
  destruct (trimEnd r) as [|b r'] eqn:Hr.
  - destruct (isSpace a) eqn:Ha; simpl; congruence.
  - simpl. simpl in IH. now rewrite Nat.sub_0_r in *.
Qed.

Lemma trimEnd_idem s : trimEnd (trimEnd s) = trimEnd s.
Proof.
  induction s as [|a r IH]; simpl; [reflexivity|].
  destruct (trimEnd r) as [|b r'] eqn:Hr.
  - destruct (isSpace a) eqn:Ha; simpl; [reflexivity|now rewrite Ha].
  - change (trimEnd (String a (String b r'))) with
      (match trimEnd (String b r') with
       | EmptyString => if isSpace a then EmptyString else String a EmptyString
       | x => String a x
       end).
    now rewrite IH.
Qed.

Lemma trim_first s c : get 0 (trim s) = Some c -> isSpace c = false.
Proof.
  unfold trim. destruct (trimStart s) as [|a r] eqn:Hs; [discriminate|].
  assert (isSpace a = false) as Ha by (apply (trimStart_first s); now rewrite Hs).
  destruct (trimEnd_first r a Ha) as [r' ->]. simpl. congruence.
Qed.

Lemma trim_idem s : trim (trim s) = trim s.
Proof.
  unfold trim. destruct (trimEnd (trimStart s)) as [|a r] eqn:Hs; [reflexivity|].
  assert (isSpace a = false) as Ha by (apply (trim_first s); unfold trim; now rewrite Hs).
  cbn [trimStart]. rewrite Ha. rewrite <- Hs. apply trimEnd_idem.
Qed.

Lemma replaced_titleChars s :
  forallb titleChar
    (list_ascii_of_string
       (string_map (fun c => if isForbiddenInTitle c then "-"%char else c) s)) = true.
Proof.
  induction s as [|c r IH]; simpl; [reflexivity|].
  rewrite IH, andb_true_r. unfold titleChar.
  destruct (isForbiddenInTitle c) eqn:Hc; [reflexivity|now rewrite Hc].
Qed.

(** X8. The tab title [sanitizeTitle] computes from an ASCII title has at
    most 100 characters and never more than the title, holds none of the
    characters [* ? : / \ [ ] '], and neither starts nor ends with white
    space; sanitizing it again changes nothing; and of a title of 100
    characters or more only the first 100 count. *)
Theorem sanitizeTitle_spec :
  forall title,
    let t := sanitizeTitle title in
    (String.length t <= 100)%nat
    /\ (String.length t <= String.length title)%nat
    /\ forallb titleChar (list_ascii_of_string t) = true
    /\ (forall c, get 0 t = Some c -> isSpace c = false)
    /\ (forall c, get (String.length t - 1) t = Some c -> isSpace c = false)
    /\ sanitizeTitle t = t
    /\ (forall rest, (100 <= String.length title)%nat ->
                     sanitizeTitle (title ++ rest) = t).
Proof.
  intros title t. subst t. unfold sanitizeTitle.
  set (repl := fun c => if isForbiddenInTitle c then "-"%char else c).
  assert (String.length (trim (slice_to 100 (string_map repl title))) <= 100)%nat as Hlen.
  { unfold trim.
    pose proof (trimEnd_length (trimStart (slice_to 100 (string_map repl title)))).
    pose proof (trimStart_length (slice_to 100 (string_map repl title))).
    pose proof (slice_to_length 100 (string_map repl title)). lia. }
  assert (forallb titleChar
            (list_ascii_of_string (trim (slice_to 100 (string_map repl title)))) = true)
    as Hch.
  { unfold trim. apply trimEnd_chars, trimStart_chars, slice_to_chars.
    apply replaced_titleChars. }
  split; [exact Hlen|]. split; [|split; [exact Hch|split; [|split; [|split]]]].
  - unfold trim.
    pose proof (trimEnd_length (trimStart (slice_to 100 (string_map repl title)))).
    pose proof (trimStart_length (slice_to 100 (string_map repl title))).
    assert (String.length (slice_to 100 (string_map repl title))
            <= String.length title)%nat; [|lia].
    destruct (Nat.le_gt_cases (String.length title) 100).
    + rewrite slice_to_short by (rewrite string_map_length; lia).
      rewrite string_map_length. lia.
    + pose proof (slice_to_length 100 (string_map repl title)). lia.
  - apply trim_first.
  - intros c. unfold trim. apply trimEnd_last.
  - rewrite string_map_fixed.
    + rewrite slice_to_short by exact Hlen. apply trim_idem.
    + revert Hch. generalize (trim (slice_to 100 (string_map repl title))).
      intros s. induction s as [|c r IH]; simpl; [reflexivity|].
      intros H. apply andb_true_iff in H as [Hc Hr]. rewrite IH by exact Hr.
      rewrite andb_true_r. unfold repl, titleChar in *.
      destruct (isForbiddenInTitle c); [discriminate|apply Ascii.eqb_refl].
  - intros rest Hl. rewrite string_map_app.
    rewrite slice_to_app by (rewrite string_map_length; exact Hl). reflexivity.
Qed.

Lemma sanitizeTitle_witness :
  let long := ("0123456789012345678901234567890123456789012345678901234567890123456789"
               ++ "0123456789012345678901234567/ ")%string in
  (100 <= String.length long)%nat
  /\ sanitizeTitle (long ++ " (second round)") = sanitizeTitle long
  /\ String.length (sanitizeTitle long) = 99%nat.
Proof.
  intros long.
  assert (100 <= String.length long)%nat as H by (vm_compute; lia).
  destruct (sanitizeTitle_spec long) as (_ & _ & _ & _ & _ & _ & Hcut).
  split; [exact H|]. split; [exact (Hcut " (second round)" H)|reflexivity].
Defined.

(** ** sheets.ts: the outcome of an export *)

Lemma getSubmissionsByMission_marked_other missionId other d :
  other <> missionId ->
  Storage.getSubmissionsByMission other (Storage.markSubmissionsExported missionId d)
  = Storage.getSubmissionsByMission other d.
Proof.
  intros Hne. unfold Storage.getSubmissionsByMission, Storage.markSubmissionsExported,
    Storage.loadSubmissions. simpl.
  induction (submissionsFile d) as [|s r IH]; simpl; [reflexivity|].
  destruct (Submission.missionId s =? missionId)%string eqn:E; simpl.
  - apply String.eqb_eq in E. rewrite E.
    apply String.eqb_neq in Hne. rewrite String.eqb_sym, Hne. exact IH.
  - now rewrite IH.
Qed.

Lemma markSubmissionsExported_none missionId d :
  Storage.getSubmissionsByMission missionId d = [] ->
  Storage.markSubmissionsExported missionId d = d.
Proof.
  unfold Storage.getSubmissionsByMission, Storage.markSubmissionsExported,
    Storage.saveSubmissions, Storage.loadSubmissions.
  destruct d as [ms ss]. simpl. intros H. f_equal.
  induction ss as [|s r IH]; simpl in *; [reflexivity|].
  destruct (Submission.missionId s =? missionId)%string; [discriminate|].
  now rewrite IH.
Qed.

(** The result object of a failed run, and the calls of any run. *)
Lemma export_failure_result E mission w res :
  fst (exportMissionToSheets E mission w) = Returned res ->
  success res = false ->
  exists msg, res = mkResult false 0 (Some msg).
Proof.
  unfold exportMissionToSheets, tryCatch, bind, getSpreadsheet, readDisk, readDoc,
    clear, addSheet, setHeaderRow, addRows, markMissionExported,
    markSubmissionsExported, storage, ret, external.
  destruct (fault E (trace w) CGetSpreadsheet) eqn:F1; run_step;
    [intros [= <-] _; eauto|].
  destruct (Storage.getSubmissionsByMission (Mission.id mission) (disk w))
    as [|s0 subs] eqn:Hsubs; cbn [List.length Nat.eqb]; run_step;
    [intros [= <-]; discriminate|].
  destruct (sheetsByTitle (sanitizeTitle (Mission.title mission)) (doc w));
    repeat (match goal with
            | |- context [fault E ?tr ?c] =>
                destruct (fault E tr c) eqn:?; run_step;
                [intros [= <-] _; eauto|]
            end);
    intros [= <-]; discriminate.
Qed.

Lemma export_trace E mission w :
  exists added,
    trace (snd (exportMissionToSheets E mission w)) = (trace w ++ added)%list
    /\ forallb isExportCall added = true.
Proof.
  unfold exportMissionToSheets, tryCatch, bind, getSpreadsheet, readDisk, readDoc,
    clear, addSheet, setHeaderRow, addRows, markMissionExported,
    markSubmissionsExported, storage, ret, external.
  destruct (fault E (trace w) CGetSpreadsheet) eqn:F1; run_step;
    [eexists; split; reflexivity|].
  destruct (Storage.getSubmissionsByMission (Mission.id mission) (disk w))
    as [|s0 subs] eqn:Hsubs; cbn [List.length Nat.eqb]; run_step;
    [rewrite <- !app_assoc; eexists; split; reflexivity|].
  destruct (sheetsByTitle (sanitizeTitle (Mission.title mission)) (doc w));
    repeat (match goal with
            | |- context [fault E ?tr ?c] =>
                destruct (fault E tr c) eqn:?; run_step;
                [rewrite <- !app_assoc; eexists; split; reflexivity|]
            end);
    rewrite <- !app_assoc; eexists; split; reflexivity.
Qed.

(** X9. [exportMissionToSheets] never throws and has two outcomes only.
    Either it resolves to [success: true] without an error message and with
    the number of the mission's submissions as row count, and then the
    mission is marked exported and each of its submissions flagged exported,
    nothing else being written to the data directory; or it resolves to
    [success: false] with row count 0 and the message of the error, and the
    data directory is as it was before. *)
Theorem exportMissionToSheets_outcome :
  forall E mission w,
    let r := exportMissionToSheets E mission w in
    let missionId := Mission.id mission in
    (exists res nowIso,
        fst r = Returned res
        /\ success res = true /\ error res = None
        /\ rowCount res = List.length (Storage.getSubmissionsByMission missionId (disk w))
        /\ disk (snd r)
           = Storage.markSubmissionsExported missionId
               (Storage.markMissionExported nowIso missionId (disk w)))
    \/ (exists msg,
          fst r = Returned (mkResult false 0 (Some msg))
          /\ disk (snd r) = disk w).
Proof.
  intros E mission w r missionId. subst r missionId.
  destruct (export_failure_keeps_disk E mission w) as [Hok|[(res & Hres & Hfail) Hdisk]].
  - left. destruct (exportSubmissions mission w) as [|s0 subs] eqn:Hsubs.
    + rewrite (export_empty E mission w Hsubs (succeeded_opened E mission w Hok)).
      unfold exportSubmissions in Hsubs. simpl. rewrite Hsubs.
      eexists; eexists. repeat split.
      rewrite markSubmissionsExported_none; [reflexivity|].
      unfold Storage.getSubmissionsByMission, Storage.loadSubmissions in *.
      now rewrite markMissionExported_submissions.
    + assert (exportSubmissions mission w <> []) as Hne by congruence.
      destruct (export_nonempty_success E mission w Hne Hok) as (nowIso & ->).
      simpl. exists (mkResult true (List.length (exportRows mission w)) None), nowIso.
      repeat split. simpl. apply exportRows_length.
  - right. destruct (export_failure_result E mission w res Hres Hfail) as (msg & ->).
    exists msg. split; [exact Hres|exact Hdisk].
Qed.

(** X10. Tabs are keyed by the sanitized title, not by the mission.  For
    ASCII titles, submission contents and judge ids: when two missions with
    submissions have titles that sanitize to the same string, the first
    successful export writes the first mission's rows to the tab and the
    second successful export replaces them, header included, with the second
    mission's rows. *)
Theorem equal_sanitized_titles_share_a_tab :
  forall E m1 m2 w,
    isAscii (Mission.title m1) = true ->
    isAscii (Mission.title m2) = true ->
    forallb asciiSubmission (submissionsFile (disk w)) = true ->
    exportTitle m1 = exportTitle m2 ->
    Mission.id m1 <> Mission.id m2 ->
    exportSubmissions m1 w <> [] ->
    exportSubmissions m2 w <> [] ->
    let r1 := exportMissionToSheets E m1 w in
    let r2 := exportMissionToSheets E m2 (snd r1) in
    succeeded r1 ->
    succeeded r2 ->
    sheetsByTitle (exportTitle m1) (doc (snd r1))
    = Some (mkSheet (exportHeaders m1 w) (exportRows m1 w))
    /\ sheetsByTitle (exportTitle m1) (doc (snd r2))
       = Some (mkSheet (exportHeaders m2 w) (exportRows m2 w))
    /\ tabRowCount (exportTitle m1) (doc (snd r2))
       = List.length (exportSubmissions m2 w).
Proof.
  intros E m1 m2 w _ _ _ Ht Hid Hs1 Hs2 r1 r2 Hok1 Hok2. subst r2 r1.
  destruct (export_nonempty_success E m1 w Hs1 Hok1) as (iso1 & H1).
  assert (exportSubmissions m2 (snd (exportMissionToSheets E m1 w))
          = exportSubmissions m2 w) as Hsame.
  { rewrite H1. unfold exportSubmissions. cbn [snd disk].
    rewrite getSubmissionsByMission_marked_other by congruence.
    unfold Storage.getSubmissionsByMission, Storage.loadSubmissions.
    now rewrite markMissionExported_submissions. }
  assert (exportSubmissions m2 (snd (exportMissionToSheets E m1 w)) <> []) as Hs2'
    by now rewrite Hsame.
  destruct (export_nonempty_success E m2 _ Hs2' Hok2) as (iso2 & H2).
  rewrite H2. cbn [snd doc]. unfold tabRowCount. rewrite Ht at 2 3.
  rewrite docAfterExport_tab. unfold exportHeaders, exportRows. rewrite Hsame.
  split; [|split; [reflexivity|simpl; apply length_map]].
  rewrite H1. cbn [snd doc]. apply docAfterExport_tab.
Qed.

Lemma shared_tab_witness :
  let r1 := exportMissionToSheets calmEnv slashMission sharedTabWorld in
  let r2 := exportMissionToSheets calmEnv colonMission (snd r1) in
  Mission.title slashMission <> Mission.title colonMission
  /\ isAscii (Mission.title slashMission) = true
  /\ isAscii (Mission.title colonMission) = true
  /\ forallb asciiSubmission (submissionsFile (disk sharedTabWorld)) = true
  /\ exportTitle slashMission = "Q1-Q2 review"
  /\ option_map rows (sheetsByTitle "Q1-Q2 review" (doc (snd r1)))
     = Some [["sub-11-aaaa"; "user-1"; "user#0001"; "https://example.org/a";
              "see https://example.org/a"; "2026-01-02T00:00:00.000Z"; "1"; "4.00"; "4"]]
  /\ option_map rows (sheetsByTitle "Q1-Q2 review" (doc (snd r2)))
     = Some [["sub-12-bbbb"; "user-1"; "user#0001"; "https://example.org/a";
              "see https://example.org/a"; "2026-01-02T00:00:00.000Z"; "0"; "N/A"]].
Proof.
  intros r1 r2.
  assert (exportTitle slashMission = exportTitle colonMission) as Ht by reflexivity.
  assert (Mission.id slashMission <> Mission.id colonMission) as Hid by discriminate.
  assert (exportSubmissions slashMission sharedTabWorld <> []) as Hs1 by discriminate.
  assert (exportSubmissions colonMission sharedTabWorld <> []) as Hs2 by discriminate.
  assert (succeeded r1) as Hok1 by (eexists; split; [vm_compute; reflexivity|reflexivity]).
  assert (succeeded r2) as Hok2 by (eexists; split; [vm_compute; reflexivity|reflexivity]).
  destruct (equal_sanitized_titles_share_a_tab calmEnv slashMission colonMission
              sharedTabWorld eq_refl eq_refl eq_refl Ht Hid Hs1 Hs2 Hok1 Hok2)
    as (H1 & H2 & _).
  split; [discriminate|]. do 4 (split; [reflexivity|]). split.
  - change "Q1-Q2 review" with (exportTitle slashMission).
    fold r1 in H1. rewrite H1. vm_compute. reflexivity.
  - change "Q1-Q2 review" with (exportTitle slashMission).
    fold r1 r2 in H2. rewrite H2. vm_compute. reflexivity.
Defined.

(** ** The earlier deadline checker *)

Lemma export_statusOf E mission w missionId :
  statusOf missionId (snd (exportMissionToSheets E mission w)) = statusOf missionId w
  \/ (missionId = Mission.id mission
      /\ statusOf missionId (snd (exportMissionToSheets E mission w)) = Some exported).
Proof.
  unfold statusOf, Storage.getMissionById, Storage.loadMissions.
  destruct (export_missions E mission w) as [->|(nowIso & ->)]; [now left|].
  fold (Storage.loadMissions (Storage.markMissionExported nowIso (Mission.id mission) (disk w))).
  fold (Storage.getMissionById missionId
          (Storage.markMissionExported nowIso (Mission.id mission) (disk w))).
  fold (Storage.loadMissions (disk w)). fold (Storage.getMissionById missionId (disk w)).
  destruct (String.eqb_spec missionId (Mission.id mission)) as [->|Hne].
  - destruct (Storage.getMissionById (Mission.id mission) (disk w)) as [m|] eqn:Hm.
    + right. split; [reflexivity|].
      now rewrite (markMissionExported_lookup _ _ _ _ Hm).
    + left. unfold Storage.markMissionExported, Storage.getMissionById,
        Storage.loadMissions in *. cbv zeta. rewrite Hm. now rewrite Hm.
  - left. now rewrite markMissionExported_other.
Qed.

(** X11. The earlier [checkDeadlines] only exports.  Whatever fails, a sweep
    returns without throwing; the calls it makes are those of
    [exportMissionToSheets] (no thread is locked, nothing is posted, no
    mission is marked closed); and every mission has afterwards the status
    it had before, or [exported] if it was in the batch: a mission whose
    export failed is still active. *)
Theorem earlier_checker_only_exports :
  forall E now w,
    let r := EarlierChecker.checkDeadlines E now w in
    fst r = Returned tt
    /\ (exists added, trace (snd r) = (trace w ++ added)%list
                      /\ forallb isExportCall added = true)
    /\ (forall missionId,
          statusOf missionId (snd r) = statusOf missionId w
          \/ (statusOf missionId (snd r) = Some exported
              /\ exists m, In m (Storage.getMissionsPastDeadline now (disk w))
                           /\ Mission.id m = missionId)).
Proof.
  intros E now w r. subst r.
  unfold EarlierChecker.checkDeadlines, bind, readDisk. cbn [fst snd].
  assert (forall missions w0,
            fst (EarlierChecker.forOf E missions w0) = Returned tt
            /\ (exists added,
                  trace (snd (EarlierChecker.forOf E missions w0)) = (trace w0 ++ added)%list
                  /\ forallb isExportCall added = true)
            /\ (forall missionId,
                  statusOf missionId (snd (EarlierChecker.forOf E missions w0))
                  = statusOf missionId w0
                  \/ (statusOf missionId (snd (EarlierChecker.forOf E missions w0))
                      = Some exported
                      /\ exists m, In m missions /\ Mission.id m = missionId))) as Hloop.
  { induction missions as [|m0 rest IH]; intros w0; simpl.
    - split; [reflexivity|]. split; [exists []; now rewrite app_nil_r|]. now left.
    - unfold bind.
      destruct (export_always_returns E m0 w0) as (res & Hres).
      destruct (export_trace E m0 w0) as (a1 & Ha1 & Hc1).
      pose proof (fun missionId => export_statusOf E m0 w0 missionId) as Hst.
      destruct (exportMissionToSheets E m0 w0) as [o w1].
      simpl in Hres, Ha1, Hst. subst o.
      destruct (IH w1) as (Hret & (a2 & Ha2 & Hc2) & Hrest).
      split; [exact Hret|]. split.
      + exists (a1 ++ a2)%list. rewrite Ha2, Ha1, app_assoc. split; [reflexivity|].
        rewrite forallb_app, Hc1, Hc2. reflexivity.
      + intros missionId.
        destruct (Hrest missionId) as [Hsame|(Hexp & m & Hin & Hm)].
        * rewrite Hsame. destruct (Hst missionId) as [Hs|[Hm Hs]]; [now left|].
          right. split; [exact Hs|]. exists m0. split; [now left|now symmetry].
        * right. split; [exact Hexp|]. exists m. split; [now right|exact Hm]. }
  destruct (Storage.getMissionsPastDeadline now (disk w)) as [|m0 rest] eqn:Hsel.
  - simpl. split; [reflexivity|]. split; [exists []; now rewrite app_nil_r|]. now left.
  - cbn [List.length Nat.eqb]. apply Hloop.
Qed.

(** ** The deadline checker and the data directory *)

Lemma export_disk E mission w :
  disk (snd (exportMissionToSheets E mission w)) = disk w
  \/ exists nowIso,
       disk (snd (exportMissionToSheets E mission w))
       = Storage.markSubmissionsExported (Mission.id mission)
           (Storage.markMissionExported nowIso (Mission.id mission) (disk w)).
Proof.
  destruct (export_failure_keeps_disk E mission w) as [Hok|[_ Hdisk]]; [|now left].
  right. destruct (exportSubmissions mission w) as [|s0 subs] eqn:Hsubs.
  - rewrite (export_empty E mission w Hsubs (succeeded_opened E mission w Hok)).
    cbn [snd disk]. eexists. rewrite markSubmissionsExported_none; [reflexivity|].
    unfold exportSubmissions, Storage.getSubmissionsByMission,
      Storage.loadSubmissions in *.
    now rewrite markMissionExported_submissions.
  - assert (exportSubmissions mission w <> []) as Hne by congruence.
    destruct (export_nonempty_success E mission w Hne Hok) as (nowIso & ->).
    cbn [snd disk]. eauto.
Qed.

Lemma applyOps_app ops ops' d : applyOps (ops ++ ops') d = applyOps ops' (applyOps ops d).
Proof. unfold applyOps. apply fold_left_app. Qed.

Lemma isMarkOf_weaken ids ids' op :
  incl ids ids' -> isMarkOf ids op = true -> isMarkOf ids' op = true.
Proof.
  intros Hincl. destruct op; simpl; try discriminate; intros H;
    apply existsb_exists in H as (x & Hx & Hm); apply existsb_exists; eauto.
Qed.

Lemma processMission_disk E mission w :
  exists ops,
    disk (snd (processMission E mission w)) = applyOps ops (disk w)
    /\ forallb (isMarkOf [Mission.id mission]) ops = true.
Proof.
  pose proof (announceDeadline_keeps E mission w) as [Hd1 _].
  unfold processMission, bind.
  destruct (announceDeadline E mission w) as [[[]|msg] w1]; cbn [snd] in Hd1;
    [|exists []; split; [exact Hd1|reflexivity]].
  cbn [markMissionClosed storage].
  set (w2 := onDisk (Storage.markMissionClosed (Mission.id mission))
               (logCall (CMarkMissionClosed (Mission.id mission)) w1)).
  assert (disk w2 = applyOps [OpMarkMissionClosed (Mission.id mission)] (disk w)) as Hd2
    by (subst w2; unfold onDisk, logCall; simpl; now rewrite Hd1).
  assert (forallb (isMarkOf [Mission.id mission])
            [OpMarkMissionClosed (Mission.id mission)] = true) as Hm2
    by (simpl; now rewrite String.eqb_refl).
  pose proof (postMissionResultsToChannel_keeps E (Mission.id mission) w2) as [Hd3 _].
  destruct (postMissionResultsToChannel E (Mission.id mission) w2) as [[[]|msg] w3];
    cbn [snd] in Hd3; [|eexists; split; [cbn [snd]; rewrite Hd3; exact Hd2|exact Hm2]].
  unfold exportIfConfigured, bind, ret.
  destruct (sheetsConfigured E);
    [|eexists; split; [cbn [snd]; rewrite Hd3; exact Hd2|exact Hm2]].
  pose proof (export_disk E mission w3) as Hexp.
  destruct (exportMissionToSheets E mission w3) as [[res|msg] w4]; cbn [snd] in *.
  - destruct Hexp as [->|(nowIso & ->)].
    + eexists; split; [rewrite Hd3; exact Hd2|exact Hm2].
    + exists [OpMarkMissionClosed (Mission.id mission);
              OpMarkMissionExported nowIso (Mission.id mission);
              OpMarkSubmissionsExported (Mission.id mission)].
      split; [rewrite Hd3, Hd2; reflexivity|simpl; now rewrite String.eqb_refl].
  - destruct Hexp as [->|(nowIso & ->)].
    + eexists; split; [rewrite Hd3; exact Hd2|exact Hm2].
    + exists [OpMarkMissionClosed (Mission.id mission);
              OpMarkMissionExported nowIso (Mission.id mission);
              OpMarkSubmissionsExported (Mission.id mission)].
      split; [rewrite Hd3, Hd2; reflexivity|simpl; now rewrite String.eqb_refl].
Qed.

Lemma forOf_disk E missions :
  forall w,
    exists ops,
      disk (snd (forOf E missions w)) = applyOps ops (disk w)
      /\ forallb (isMarkOf (map Mission.id missions)) ops = true.
Proof.
  induction missions as [|m0 rest IH]; intros w; simpl.
  - exists []. split; reflexivity.
  - unfold bind.
    destruct (processMission_disk E m0 w) as (ops1 & Hd1 & Hm1).
    destruct (processMission E m0 w) as [[res|msg] w1]; cbn [snd] in *.
    + destruct (IH w1) as (ops2 & Hd2 & Hm2).
      exists (ops1 ++ ops2)%list. split.
      * now rewrite Hd2, Hd1, applyOps_app.
      * rewrite forallb_app. apply andb_true_iff. split.
        -- apply forallb_forall. intros op Hop.
           apply (isMarkOf_weaken [Mission.id m0]); [|
             exact (proj1 (forallb_forall _ _) Hm1 op Hop)].
           intros x [<-|[]]. now left.
        -- apply forallb_forall. intros op Hop.
           apply (isMarkOf_weaken (map Mission.id rest)); [|
             exact (proj1 (forallb_forall _ _) Hm2 op Hop)].
           intros x Hx. now right.
    + exists ops1. split; [exact Hd1|].
      apply forallb_forall. intros op Hop.
      apply (isMarkOf_weaken [Mission.id m0]); [|
        exact (proj1 (forallb_forall _ _) Hm1 op Hop)].
      intros x [<-|[]]. now left.
Qed.

Lemma checkDeadlines_disk E now w :
  exists ops,
    disk (snd (checkDeadlines E now w)) = applyOps ops (disk w)
    /\ forallb (isMarkOf (map Mission.id (Storage.getMissionsPastDeadline now (disk w))))
         ops = true.
Proof.
  unfold checkDeadlines, bind, readDisk. cbn [fst snd].
  destruct (Storage.getMissionsPastDeadline now (disk w)) as [|m0 rest] eqn:Hsel.
  - exists []. split; reflexivity.
  - cbn [List.length Nat.eqb]. apply forOf_disk.
Qed.

Lemma marks_keep_records ids ops :
  forallb (isMarkOf ids) ops = true ->
  forall d,
    map withoutLifecycle (missionsFile (applyOps ops d))
    = map withoutLifecycle (missionsFile d)
    /\ map (Submission.set_exported false) (submissionsFile (applyOps ops d))
       = map (Submission.set_exported false) (submissionsFile d).
Proof.
  unfold applyOps. induction ops as [|op ops IH]; simpl; intros H d; [auto|].
  apply andb_true_iff in H as [Hop Hops].
  destruct (IH Hops (applyOp op d)) as [-> ->].
  destruct op; simpl in Hop; try discriminate; simpl.
  - unfold Storage.markMissionClosed, Storage.loadMissions.
    destruct (find _ (missionsFile d)); [|auto].
    simpl. now rewrite map_mutateFirst by reflexivity.
  - unfold Storage.markMissionExported, Storage.loadMissions.
    destruct (find _ (missionsFile d)); [|auto].
    simpl. now rewrite map_mutateFirst by reflexivity.
  - split; [reflexivity|]. unfold Storage.loadSubmissions.
    rewrite map_map. apply map_ext. intros x.
    now destruct (Submission.missionId x =? missionId)%string.
Qed.

(** X12. Whatever its collaborators do, a sweep of [checkDeadlines] writes
    to the data directory by marking only: the directory after the sweep is
    the one before with [markMissionClosed], [markMissionExported] and
    [markSubmissionsExported] applied to ids of missions the sweep selected.
    So a sweep adds and removes no record, changes nothing of a mission but
    its status and export time, and nothing of a submission (votes included)
    but its export flag. *)
Theorem sweep_only_marks :
  forall E now w,
    let r := checkDeadlines E now w in
    (exists ops,
        disk (snd r) = applyOps ops (disk w)
        /\ forallb (isMarkOf (map Mission.id
                                (Storage.getMissionsPastDeadline now (disk w)))) ops = true)
    /\ map withoutLifecycle (missionsFile (disk (snd r)))
       = map withoutLifecycle (missionsFile (disk w))
    /\ map (Submission.set_exported false) (submissionsFile (disk (snd r)))
       = map (Submission.set_exported false) (submissionsFile (disk w)).
Proof.
  intros E now w r. subst r.
  destruct (checkDeadlines_disk E now w) as (ops & Hd & Hm).
  split; [eauto|]. rewrite Hd. exact (marks_keep_records _ ops Hm (disk w)).
Qed.

Lemma find_unique_id (l : list Mission.t) (m : Mission.t) :
  NoDup (map Mission.id l) -> In m l ->
  find (fun x => Mission.id x =? Mission.id m)%string l = Some m.
Proof.
  induction l as [|x r IH]; simpl; [intros _ []|].
  intros Hnd Hin. inversion Hnd as [|? ? Hx Hr]; subst.
  destruct Hin as [->|Hin]; [now rewrite String.eqb_refl|].
  destruct (Mission.id x =? Mission.id m)%string eqn:E; [|auto].
  apply String.eqb_eq in E. exfalso. apply Hx. rewrite E. now apply in_map.
Qed.

(** X13. A mission is swept once.  When mission ids are unique and no
    collaborator call throws, a mission selected by one sweep of
    [checkDeadlines] is selected by no later scan, whether its export
    succeeded, failed or was skipped: a failed export is not tried again. *)
Theorem swept_missions_are_not_selected_again :
  forall E now later w,
    collaboratorsReturn E ->
    NoDup (map Mission.id (missionsFile (disk w))) ->
    let w' := snd (checkDeadlines E now w) in
    forall m m',
      In m (Storage.getMissionsPastDeadline now (disk w)) ->
      In m' (Storage.getMissionsPastDeadline later (disk w')) ->
      Mission.id m' <> Mission.id m.
Proof.
  intros E now later w Hquiet Hnd w' m m' Hm Hm' Heq.
  assert (NoDup (map Mission.id (missionsFile (disk w')))) as Hnd'.
  { subst w'. destruct (checkDeadlines_disk E now w) as (ops & Hd & Hmk).
    rewrite Hd.
    destruct (marks_keep_records _ ops Hmk (disk w)) as [Hkeep _].
    assert (forall l, map Mission.id l = map Mission.id (map withoutLifecycle l)) as Hid
      by (intros l; rewrite map_map; reflexivity).
    now rewrite (Hid (missionsFile (applyOps ops (disk w)))), Hkeep, <- Hid. }
  assert (closedOrExported (Mission.id m) w') as Hdone.
  { subst w'. unfold checkDeadlines, bind, readDisk. cbn [fst snd].
    destruct (Storage.getMissionsPastDeadline now (disk w)) as [|m0 rest] eqn:Hsel;
      [destruct Hm|].
    cbn [List.length Nat.eqb]. apply (forOf_closes_all E Hquiet); [|exact Hm].
    intros x Hx. rewrite <- Hsel in Hx.
    destruct (getMissionsPastDeadline_found now (disk w) x Hx) as (x' & Hx').
    unfold statusOf. rewrite Hx'. discriminate. }
  unfold Storage.getMissionsPastDeadline, Storage.loadMissions in Hm'.
  apply filter_In in Hm' as [Hin Hact].
  apply andb_true_iff in Hact as [Hact _]. apply status_eqb_eq in Hact.
  unfold closedOrExported, statusOf, Storage.getMissionById, Storage.loadMissions in Hdone.
  rewrite <- Heq in Hdone. rewrite (find_unique_id _ m' Hnd' Hin) in Hdone.
  simpl in Hdone. rewrite Hact in Hdone. destruct Hdone; discriminate.
Qed.

Lemma swept_once_witness :
  let w' := snd (checkDeadlines lockAndWriteFailEnv 1500 scenarioWorld) in
  In scenarioMission (Storage.getMissionsPastDeadline 1500 (disk scenarioWorld))
  /\ statusOf "mission-1" w' = Some closed
  /\ forall m', In m' (Storage.getMissionsPastDeadline 99999 (disk w')) ->
                Mission.id m' <> Mission.id scenarioMission.
Proof.
  intros w'.
  assert (collaboratorsReturn lockAndWriteFailEnv) as Hq
    by (intros tr c Hc; destruct c; (discriminate || reflexivity)).
  assert (NoDup (map Mission.id (missionsFile (disk scenarioWorld)))) as Hnd.
  { repeat constructor; simpl; intuition discriminate. }
  assert (In scenarioMission (Storage.getMissionsPastDeadline 1500 (disk scenarioWorld)))
    as Hin by (left; reflexivity).
  split; [exact Hin|]. split; [vm_compute; reflexivity|].
  intros m' Hm'.
  exact (swept_missions_are_not_selected_again lockAndWriteFailEnv 1500 99999
           scenarioWorld Hq Hnd scenarioMission m' Hin Hm').
Defined.

(** ** The deadline sweep with best-effort collaborators *)






(** ** discord.ts: the event handlers *)

Lemma find_mutateFirst_const {A : Type} (p : A -> bool) (c : A) (l : list A) :
  find p l <> None -> p c = true ->
  find p (mutateFirst p (fun _ => c) l) = Some c.
Proof.
  intros Hf Hc. induction l as [|x r IH]; simpl in *; [now contradiction Hf|].
  destruct (p x) eqn:Hx; simpl; [now rewrite Hc|]. rewrite Hx. auto.
Qed.

Lemma In_mutateFirst {A : Type} (p : A -> bool) (f : A -> A) (l : list A) (y : A) :
  In y (mutateFirst p f l) -> In y l \/ exists x, In x l /\ y = f x.
Proof.
  induction l as [|x r IH]; simpl; [intros []|].
  destruct (p x); simpl.
  - intros [<-|H]; [right; eauto|auto].
  - intros [<-|H]; [auto|]. destruct (IH H) as [H'|(x' & H' & ->)]; [auto|].
    right. eauto.
Qed.

Lemma Forall2_mutateFirst {A : Type} (R : A -> A -> Prop) (p : A -> bool)
    (f : A -> A) (l : list A) :
  (forall x, R x x) -> (forall x, R x (f x)) -> Forall2 R l (mutateFirst p f l).
Proof.
  intros Hr Hf. induction l as [|x r IH]; simpl; [constructor|].
  destruct (p x); constructor; auto.
  clear IH. induction r; constructor; auto.
Qed.

Lemma Forall2_same {A : Type} (R : A -> A -> Prop) (l : list A) :
  (forall x, R x x) -> Forall2 R l l.
Proof. intros Hr. induction l; constructor; auto. Qed.

Lemma mapGet_mapSet key value m :
  Discord.mapGet key (Discord.mapSet key value m) = Some value.
Proof.
  unfold Discord.mapGet, Discord.mapSet.
  destruct (find (fun e => (fst e =? key)%string) m) as [e|] eqn:Hf.
  - rewrite find_mutateFirst_const; [reflexivity|rewrite Hf; discriminate|].
    simpl. apply String.eqb_refl.
  - rewrite find_app_none by exact Hf. simpl. now rewrite String.eqb_refl.
Qed.

Lemma In_mapSet key value m e :
  In e (Discord.mapSet key value m) -> e = (key, value) \/ In e m.
Proof.
  unfold Discord.mapSet. destruct (find _ m).
  - intros H. apply In_mutateFirst in H as [H|(x & _ & ->)]; auto.
  - intros H. apply in_app_or in H as [H|[<-|[]]]; auto.
Qed.

Lemma mapGet_In key value m : Discord.mapGet key m = Some value -> In (key, value) m.
Proof.
  unfold Discord.mapGet. destruct (find _ m) as [[k v]|] eqn:Hf; [|discriminate].
  simpl. intros [= ->]. apply find_some in Hf as [Hin Hk]. simpl in Hk.
  apply String.eqb_eq in Hk. now subst k.
Qed.

(** The index can only follow a store that keeps its submissions. *)
Lemma cacheSound_store d d' c :
  (forall s, In s (submissionsFile d) ->
             exists s', In s' (submissionsFile d')
                        /\ Submission.messageId s' = Submission.messageId s
                        /\ Submission.id s' = Submission.id s) ->
  cacheSound (Discord.mkBot d c) -> cacheSound (Discord.mkBot d' c).
Proof.
  intros Hkeep Hc messageId submissionId Hin.
  destruct (Hc messageId submissionId Hin) as (s & Hs & <- & <-).
  simpl in Hs. destruct (Hkeep s Hs) as (s' & Hs' & Hm & Hi). exists s'. auto.
Qed.

Lemma Forall2_keeps_submissions user d d' :
  onlyVotesOf user d d' ->
  forall s, In s (submissionsFile d) ->
            exists s', In s' (submissionsFile d')
                       /\ Submission.messageId s' = Submission.messageId s
                       /\ Submission.id s' = Submission.id s.
Proof.
  intros [_ H]. induction H as [|x y l l' [Hxy _] _ IH]; intros s; [intros []|].
  intros [<-|Hin].
  - exists y. split; [now left|].
    apply (f_equal Submission.messageId) in Hxy as Hm.
    apply (f_equal Submission.id) in Hxy as Hi. auto.
  - destruct (IH s Hin) as (s' & Hs' & Hrest). exists s'. split; [now right|exact Hrest].
Qed.

Lemma lookupSubmission_sound remember messageId b submissionId b1 :
  cacheSound b ->
  Discord.lookupSubmission remember messageId b = Some (submissionId, b1) ->
  (exists s, In s (submissionsFile (Discord.store b))
             /\ Submission.messageId s = messageId
             /\ Submission.id s = submissionId)
  /\ Discord.store b1 = Discord.store b
  /\ cacheSound b1.
Proof.
  intros Hc. unfold Discord.lookupSubmission.
  assert (match Storage.getSubmissionByMessage messageId (Discord.store b) with
          | Some submission =>
              Some (Submission.id submission,
                    if remember
                    then Discord.mkBot (Discord.store b)
                           (Discord.mapSet messageId (Submission.id submission)
                              (Discord.messageToSubmissionId b))
                    else b)
          | None => None
          end = Some (submissionId, b1) ->
          (exists s, In s (submissionsFile (Discord.store b))
                     /\ Submission.messageId s = messageId
                     /\ Submission.id s = submissionId)
          /\ Discord.store b1 = Discord.store b
          /\ cacheSound b1) as Hstorage.
  { unfold Storage.getSubmissionByMessage, Storage.loadSubmissions.
    destruct (find _ (submissionsFile (Discord.store b))) as [s|] eqn:Hf; [|discriminate].
    apply find_some in Hf as [Hin Hm]. apply String.eqb_eq in Hm.
    intros [= <- <-]. split; [eauto|].
    destruct remember; [|auto]. split; [reflexivity|].
    intros mid sid Hin'. simpl in *.
    apply In_mapSet in Hin' as [[= -> ->]|Hin']; [eauto|]. now apply Hc. }
  destruct (Discord.mapGet messageId (Discord.messageToSubmissionId b)) as [sid|] eqn:Hg;
    [|exact Hstorage].
  destruct (sid =? "")%string; [exact Hstorage|].
  intros [= <- <-]. split; [|auto]. apply Hc. now apply mapGet_In.
Qed.

Lemma In_upsertVote vote votes v :
  In v (Storage.upsertVote vote votes) -> v = vote \/ In v votes.
Proof.
  unfold Storage.upsertVote.
  destruct (findIndex _ votes) as [i|].
  - revert i. induction votes as [|w r IH]; intros [|i]; simpl; try tauto.
    + intros [<-|H]; auto.
    + intros [<-|H]; [auto|]. destruct (IH i H); auto.
  - intros H. apply in_app_or in H as [H|[<-|[]]]; auto.
Qed.

Lemma recordVote_onlyVotesOf nowIso submissionId user score d :
  onlyVotesOf user d (Storage.recordVote nowIso submissionId user score d).
Proof.
  unfold onlyVotesOf, Storage.recordVote, Storage.loadSubmissions.
  destruct (find _ (submissionsFile d)); simpl.
  - split; [reflexivity|]. apply Forall2_mutateFirst; [auto|].
    intros x. split; [reflexivity|]. intros j Hj. simpl.
    apply votesBy_upsertVote_other. simpl. congruence.
  - split; [reflexivity|]. apply Forall2_same. auto.
Qed.

Lemma removeVote_onlyVotesOf submissionId user d :
  onlyVotesOf user d (Storage.removeVote submissionId user d).
Proof.
  unfold onlyVotesOf, Storage.removeVote, Storage.loadSubmissions.
  destruct (find _ (submissionsFile d)); simpl.
  - split; [reflexivity|]. apply Forall2_mutateFirst; [auto|].
    intros x. split; [reflexivity|]. intros j Hj. simpl.
    now apply votesBy_removed_other.
  - split; [reflexivity|]. apply Forall2_same. auto.
Qed.

Lemma recordVote_scoresInRange nowIso submissionId user score d :
  1 <= score <= 5 -> scoresInRange d ->
  scoresInRange (Storage.recordVote nowIso submissionId user score d).
Proof.
  intros Hn Hr. unfold Storage.recordVote, Storage.loadSubmissions.
  destruct (find _ (submissionsFile d)); [|exact Hr].
  intros s v Hs Hv. simpl in Hs.
  apply In_mutateFirst in Hs as [Hs|(x & Hx & ->)]; [now apply (Hr s v)|].
  simpl in Hv. apply In_upsertVote in Hv as [->|Hv]; [exact Hn|now apply (Hr x v)].
Qed.

Lemma removeVote_scoresInRange submissionId user d :
  scoresInRange d -> scoresInRange (Storage.removeVote submissionId user d).
Proof.
  intros Hr. unfold Storage.removeVote, Storage.loadSubmissions.
  destruct (find _ (submissionsFile d)); [|exact Hr].
  intros s v Hs Hv. simpl in Hs.
  apply In_mutateFirst in Hs as [Hs|(x & Hx & ->)]; [now apply (Hr s v)|].
  simpl in Hv. apply filter_In in Hv as [Hv _]. now apply (Hr x v).
Qed.

Lemma voteEmoji_own emoji score :
  Discord.voteEmoji emoji = Discord.Own score ->
  In (emoji, score) Discord.VOTE_EMOJIS /\ 1 <= score <= 5.
Proof.
  unfold Discord.voteEmoji.
  destruct (find _ Discord.VOTE_EMOJIS) as [[e n]|] eqn:Hf.
  - intros [= <-]. apply find_some in Hf as [Hin He]. simpl in He.
    apply String.eqb_eq in He. subst e. split; [exact Hin|].
    simpl in Hin.
    repeat (destruct Hin as [Hin|Hin]; [injection Hin as _ <-; lia|]).
    destruct Hin.
  - destruct (existsb _ _); discriminate.
Qed.

Lemma voteEmoji_inherited emoji :
  Discord.voteEmoji emoji = Discord.Inherited -> In emoji Discord.objectPrototypeKeys.
Proof.
  unfold Discord.voteEmoji. destruct (find _ Discord.VOTE_EMOJIS); [discriminate|].
  destruct (existsb _ _) eqn:He; [|discriminate]. intros _.
  apply existsb_exists in He as (x & Hx & He). apply String.eqb_eq in He. now subst.
Qed.

(** X14. A message is taken for a submission when its author is no bot, it
    is posted in a thread of the mission channel and the URL match on its
    content is not empty; any other message leaves the bot as it was.  For a
    submission message the handler appends exactly one submission, without
    votes and not exported, which belongs to the mission of the thread: the
    mission the thread already had, or else a new active one with the thread's
    name and the default deadline, appended to [missions.json].  The index maps
    the message to the new submission, and the reactions added are a prefix of
    the confirmation emoji followed by the key caps 1 to 5. *)
Theorem message_with_url_becomes_submission :
  forall chan now nowIso defaultDeadline now' nowIso' rnd failAt message b,
    let r := Discord.onMessageCreate chan now nowIso defaultDeadline now' nowIso' rnd
               failAt message b in
    let b' := fst r in
    let thread := Discord.Message.threadId message in
    if isSubmissionMessage chan message then
      exists mission submission,
        Storage.getMissionByThread thread (Discord.store b') = Some mission
        /\ match Storage.getMissionByThread thread (Discord.store b) with
           | Some known =>
               mission = known
               /\ missionsFile (Discord.store b') = missionsFile (Discord.store b)
           | None =>
               missionsFile (Discord.store b')
               = (missionsFile (Discord.store b) ++ [mission])%list
               /\ Mission.status mission = active
               /\ Mission.title mission = Discord.Message.threadName message
               /\ Mission.deadline mission = defaultDeadline
           end
        /\ submissionsFile (Discord.store b')
           = (submissionsFile (Discord.store b) ++ [submission])%list
        /\ Submission.missionId submission = Mission.id mission
        /\ Submission.threadId submission = thread
        /\ Submission.messageId submission = Discord.Message.id message
        /\ Submission.urls submission = Discord.Message.urls message
        /\ Submission.votes submission = []
        /\ Submission.exported submission = false
        /\ Submission.source submission = discord
        /\ Discord.mapGet (Discord.Message.id message) (Discord.messageToSubmissionId b')
           = Some (Submission.id submission)
        /\ exists rest,
             (snd r ++ rest)%list
             = Discord.CONFIRMATION_EMOJI :: Discord.VOTE_EMOJI_ORDER
    else r = (b, []).
Proof.
  intros chan now nowIso defaultDeadline now' nowIso' rnd failAt message b r b' thread.
  subst r b' thread.
  unfold isSubmissionMessage, Discord.onMessageCreate.
  destruct (Discord.Message.authorBot message); [reflexivity|].
  destruct (Discord.Message.isThread message); [|reflexivity].
  destruct (match Discord.Message.parentId message with
            | Some parent => (parent =? chan)%string
            | None => false
            end); [|reflexivity].
  destruct (Discord.Message.urls message) as [|u us] eqn:Hurls; [reflexivity|].
  cbn [negb andb List.length Nat.eqb].
  assert (exists rest, (Discord.reactionsAdded failAt ++ rest)%list
                       = Discord.CONFIRMATION_EMOJI :: Discord.VOTE_EMOJI_ORDER) as Hreact.
  { unfold Discord.reactionsAdded. destruct failAt as [k|].
    - exists (skipn k (Discord.CONFIRMATION_EMOJI :: Discord.VOTE_EMOJI_ORDER)).
      apply firstn_skipn.
    - exists []. apply app_nil_r. }
  pose proof (registerMission_found now nowIso (Discord.Message.threadId message)
                (Discord.Message.threadName message) defaultDeadline None
                (Discord.store b)) as Hfound.
  destruct (Storage.getMissionByThread (Discord.Message.threadId message)
              (Discord.store b)) as [known|] eqn:Hknown.
  - unfold Storage.createSubmission, Storage.saveSubmissions, Storage.loadSubmissions.
    cbn [fst snd Discord.store Discord.messageToSubmissionId missionsFile submissionsFile].
    eexists known, _. split; [exact Hknown|].
    split; [split; reflexivity|].
    repeat (split; [reflexivity|]). split; [apply mapGet_mapSet|exact Hreact].
  - unfold Storage.registerMission in *. unfold Storage.getMissionByThread in Hknown.
    rewrite Hknown in *. cbn [fst snd] in Hfound.
    unfold Storage.createSubmission, Storage.saveSubmissions, Storage.loadSubmissions,
      Storage.loadMissions in *.
    cbn [fst snd Discord.store Discord.messageToSubmissionId missionsFile submissionsFile]
      in *.
    eexists _, _. split; [exact Hfound|].
    split; [repeat split|].
    repeat (split; [reflexivity|]). split; [apply mapGet_mapSet|exact Hreact].
Qed.

Lemma message_handler_witness :
  isSubmissionMessage "chan-missions" submissionMessage = true
  /\ List.length (missionsFile (Discord.store botAfterSubmission)) = 1%nat
  /\ map Submission.missionId (submissionsFile (Discord.store botAfterSubmission))
     = ["mission-21"]
  /\ Discord.messageToSubmissionId botAfterSubmission = [("msg-21", "sub-22-k3x9")].
Proof.
  pose proof (message_with_url_becomes_submission "chan-missions" 21
                "2026-03-01T00:00:00.000Z" 9000 22 "2026-03-01T00:00:01.000Z" "k3x9"
                None submissionMessage (Discord.mkBot emptyDisk [])) as H.
  cbv zeta in H.
  change (isSubmissionMessage "chan-missions" submissionMessage) with true in H.
  cbv iota in H. destruct H as (mission & submission & _ & _ & Hsubs & Hmid & _).
  split; [reflexivity|]. split; [reflexivity|]. split; reflexivity.
Defined.

(** X15. The reaction-add handler writes in one case only.  If a run changes
    the data directory, then the user is no bot, the member holds a judge
    role, the emoji is one of the five key caps, and the change is
    [recordVote] of that key cap's score, a number from 1 to 5, for that user
    on a submission of the reacted message.  Reactions of users without a
    judge role, and reactions with any other emoji, leave the data directory
    as it was.  The only emoji names that take a judge's reaction past the
    score check without a number are the property names of
    [Object.prototype]. *)
Theorem only_a_judge_keycap_records_a_vote :
  forall judgeRoleIds nowIso reaction b,
    cacheSound b ->
    match Discord.onReactionAdd judgeRoleIds nowIso reaction b with
    | Discord.Handled b' action =>
        (Discord.store b' = Discord.store b
         /\ forall submissionId score, action <> Discord.VoteRecorded submissionId score)
        \/ exists submissionId score emoji s,
             action = Discord.VoteRecorded submissionId score
             /\ Discord.Reaction.userBot reaction = false
             /\ Discord.hasJudgeRole judgeRoleIds (Discord.Reaction.member reaction) = true
             /\ Discord.Reaction.emojiName reaction = Some emoji
             /\ In (emoji, score) Discord.VOTE_EMOJIS
             /\ 1 <= score <= 5
             /\ In s (submissionsFile (Discord.store b))
             /\ Submission.messageId s = Discord.Reaction.messageId reaction
             /\ Submission.id s = submissionId
             /\ Discord.store b'
                = Storage.recordVote nowIso submissionId
                    (Discord.Reaction.userId reaction) score (Discord.store b)
    | Discord.ScoreNotANumber submissionId judgeId =>
        exists emoji,
          Discord.Reaction.emojiName reaction = Some emoji
          /\ In emoji Discord.objectPrototypeKeys
          /\ Discord.hasJudgeRole judgeRoleIds (Discord.Reaction.member reaction) = true
          /\ judgeId = Discord.Reaction.userId reaction
    end.
Proof.
  intros judgeRoleIds nowIso reaction b Hc.
  assert (forall b0, Discord.store b0 = Discord.store b ->
            (Discord.store b0 = Discord.store b
             /\ forall submissionId score,
                  Discord.Ignored <> Discord.VoteRecorded submissionId score)) as Hign
    by (intros b0 H0; split; [exact H0|discriminate]).
  unfold Discord.onReactionAdd.
  destruct (Discord.Reaction.userBot reaction) eqn:Hbot; [left; now apply Hign|].
  destruct (Discord.Reaction.fetchThrows reaction); [left; now apply Hign|].
  destruct (Discord.Reaction.emojiName reaction) as [emoji|] eqn:Hemoji;
    [|left; now apply Hign].
  destruct (emoji =? "")%string; [left; now apply Hign|].
  destruct (Discord.voteEmoji emoji) as [score| |] eqn:Hvote; [| |left; now apply Hign].
  - destruct (Discord.lookupSubmission true (Discord.Reaction.messageId reaction) b)
      as [[submissionId b1]|] eqn:Hlook; [|left; now apply Hign].
    destruct (lookupSubmission_sound _ _ _ _ _ Hc Hlook) as ((s & Hs & Hm & Hi) & Hst & _).
    destruct (voteEmoji_own _ _ Hvote) as [Hin Hrange].
    destruct (Discord.Reaction.member reaction) as [roles|roles| |] eqn:Hmem;
      try (left; now apply Hign).
    + destruct (Discord.hasJudgeRole judgeRoleIds (Discord.Cached roles)) eqn:Hj.
      * right. exists submissionId, score, emoji, s. simpl. rewrite Hst.
        repeat split; auto; lia.
      * left. split; [exact Hst|discriminate].
    + destruct (Discord.hasJudgeRole judgeRoleIds (Discord.Fetched roles)) eqn:Hj.
      * right. exists submissionId, score, emoji, s. simpl. rewrite Hst.
        repeat split; auto; lia.
      * left. split; [exact Hst|discriminate].
    + simpl. left. split; [exact Hst|discriminate].
  - destruct (Discord.lookupSubmission true (Discord.Reaction.messageId reaction) b)
      as [[submissionId b1]|] eqn:Hlook; [|left; now apply Hign].
    destruct (lookupSubmission_sound _ _ _ _ _ Hc Hlook) as (_ & Hst & _).
    pose proof (voteEmoji_inherited _ Hvote) as Hinh.
    destruct (Discord.Reaction.member reaction) as [roles|roles| |] eqn:Hmem;
      try (left; now apply Hign).
    + destruct (Discord.hasJudgeRole judgeRoleIds (Discord.Cached roles)) eqn:Hj.
      * exists emoji. auto.
      * left. split; [exact Hst|discriminate].
    + destruct (Discord.hasJudgeRole judgeRoleIds (Discord.Fetched roles)) eqn:Hj.
      * exists emoji. auto.
      * left. split; [exact Hst|discriminate].
    + simpl. left. split; [exact Hst|discriminate].
Qed.

Lemma botAfterSubmission_sound : cacheSound botAfterSubmission.
Proof.
  intros messageId submissionId [[= <- <-]|[]].
  eexists. split; [left; reflexivity|]. split; reflexivity.
Qed.

Lemma judge_keycap_witness :
  let reaction := clickOf "4" "judge-A" judgeRoles in
  cacheSound botAfterSubmission
  /\ match Discord.onReactionAdd judgeRoles "2026-03-02T00:00:00.000Z" reaction
             botAfterSubmission with
     | Discord.Handled b' (Discord.VoteRecorded submissionId score) =>
         submissionId = "sub-22-k3x9" /\ score = 4
         /\ map Submission.votes (submissionsFile (Discord.store b'))
            = [[Vote.mk "judge-A" 4 "2026-03-02T00:00:00.000Z"]]
     | _ => False
     end.
Proof.
  intros reaction.
  pose proof (only_a_judge_keycap_records_a_vote judgeRoles "2026-03-02T00:00:00.000Z"
                reaction botAfterSubmission botAfterSubmission_sound) as H.
  split; [exact botAfterSubmission_sound|].
  destruct (Discord.onReactionAdd judgeRoles "2026-03-02T00:00:00.000Z" reaction
              botAfterSubmission) as [b' action|sid j] eqn:Hrun.
  - vm_compute in Hrun. injection Hrun as <- <-. repeat split.
  - vm_compute in Hrun. discriminate.
Defined.

(** X16. The reaction-remove handler asks for no role and does not look at
    which vote emoji was removed.  Whenever a user who is no bot removes a
    reaction whose emoji is a key cap 1 to 5 (or bears the name of a property
    of [Object.prototype]) from the message of a submission, the handler
    calls [removeVote] for that user on a submission of that message; if the
    index or storage names the submission that lookups by id find, that
    submission is left without any vote of the user, whatever score the vote
    carried.  The index is not written. *)
Theorem removing_any_vote_emoji_removes_the_vote :
  forall reaction b emoji,
    cacheSound b ->
    Discord.Reaction.userBot reaction = false ->
    Discord.Reaction.emojiName reaction = Some emoji ->
    Discord.voteEmoji emoji <> Discord.Undefined ->
    let user := Discord.Reaction.userId reaction in
    let r := Discord.onReactionRemove reaction b in
    Discord.messageToSubmissionId (fst r) = Discord.messageToSubmissionId b
    /\ match Discord.lookupSubmission false (Discord.Reaction.messageId reaction) b with
       | None => r = (b, Discord.Ignored)
       | Some (submissionId, _) =>
           snd r = Discord.VoteRemoved submissionId
           /\ Discord.store (fst r)
              = Storage.removeVote submissionId user (Discord.store b)
           /\ (exists s, In s (submissionsFile (Discord.store b))
                         /\ Submission.messageId s = Discord.Reaction.messageId reaction
                         /\ Submission.id s = submissionId)
           /\ forall s', Storage.getSubmissionById submissionId (Discord.store (fst r))
                         = Some s' ->
                         votesBy user (Submission.votes s') = []
       end.
Proof.
  intros reaction b emoji Hc Hbot Hemoji Hvote user r. subst user r.
  unfold Discord.onReactionRemove. rewrite Hbot, Hemoji.
  assert ((emoji =? "")%string = false) as ->.
  { apply String.eqb_neq. intros ->. now apply Hvote. }
  assert (match Discord.voteEmoji emoji with
          | Discord.Own score => score =? 0
          | Discord.Inherited => false
          | Discord.Undefined => true
          end = false) as ->.
  { destruct (Discord.voteEmoji emoji) as [score| |] eqn:Hv;
      [|reflexivity|now contradiction Hvote].
    destruct (voteEmoji_own _ _ Hv) as [_ Hr]. apply Z.eqb_neq. lia. }
  destruct (Discord.lookupSubmission false (Discord.Reaction.messageId reaction) b)
    as [[submissionId b1]|] eqn:Hlook; [|split; reflexivity].
  destruct (lookupSubmission_sound _ _ _ _ _ Hc Hlook) as (Hs & _ & _).
  cbn [fst snd Discord.store Discord.messageToSubmissionId].
  split; [reflexivity|]. split; [reflexivity|]. split; [reflexivity|].
  split; [exact Hs|].
  intros s'. rewrite removeVote_lookup.
  destruct (Storage.getSubmissionById submissionId (Discord.store b)); [|discriminate].
  intros [= <-]. simpl. apply votesBy_removed.
Qed.

Lemma remove_any_emoji_witness :
  let voted :=
    match Discord.onReactionAdd judgeRoles "2026-03-02T00:00:00.000Z"
            (clickOf "4" "judge-A" judgeRoles) botAfterSubmission with
    | Discord.Handled b1 _ =>
        match Discord.onReactionAdd judgeRoles "2026-03-02T00:00:05.000Z"
                (clickOf "2" "judge-A" judgeRoles) b1 with
        | Discord.Handled b2 _ => b2
        | _ => b1
        end
    | _ => botAfterSubmission
    end in
  let r := Discord.onReactionRemove (clickOf "4" "judge-A" []) voted in
  map Submission.votes (submissionsFile (Discord.store voted))
  = [[Vote.mk "judge-A" 2 "2026-03-02T00:00:05.000Z"]]
  /\ snd r = Discord.VoteRemoved "sub-22-k3x9"
  /\ map Submission.votes (submissionsFile (Discord.store (fst r))) = [[]].
Proof.
  intros voted r.
  assert (cacheSound voted) as Hc.
  { intros messageId submissionId [[= <- <-]|[]].
    eexists. split; [left; reflexivity|]. split; reflexivity. }
  assert (Discord.voteEmoji (Discord.keycap "4") <> Discord.Undefined) as Hv
    by discriminate.
  pose proof (removing_any_vote_emoji_removes_the_vote (clickOf "4" "judge-A" []) voted
                (Discord.keycap "4") Hc eq_refl eq_refl Hv) as H.
  cbv zeta in H. destruct H as (_ & H).
  change (Discord.lookupSubmission false
            (Discord.Reaction.messageId (clickOf "4" "judge-A" [])) voted)
    with (Some ("sub-22-k3x9", voted)) in H.
  cbv iota beta in H. destruct H as (Hact & Hstore & _).
  split; [reflexivity|]. split; [exact Hact|].
  fold r in Hstore. rewrite Hstore. reflexivity.
Defined.

Lemma applyCall_keeps_submissions c d :
  forall s, In s (submissionsFile d) ->
            exists s', In s' (submissionsFile (applyCall c d))
                       /\ Submission.messageId s' = Submission.messageId s
                       /\ Submission.id s' = Submission.id s.
Proof.
  destruct (applyCall_append_only c d) as (_ & (added & Hadd) & _).
  intros s Hs.
  assert (In (submissionCore s) (map submissionCore (submissionsFile (applyCall c d))))
    as Hin by (rewrite Hadd; apply in_or_app; left; now apply in_map).
  apply in_map_iff in Hin as (s' & Heq & Hs'). exists s'. split; [exact Hs'|].
  apply (f_equal Submission.messageId) in Heq as Hm.
  apply (f_equal Submission.id) in Heq as Hi. auto.
Qed.

(** X17. Three invariants of the running bot.  If every entry of the index
    names a submission on disk by its message id and its id, if no
    submission holds two votes of one judge, and if every stored score is a
    number from 1 to 5, then the same holds after the message handler, after
    the reaction-add handler (whenever it stores a number), after the
    reaction-remove handler, and, for the index, after any writing call of
    [storage.ts].  Moreover the two reaction handlers change nothing on disk
    but votes of the reacting user. *)
Theorem bot_invariants :
  forall b,
    cacheSound b ->
    votesUnique (Discord.store b) = true ->
    scoresInRange (Discord.store b) ->
    let good b' :=
      cacheSound b'
      /\ votesUnique (Discord.store b') = true
      /\ scoresInRange (Discord.store b') in
    (forall chan now nowIso defaultDeadline now' nowIso' rnd failAt message,
        good (fst (Discord.onMessageCreate chan now nowIso defaultDeadline now' nowIso'
                     rnd failAt message b)))
    /\ (forall judgeRoleIds nowIso reaction b' action,
          Discord.onReactionAdd judgeRoleIds nowIso reaction b = Discord.Handled b' action ->
          good b'
          /\ onlyVotesOf (Discord.Reaction.userId reaction)
               (Discord.store b) (Discord.store b'))
    /\ (forall reaction,
          good (fst (Discord.onReactionRemove reaction b))
          /\ onlyVotesOf (Discord.Reaction.userId reaction)
               (Discord.store b) (Discord.store (fst (Discord.onReactionRemove reaction b))))
    /\ (forall call,
          cacheSound (Discord.mkBot (applyCall call (Discord.store b))
                                    (Discord.messageToSubmissionId b))).
Proof.
  intros b Hc Hu Hr good. subst good.
  assert (forall user, onlyVotesOf user (Discord.store b) (Discord.store b)) as Hsame
    by (intros user; split; [reflexivity|apply Forall2_same; auto]).
  assert (b = Discord.mkBot (Discord.store b) (Discord.messageToSubmissionId b)) as Hb
    by now destruct b.
  split; [|split; [|split]].
  - intros chan now nowIso defaultDeadline now' nowIso' rnd failAt message.
    unfold Discord.onMessageCreate.
    destruct (Discord.Message.authorBot message); [auto|].
    destruct (Discord.Message.isThread message); [|auto].
    destruct (match Discord.Message.parentId message with
              | Some parent => (parent =? chan)%string
              | None => false
              end); [|auto].
    destruct (Discord.Message.urls message) as [|u us]; [auto|].
    cbn [negb].
    set (d1 := match Storage.getMissionByThread (Discord.Message.threadId message)
                       (Discord.store b) with
               | Some mission => (mission, Discord.store b)
               | None => Storage.registerMission now nowIso
                           (Discord.Message.threadId message)
                           (Discord.Message.threadName message) defaultDeadline None
                           (Discord.store b)
               end).
    assert (submissionsFile (snd d1) = submissionsFile (Discord.store b)) as Hd1.
    { subst d1. destruct (Storage.getMissionByThread _ _); [reflexivity|].
      unfold Storage.registerMission. now destruct (find _ _). }
    destruct d1 as [mission d1]. cbn [snd] in Hd1.
    unfold Storage.createSubmission, Storage.saveSubmissions, Storage.loadSubmissions.
    cbn [fst snd Discord.store Discord.messageToSubmissionId]. rewrite Hd1.
    split; [|split].
    + intros messageId submissionId Hin. cbn [Discord.store Discord.messageToSubmissionId
                                               submissionsFile] in *.
      apply In_mapSet in Hin as [[= -> ->]|Hin].
      * eexists. split; [apply in_or_app; right; left; reflexivity|]. split; reflexivity.
      * destruct (Hc _ _ Hin) as (s & Hs & Hm & Hi). exists s.
        split; [apply in_or_app; now left|auto].
    + unfold votesUnique in *. cbn [submissionsFile].
      rewrite forallb_app, Hu. reflexivity.
    + intros s v Hs Hv. cbn [submissionsFile] in Hs.
      apply in_app_or in Hs as [Hs|[<-|[]]]; [now apply (Hr s v)|destruct Hv].
  - intros judgeRoleIds nowIso reaction b' action.
    unfold Discord.onReactionAdd.
    destruct (Discord.Reaction.userBot reaction); [intros [= <- _]; auto|].
    destruct (Discord.Reaction.fetchThrows reaction); [intros [= <- _]; auto|].
    destruct (Discord.Reaction.emojiName reaction) as [emoji|]; [|intros [= <- _]; auto].
    destruct (emoji =? "")%string; [intros [= <- _]; auto|].
    assert (forall b1 submissionId,
              Discord.lookupSubmission true (Discord.Reaction.messageId reaction) b
              = Some (submissionId, b1) ->
              (cacheSound b1 /\ votesUnique (Discord.store b1) = true
               /\ scoresInRange (Discord.store b1))
              /\ onlyVotesOf (Discord.Reaction.userId reaction)
                   (Discord.store b) (Discord.store b1)) as Hb1.
    { intros b1 submissionId Hlook.
      destruct (lookupSubmission_sound _ _ _ _ _ Hc Hlook) as (_ & Hst & Hc1).
      rewrite Hst. auto. }
    destruct (Discord.voteEmoji emoji) as [score| |] eqn:Hvote; [| |intros [= <- _]; auto].
    + destruct (Discord.lookupSubmission true (Discord.Reaction.messageId reaction) b)
        as [[submissionId b1]|] eqn:Hlook; [|intros [= <- _]; auto].
      specialize (Hb1 b1 submissionId eq_refl).
      destruct (lookupSubmission_sound _ _ _ _ _ Hc Hlook) as (_ & Hst & Hc1).
      destruct (voteEmoji_own _ _ Hvote) as [_ Hrange].
      assert (Discord.Handled
                (Discord.mkBot
                   (Storage.recordVote nowIso submissionId
                      (Discord.Reaction.userId reaction) score (Discord.store b1))
                   (Discord.messageToSubmissionId b1))
                (Discord.VoteRecorded submissionId score) = Discord.Handled b' action ->
              (cacheSound b' /\ votesUnique (Discord.store b') = true
               /\ scoresInRange (Discord.store b'))
              /\ onlyVotesOf (Discord.Reaction.userId reaction)
                   (Discord.store b) (Discord.store b')) as Hrec.
      { intros [= <- _]. cbn [Discord.store]. rewrite Hst.
        pose proof (recordVote_onlyVotesOf nowIso submissionId
                      (Discord.Reaction.userId reaction) score (Discord.store b)) as Honly.
        split; [|exact Honly]. split; [|split].
        - apply (cacheSound_store (Discord.store b1)).
          + rewrite Hst. now apply (Forall2_keeps_submissions _ _ _ Honly).
          + now destruct b1.
        - apply (votesUnique_applyOp
                   (OpRecordVote nowIso submissionId (Discord.Reaction.userId reaction)
                      score)). exact Hu.
        - now apply recordVote_scoresInRange. }
      destruct (Discord.Reaction.member reaction) as [roles|roles| |];
        try (intros [= <- _]; exact Hb1).
      * destruct (Discord.hasJudgeRole _ _); [exact Hrec|intros [= <- _]; exact Hb1].
      * destruct (Discord.hasJudgeRole _ _); [exact Hrec|intros [= <- _]; exact Hb1].
    + destruct (Discord.lookupSubmission true (Discord.Reaction.messageId reaction) b)
        as [[submissionId b1]|] eqn:Hlook; [|intros [= <- _]; auto].
      specialize (Hb1 b1 submissionId eq_refl).
      destruct (Discord.Reaction.member reaction) as [roles|roles| |];
        try (intros [= <- _]; exact Hb1).
      * destruct (Discord.hasJudgeRole _ _); [discriminate|intros [= <- _]; exact Hb1].
      * destruct (Discord.hasJudgeRole _ _); [discriminate|intros [= <- _]; exact Hb1].
  - intros reaction. unfold Discord.onReactionRemove.
    destruct (Discord.Reaction.userBot reaction); [auto|].
    destruct (Discord.Reaction.emojiName reaction) as [emoji|]; [|auto].
    destruct (emoji =? "")%string; [auto|].
    destruct (match Discord.voteEmoji emoji with
              | Discord.Own score => score =? 0
              | Discord.Inherited => false
              | Discord.Undefined => true
              end); [auto|].
    destruct (Discord.lookupSubmission false (Discord.Reaction.messageId reaction) b)
      as [[submissionId b1]|]; [|auto].
    cbn [fst Discord.store].
    pose proof (removeVote_onlyVotesOf submissionId (Discord.Reaction.userId reaction)
                  (Discord.store b)) as Honly.
    split; [|exact Honly]. split; [|split].
    + apply (cacheSound_store (Discord.store b)).
      * now apply (Forall2_keeps_submissions _ _ _ Honly).
      * now rewrite <- Hb.
    + apply (votesUnique_applyOp (OpRemoveVote submissionId
                                    (Discord.Reaction.userId reaction))). exact Hu.
    + now apply removeVote_scoresInRange.
  - intros call. apply (cacheSound_store (Discord.store b)).
    + apply applyCall_keeps_submissions.
    + now rewrite <- Hb.
Qed.

Lemma bot_invariants_witness :
  cacheSound botAfterSubmission
  /\ votesUnique (Discord.store botAfterSubmission) = true
  /\ scoresInRange (Discord.store botAfterSubmission)
  /\ cacheSound (fst (Discord.onReactionRemove (clickOf "3" "judge-A" judgeRoles)
                        botAfterSubmission))
  /\ onlyVotesOf "judge-A" (Discord.store botAfterSubmission)
       (Discord.store (fst (Discord.onReactionRemove (clickOf "3" "judge-A" judgeRoles)
                              botAfterSubmission))).
Proof.
  assert (votesUnique (Discord.store botAfterSubmission) = true) as Hu by reflexivity.
  assert (scoresInRange (Discord.store botAfterSubmission)) as Hr.
  { intros s v [<-|[]] []. }
  destruct (bot_invariants botAfterSubmission botAfterSubmission_sound Hu Hr)
    as (_ & _ & Hrem & _).
  destruct (Hrem (clickOf "3" "judge-A" judgeRoles)) as ((Hc' & _) & Honly).
  split; [exact botAfterSubmission_sound|]. split; [exact Hu|]. split; [exact Hr|].
  split; [exact Hc'|exact Honly].
Defined.

(** ** commands/handlers.ts: escaping *)

(** X18. [escapeMarkdown] makes any text literal for MarkdownV2: in its
    result every character of the class [_ * [ ] ( ) ~ ` > # + - = | { } . ! \]
    stands behind an escaping backslash, and reading the result back gives
    the text, so two different texts never escape to the same string.  The
    result is the text itself exactly when the text holds no character of the
    class, it is at most twice as long, and escaping goes piece by piece. *)
Theorem escapeMarkdown_spec :
  forall text,
    escaped (escapeMarkdown text) = true
    /\ unescapeMarkdown (escapeMarkdown text) = text
    /\ (forall other, escapeMarkdown other = escapeMarkdown text -> other = text)
    /\ (String.length text <= String.length (escapeMarkdown text)
        <= 2 * String.length text)%nat
    /\ (escapeMarkdown text = text
        <-> forallb (fun c => negb (isMarkdownSpecial c)) (list_ascii_of_string text) = true)
    /\ (forall rest, escapeMarkdown (text ++ rest)
                     = (escapeMarkdown text ++ escapeMarkdown rest)%string).
Proof.
  assert (forall text, unescapeMarkdown (escapeMarkdown text) = text) as Hround.
  { induction text as [|c r IH]; simpl; [reflexivity|].
    destruct (isMarkdownSpecial c) eqn:Hc; simpl.
    - now rewrite IH.
    - destruct (Ascii.eqb c "\") eqn:Hb; [|now rewrite IH].
      apply Ascii.eqb_eq in Hb. subst c. discriminate. }
  assert (forall text, (String.length text <= String.length (escapeMarkdown text)
                        <= 2 * String.length text)%nat) as Hlen.
  { induction text as [|c r IH]; simpl; [lia|].
    destruct (isMarkdownSpecial c); simpl; lia. }
  intros text. split; [|split; [|split; [|split; [|split]]]].
  - induction text as [|c r IH]; simpl; [reflexivity|].
    destruct (isMarkdownSpecial c) eqn:Hc; simpl.
    + now rewrite Hc, IH.
    + destruct (Ascii.eqb c "\") eqn:Hb.
      * apply Ascii.eqb_eq in Hb. subst c. discriminate.
      * now rewrite Hc, IH.
  - apply Hround.
  - intros other H. rewrite <- (Hround other), H. apply Hround.
  - apply Hlen.
  - induction text as [|c r IH]; simpl; [tauto|].
    destruct (isMarkdownSpecial c) eqn:Hc; simpl.
    + split; [|discriminate]. intros H.
      apply (f_equal String.length) in H. simpl in H.
      pose proof (Hlen r). lia.
    + rewrite <- IH. split; [now intros [= ->]|now intros ->].
  - intros rest. induction text as [|c r IH]; simpl; [reflexivity|].
    destruct (isMarkdownSpecial c); simpl; now rewrite IH.
Qed.

Lemma escapeMarkdown_witness :
  escapeMarkdown "v2.0 (beta) a\b" = "v2\.0 \(beta\) a\\b"
  /\ ("v2.0 (beta)" = "v2.1 (beta)"
      \/ escapeMarkdown "v2.0 (beta)" <> escapeMarkdown "v2.1 (beta)").
Proof.
  split; [reflexivity|]. right. intros H.
  destruct (escapeMarkdown_spec "v2.1 (beta)") as (_ & _ & Hinj & _).
  specialize (Hinj "v2.0 (beta)" H). discriminate.
Defined.

(** ** Templates *)

Lemma find_app_first_none {A : Type} (p : A -> bool) (l l' : list A) :
  find p l = None -> find p (l ++ l') = find p l'.
Proof.
  induction l as [|x r IH]; simpl; [reflexivity|].
  destruct (p x); [discriminate|exact IH].
Qed.

Lemma find_pointwise {A : Type} (p q : A -> bool) (l : list A) :
  (forall x, p x = q x) -> find p l = find q l.
Proof.
  intros H. induction l as [|x r IH]; simpl; [reflexivity|]. now rewrite H, IH.
Qed.

Lemma splice1_findIndex {A : Type} (p : A -> bool) (l : list A) (i : nat) :
  findIndex p l = Some i ->
  exists pre x post,
    l = (pre ++ x :: post)%list /\ splice1 i l = (pre ++ post)%list
    /\ p x = true /\ find p pre = None.
Proof.
  revert i. induction l as [|y r IH]; simpl; [discriminate|].
  destruct (p y) eqn:Hy.
  - intros i [= <-]. exists [], y, r. auto.
  - destruct (findIndex p r) as [k|]; [|discriminate].
    intros i [= <-]. destruct (IH k eq_refl) as (pre & x & post & -> & Hs & Hx & Hpre).
    exists (y :: pre), x, post. simpl. rewrite Hs, Hy. auto.
Qed.

Lemma findIndex_none {A : Type} (p : A -> bool) (l : list A) :
  findIndex p l = None <-> find p l = None.
Proof.
  induction l as [|y r IH]; simpl; [tauto|].
  destruct (p y); [split; discriminate|].
  destruct (findIndex p r) as [k|].
  - split; [discriminate|]. intros H. apply IH in H. discriminate.
  - split; [intros _; now apply IH|reflexivity].
Qed.

Lemma NoDup_map_inj {A B : Type} (f : A -> B) (l : list A) (x y : A) :
  NoDup (map f l) -> In x l -> In y l -> f x = f y -> x = y.
Proof.
  induction l as [|a r IH]; simpl; [intros _ []|].
  intros Hnd Hx Hy Hf. inversion Hnd as [|? ? Ha Hr]; subst.
  destruct Hx as [->|Hx], Hy as [->|Hy]; auto.
  - exfalso. apply Ha. rewrite Hf. now apply in_map.
  - exfalso. apply Ha. rewrite <- Hf. now apply in_map.
Qed.

Lemma sameName_lower name name' t :
  Templates.toLowerCase name' = Templates.toLowerCase name ->
  Templates.sameName name' t = Templates.sameName name t.
Proof. unfold Templates.sameName. now intros ->. Qed.

(** X19. For ASCII names, in the input, in [templates.json] and in the
    lookups: [handleCreateTemplateCommand] never throws, and creates exactly
    when no template bears the name, letter case ignored.  If one does, the
    result is a failure carrying the message of [createTemplate]'s error and
    [templates.json] is not written.  Otherwise one template is appended
    with the five fields of the input, no role ids, the id
    [tmpl-<clock reading>] and the two clock readings as creation and update
    time; it is then found under every spelling of its name that differs in
    letter case only, and lookups of other names are as before.  Either way,
    the names in the file are still ASCII, and if they were pairwise distinct
    (letter case ignored) they still are. *)
Theorem create_template_unless_name_taken :
  forall now nowIso nowIso' input data,
    isAscii (TemplateInput.name input) = true ->
    asciiNames data = true ->
    let r := Templates.handleCreateTemplateCommand now nowIso nowIso' input data in
    let name := TemplateInput.name input in
    match Templates.getTemplateByName name data with
    | Some existing =>
        CommandResult.success (fst r) = false
        /\ CommandResult.error (fst r)
           = Some ("Template " ++ doubleQuote ++ name ++ doubleQuote
                   ++ " already exists.")%string
        /\ snd r = data
    | None =>
        CommandResult.success (fst r) = true
        /\ CommandResult.error (fst r) = None
        /\ exists template,
             snd r = (data ++ [template])%list
             /\ Template.id template = ("tmpl-" ++ string_of_Z now)%string
             /\ Template.name template = name
             /\ Template.briefContent template = TemplateInput.briefContent input
             /\ Template.defaultDeadlineDays template
                = TemplateInput.defaultDeadlineDays input
             /\ Template.claudePromptOverride template
                = TemplateInput.claudePromptOverride input
             /\ Template.announcementFormat template
                = TemplateInput.announcementFormat input
             /\ Template.roleIds template = None
             /\ Template.createdAt template = nowIso
             /\ Template.updatedAt template = nowIso'
             /\ (forall spelling,
                    isAscii spelling = true ->
                    Templates.toLowerCase spelling = Templates.toLowerCase name ->
                    Templates.getTemplateByName spelling (snd r) = Some template)
             /\ (forall other,
                    isAscii other = true ->
                    Templates.toLowerCase other <> Templates.toLowerCase name ->
                    Templates.getTemplateByName other (snd r)
                    = Templates.getTemplateByName other data)
    end
    /\ asciiNames (snd r) = true
    /\ (namesDistinct data -> namesDistinct (snd r)).
Proof.
  intros now nowIso nowIso' input data Hascii Hdata r name. subst r name.
  unfold Templates.handleCreateTemplateCommand, Templates.createTemplate,
    Templates.getTemplateByName.
  destruct (find (Templates.sameName (TemplateInput.name input)) data) as [existing|]
    eqn:Hf; cbn [fst snd CommandResult.success CommandResult.error].
  - split; [auto|auto].
  - split; [|split].
    + split; [reflexivity|]. split; [reflexivity|].
      eexists. split; [reflexivity|]. repeat (split; [reflexivity|]). split.
      * intros spelling _ Hs.
        assert (forall t, Templates.sameName spelling t
                          = Templates.sameName (TemplateInput.name input) t) as He
          by (intros t; now apply sameName_lower).
        rewrite (find_pointwise _ _ _ He). rewrite find_app_none by exact Hf.
        unfold Templates.sameName. simpl. now rewrite String.eqb_refl.
      * intros other _ Ho.
        destruct (find (Templates.sameName other) data) as [t|] eqn:Ht.
        -- now apply find_app_some.
        -- rewrite find_app_none by exact Ht.
           unfold Templates.sameName. simpl.
           apply String.eqb_neq in Ho. rewrite String.eqb_sym. now rewrite Ho.
    + unfold asciiNames in *. rewrite forallb_app, Hdata. simpl.
      now rewrite Hascii.
    + unfold namesDistinct. intros Hnd. rewrite map_app. simpl.
      apply NoDup_app; [exact Hnd|repeat constructor; intros []|].
      intros x Hin [<-|[]]. apply in_map_iff in Hin as (t & Ht & Hin).
      apply (find_none _ _ Hf) in Hin. unfold Templates.sameName in Hin.
      rewrite Ht, String.eqb_refl in Hin. discriminate.
Qed.

Lemma create_template_witness :
  namesDistinct twoTemplates
  /\ isAscii "WEEKLY" = true
  /\ asciiNames twoTemplates = true
  /\ map Template.name twoTemplates = ["Weekly"; "launch"]
  /\ namesDistinct
       (snd (Templates.handleCreateTemplateCommand 32 "2026-04-02T00:00:00.000Z"
               "2026-04-02T00:00:00.000Z"
               (TemplateInput.mk "WEEKLY" "other" 1 None None) twoTemplates))
  /\ CommandResult.success
       (fst (Templates.handleCreateTemplateCommand 32 "2026-04-02T00:00:00.000Z"
               "2026-04-02T00:00:00.000Z"
               (TemplateInput.mk "WEEKLY" "other" 1 None None) twoTemplates)) = false.
Proof.
  assert (namesDistinct twoTemplates) as Hnd.
  { repeat constructor; simpl; intuition discriminate. }
  destruct (create_template_unless_name_taken 32 "2026-04-02T00:00:00.000Z"
              "2026-04-02T00:00:00.000Z"
              (TemplateInput.mk "WEEKLY" "other" 1 None None) twoTemplates
              eq_refl eq_refl)
    as (_ & _ & Hkeep).
  split; [exact Hnd|]. do 3 (split; [reflexivity|]).
  split; [exact (Hkeep Hnd)|reflexivity].
Defined.

(** X20. For ASCII names, in the command, in [templates.json] and in the
    lookups.  [handleDeleteTemplateCommand] on a file with pairwise distinct
    names (letter case ignored) and pairwise distinct ids: if no template
    bears the name the result is a failure and nothing is written; otherwise
    the result is a success, exactly that template is taken out, the others
    keeping their order, the name is free afterwards, lookups of other names
    are as before, and names and ids are still distinct.  Whatever the file,
    the template taken out is the first one carrying the id of the template
    the name denotes. *)
Theorem delete_template_by_name :
  forall name data,
    isAscii name = true ->
    asciiNames data = true ->
    let r := Templates.handleDeleteTemplateCommand name data in
    match Templates.getTemplateByName name data with
    | None => CommandResult.success (fst r) = false /\ snd r = data
    | Some template =>
        CommandResult.success (fst r) = true
        /\ (exists pre removed post,
               data = (pre ++ removed :: post)%list
               /\ snd r = (pre ++ post)%list
               /\ Template.id removed = Template.id template
               /\ forall t, In t pre -> Template.id t <> Template.id template)
        /\ (namesDistinct data -> NoDup (map Template.id data) ->
            (exists pre post, data = (pre ++ template :: post)%list
                              /\ snd r = (pre ++ post)%list)
            /\ Templates.getTemplateByName name (snd r) = None
            /\ (forall other,
                   isAscii other = true ->
                   Templates.toLowerCase other <> Templates.toLowerCase name ->
                   Templates.getTemplateByName other (snd r)
                   = Templates.getTemplateByName other data)
            /\ namesDistinct (snd r)
            /\ NoDup (map Template.id (snd r)))
    end.
Proof.
  intros name data _ _ r. subst r.
  unfold Templates.handleDeleteTemplateCommand.
  destruct (Templates.getTemplateByName name data) as [template|] eqn:Hget;
    cbn [fst snd CommandResult.success]; [|auto].
  unfold Templates.getTemplateByName in Hget.
  apply find_some in Hget as Hin. destruct Hin as [Hin Hname].
  unfold Templates.deleteTemplate.
  destruct (findIndex (fun t => (Template.id t =? Template.id template)%string) data)
    as [i|] eqn:Hidx.
  - destruct (splice1_findIndex _ _ _ Hidx) as (pre & x & post & Hdata & Hsp & Hx & Hpre).
    apply String.eqb_eq in Hx. cbn [snd]. rewrite Hsp.
    split; [reflexivity|]. split.
    + exists pre, x, post. repeat split; auto.
      intros t Ht. apply (find_none _ _ Hpre) in Ht. now apply String.eqb_neq.
    + intros Hnames Hids.
      assert (x = template) as ->.
      { apply (NoDup_map_inj Template.id data); auto.
        rewrite Hdata. apply in_or_app. right. now left. }
      assert (forall t, In t (pre ++ post)%list ->
                        Templates.toLowerCase (Template.name t)
                        <> Templates.toLowerCase (Template.name template)) as Hfree.
      { intros t Ht Heq. unfold namesDistinct in Hnames. rewrite Hdata in Hnames.
        rewrite map_app in Hnames. simpl in Hnames.
        apply NoDup_remove_2 in Hnames. apply Hnames. rewrite <- Heq.
        rewrite <- map_app.
        exact (in_map (fun t => Templates.toLowerCase (Template.name t)) _ _ Ht). }
      unfold Templates.sameName in Hname. apply String.eqb_eq in Hname.
      split; [eauto|]. split; [|split; [|split]].
      * unfold Templates.getTemplateByName. apply find_none_iff. intros t Ht.
        unfold Templates.sameName. apply String.eqb_neq. rewrite <- Hname.
        now apply Hfree.
      * intros other _ Ho. unfold Templates.getTemplateByName. rewrite Hdata.
        assert (Templates.sameName other template = false) as Hno.
        { unfold Templates.sameName. apply String.eqb_neq. congruence. }
        destruct (find (Templates.sameName other) pre) as [t|] eqn:Ht.
        -- now rewrite (find_app_some _ _ _ _ Ht), (find_app_some _ _ _ _ Ht).
        -- rewrite !find_app_first_none by exact Ht. simpl. now rewrite Hno.
      * unfold namesDistinct in *. rewrite Hdata in Hnames.
        rewrite map_app in *. simpl in Hnames. now apply NoDup_remove_1 in Hnames.
      * rewrite Hdata in Hids. rewrite map_app in *. simpl in Hids.
        now apply NoDup_remove_1 in Hids.
  - exfalso. apply findIndex_none in Hidx. apply (find_none _ _ Hidx) in Hin.
    now rewrite String.eqb_refl in Hin.
Qed.

Lemma delete_template_witness :
  let r := Templates.handleDeleteTemplateCommand "WEEKLY" twoTemplates in
  namesDistinct twoTemplates
  /\ NoDup (map Template.id twoTemplates)
  /\ isAscii "WEEKLY" = true
  /\ asciiNames twoTemplates = true
  /\ map Template.name (snd r) = ["launch"]
  /\ Templates.getTemplateByName "WEEKLY" (snd r) = None.
Proof.
  intros r.
  assert (namesDistinct twoTemplates) as Hnd
    by (repeat constructor; simpl; intuition discriminate).
  assert (NoDup (map Template.id twoTemplates)) as Hid
    by (repeat constructor; simpl; intuition discriminate).
  pose proof (delete_template_by_name "WEEKLY" twoTemplates eq_refl eq_refl) as H.
  cbv zeta in H.
  destruct (Templates.getTemplateByName "WEEKLY" twoTemplates) as [template|] eqn:Hget;
    [|discriminate].
  destruct H as (_ & _ & H). destruct (H Hnd Hid) as (_ & Hfree & _).
  split; [exact Hnd|]. split; [exact Hid|]. do 3 (split; [reflexivity|]).
  exact Hfree.
Defined.

(** ** Placeholders *)

Lemma string_app_assoc (a b c : string) : ((a ++ b) ++ c = a ++ (b ++ c))%string.
Proof. induction a as [|x a IH]; simpl; [reflexivity|now rewrite IH]. Qed.

Lemma string_length_app (a b : string) :
  String.length (a ++ b) = (String.length a + String.length b)%nat.
Proof. induction a as [|x a IH]; simpl; [reflexivity|now rewrite IH]. Qed.

Lemma substring_prefix (a b : string) : substring 0 (String.length a) (a ++ b) = a.
Proof.
  induction a as [|x a IH]; simpl; [now destruct b|]. now rewrite IH.
Qed.

Lemma dropChars_prefix (a b : string) : dropChars (String.length a) (a ++ b) = b.
Proof. induction a as [|x a IH]; simpl; [reflexivity|exact IH]. Qed.

Lemma substring_dropChars n s : (substring 0 n s ++ dropChars n s)%string = s.
Proof.
  revert s. induction n as [|n IH]; intros [|c r]; simpl; try reflexivity.
  now rewrite IH.
Qed.

Lemma replaceFrom_skip vars k s :
  replaceFrom vars k s = replaceFrom vars 0 (dropChars k s).
Proof.
  revert k. induction s as [|c r IH]; intros [|k]; simpl; try reflexivity.
  apply IH.
Qed.

Lemma takeWord_spec s :
  s = (fst (takeWord s) ++ snd (takeWord s))%string
  /\ forallb isWordChar (list_ascii_of_string (fst (takeWord s))) = true.
Proof.
  induction s as [|c r [IH1 IH2]]; simpl; [auto|].
  destruct (isWordChar c) eqn:Hc; [|auto].
  destruct (takeWord r) as [word rest]. simpl in *. rewrite Hc, IH2.
  split; [now rewrite <- IH1|reflexivity].
Qed.

Lemma takeWord_word key rest :
  forallb isWordChar (list_ascii_of_string key) = true ->
  match rest with
  | String c _ => isWordChar c = false
  | EmptyString => True
  end ->
  takeWord (key ++ rest) = (key, rest).
Proof.
  intros Hk Hr. induction key as [|c r IH]; simpl in *.
  - destruct rest as [|c r]; [reflexivity|]. simpl. now rewrite Hr.
  - apply andb_true_iff in Hk as [Hc Hk]. now rewrite Hc, IH.
Qed.

Lemma placeholderAt_spec s key len :
  placeholderAt s = Some (key, len) ->
  len = (String.length key + 4)%nat
  /\ key <> EmptyString
  /\ forallb isWordChar (list_ascii_of_string key) = true
  /\ substring 0 len s = ("{{" ++ key ++ "}}")%string.
Proof.
  unfold placeholderAt. destruct s as [|a [|b r]]; try discriminate.
  destruct (Ascii.eqb a "{") eqn:Ha; [|discriminate].
  destruct (Ascii.eqb b "{") eqn:Hb; [|discriminate]. cbn [andb].
  apply Ascii.eqb_eq in Ha, Hb. subst a b.
  destruct (takeWord_spec r) as [Hr Hw].
  destruct (takeWord r) as [[|k0 key0] rest]; [discriminate|].
  destruct rest as [|c [|d rest]]; try discriminate.
  destruct (Ascii.eqb c "}") eqn:Hc; [|discriminate].
  destruct (Ascii.eqb d "}") eqn:Hd; [|discriminate]. cbn [andb].
  apply Ascii.eqb_eq in Hc, Hd. subst c d.
  intros [= <- <-]. cbn [fst snd] in *.
  split; [reflexivity|]. split; [discriminate|]. split; [exact Hw|].
  rewrite Hr.
  assert (String "{" (String "{" (String k0 key0 ++ String "}" (String "}" rest)))
          = (("{{" ++ String k0 key0 ++ "}}") ++ rest)%string) as ->.
  { change (String "}" (String "}" rest)) with ("}}" ++ rest)%string.
    change (("{{" ++ String k0 key0 ++ "}}") ++ rest)%string
      with (String "{" (String "{" ((String k0 key0 ++ "}}") ++ rest)))%string.
    now rewrite string_app_assoc. }
  match goal with
  | |- substring 0 ?n _ = ?p =>
      replace n with (String.length p); [apply substring_prefix|]
  end.
  simpl. rewrite string_length_app. simpl. lia.
Qed.

Lemma placeholderAt_here key rest :
  key <> EmptyString ->
  forallb isWordChar (list_ascii_of_string key) = true ->
  placeholderAt ("{{" ++ key ++ "}}" ++ rest)
  = Some (key, (String.length key + 4)%nat).
Proof.
  intros Hne Hw. unfold placeholderAt. simpl.
  rewrite (takeWord_word key (String "}" (String "}" rest)) Hw) by reflexivity.
  destruct key; [now contradiction Hne|]. reflexivity.
Qed.

Lemma placeholderAt_needs_brace c r :
  Ascii.eqb c "{" = false -> placeholderAt (String c r) = None.
Proof. intros H. unfold placeholderAt. destruct r; [reflexivity|]. now rewrite H. Qed.

Lemma placeholdersFrom_grows s :
  forall skip acc k, In k acc -> In k (placeholdersFrom skip s acc).
Proof.
  induction s as [|c r IH]; intros skip acc k Hk; cbn [placeholdersFrom]; [exact Hk|].
  destruct skip; [|now apply IH].
  destruct (placeholderAt (String c r)) as [[key len]|]; [|now apply IH].
  apply IH. unfold setAdd. destruct (existsb _ acc); [exact Hk|].
  apply in_or_app. now left.
Qed.

Lemma replaceFrom_agree vars vars' s :
  forall skip acc,
    (forall k, In k (placeholdersFrom skip s acc) -> vars k = vars' k) ->
    replaceFrom vars skip s = replaceFrom vars' skip s.
Proof.
  induction s as [|c r IH]; intros skip acc H; cbn [placeholdersFrom replaceFrom] in *;
    [reflexivity|].
  destruct skip; [|now apply (IH _ acc)].
  destruct (placeholderAt (String c r)) as [[key len]|] eqn:Hp.
  - rewrite (IH _ _ H). rewrite (H key); [reflexivity|].
    apply placeholdersFrom_grows. apply setAdd_In. now right.
  - now rewrite (IH _ _ H).
Qed.

Lemma replaceFrom_nothing s :
  forall k, replaceFrom (fun _ => None) 0 (dropChars k s) = dropChars k s.
Proof.
  induction s as [|c r IH]; intros [|k]; cbn [dropChars replaceFrom];
    try reflexivity; [|apply IH].
  destruct (placeholderAt (String c r)) as [[key len]|] eqn:Hp.
  - destruct (placeholderAt_spec _ _ _ Hp) as (Hlen & _).
    rewrite replaceFrom_skip, IH.
    assert (len = S (len - 1)) as Hs by lia.
    rewrite Hs at 1.
    change (dropChars (len - 1) r) with (dropChars (S (len - 1)) (String c r)).
    apply substring_dropChars.
  - f_equal. apply (IH O).
Qed.

Lemma placeholders_are_words s :
  forall skip acc,
    (forall k, In k acc ->
       k <> EmptyString /\ forallb isWordChar (list_ascii_of_string k) = true) ->
    forall k, In k (placeholdersFrom skip s acc) ->
      k <> EmptyString /\ forallb isWordChar (list_ascii_of_string k) = true.
Proof.
  induction s as [|c r IH]; intros skip acc Hacc; cbn [placeholdersFrom]; [exact Hacc|].
  destruct skip; [|now apply IH].
  destruct (placeholderAt (String c r)) as [[key len]|] eqn:Hp; [|now apply IH].
  apply IH. intros k Hk. apply setAdd_In in Hk as [Hk | ->]; [now apply Hacc|].
  destruct (placeholderAt_spec _ _ _ Hp) as (_ & Hne & Hw & _). auto.
Qed.

(** X21. [resolveTemplateVariables] and the placeholders listed by
    [handleViewTemplateCommand].  The listed placeholders are non-empty words,
    and they are all the resolution depends on: two sets of variables that
    agree on them resolve the text alike, and a text none of whose listed
    placeholders has a value (for one, a text without any) is returned
    unchanged.  Resolution is a single pass: after a text without braces, the
    placeholder of a word that has a value is replaced by the value as it is
    (placeholders inside the value are not resolved) and the scan goes on
    behind the placeholder. *)
Theorem resolveTemplateVariables_spec :
  forall text vars,
    (forall k, In k (detectPlaceholders text) ->
               k <> EmptyString /\ forallb isWordChar (list_ascii_of_string k) = true)
    /\ (forall vars',
           (forall k, In k (detectPlaceholders text) -> vars k = vars' k) ->
           resolveTemplateVariables text vars = resolveTemplateVariables text vars')
    /\ ((forall k, In k (detectPlaceholders text) -> vars k = None) ->
        resolveTemplateVariables text vars = text)
    /\ (forall before key value,
           forallb (fun c => negb (Ascii.eqb c "{")) (list_ascii_of_string before) = true ->
           key <> EmptyString ->
           forallb isWordChar (list_ascii_of_string key) = true ->
           vars key = Some value ->
           resolveTemplateVariables (before ++ "{{" ++ key ++ "}}" ++ text) vars
           = (before ++ value ++ resolveTemplateVariables text vars)%string).
Proof.
  intros text vars. unfold resolveTemplateVariables, detectPlaceholders.
  split; [|split; [|split]].
  - apply placeholders_are_words. intros k [].
  - intros vars' H. now apply (replaceFrom_agree vars vars' text 0 []).
  - intros H. rewrite (replaceFrom_agree vars (fun _ => None) text 0 [] H).
    apply (replaceFrom_nothing text 0).
  - intros before key value Hb Hne Hw Hv.
    induction before as [|c r IH].
    + pose proof (placeholderAt_here key text Hne Hw) as Hp.
      set (r := ("{" ++ key ++ "}}" ++ text)%string) in *.
      change ("{{" ++ key ++ "}}" ++ text)%string with (String "{" r) in Hp.
      change ("" ++ "{{" ++ key ++ "}}" ++ text)%string with (String "{" r).
      cbn [replaceFrom]. rewrite Hp, Hv.
      rewrite replaceFrom_skip. cbn [append]. f_equal. f_equal. subst r.
      replace (String.length key + 4 - 1)%nat
        with (String.length ("{" ++ key ++ "}}"))%nat.
      * rewrite <- (string_app_assoc key "}}" text).
        rewrite <- (string_app_assoc "{" (key ++ "}}") text).
        apply dropChars_prefix.
      * simpl. rewrite string_length_app. simpl. lia.
    + simpl in Hb. apply andb_true_iff in Hb as [Hc Hb].
      apply negb_true_iff in Hc.
      change ((String c r ++ "{{" ++ key ++ "}}" ++ text)%string)
        with (String c (r ++ "{{" ++ key ++ "}}" ++ text)%string).
      cbn [replaceFrom]. rewrite (placeholderAt_needs_brace _ _ Hc).
      rewrite (IH Hb). reflexivity.
Qed.

Lemma resolveTemplateVariables_witness :
  let vars := fun k => if (k =? "topic")%string then Some "{{deadline_date}} news"
                       else None in
  detectPlaceholders "Post about {{topic}} by {{deadline_date}}."
  = ["topic"; "deadline_date"]
  /\ resolveTemplateVariables "Post about {{topic}} by {{deadline_date}}." vars
     = "Post about {{deadline_date}} news by {{deadline_date}}."
  /\ resolveTemplateVariables "{{ topic }} and {{}}" vars = "{{ topic }} and {{}}".
Proof.
  intros vars.
  destruct (resolveTemplateVariables_spec " by {{deadline_date}}." vars)
    as (_ & _ & _ & Hpass).
  destruct (resolveTemplateVariables_spec "{{ topic }} and {{}}" vars)
    as (_ & _ & Hnone & _).
  assert ("topic" <> EmptyString) as Hne by discriminate.
  split; [reflexivity|]. split.
  - exact (Hpass "Post about " "topic" "{{deadline_date}} news" eq_refl Hne
             eq_refl eq_refl).
  - apply Hnone. intros k [].
Defined.

(** ** The id lists of the configuration *)

Lemma trimStart_empty s :
  trimStart s = EmptyString <-> forallb isSpace (list_ascii_of_string s) = true.
Proof.
  induction s as [|c r IH]; simpl; [tauto|].
  destruct (isSpace c); simpl; [exact IH|]. split; discriminate.
Qed.

Lemma trim_empty s :
  trim s = EmptyString <-> forallb isSpace (list_ascii_of_string s) = true.
Proof.
  rewrite <- trimStart_empty. unfold trim.
  destruct (trimStart s) as [|c r] eqn:Hs; [tauto|].
  assert (isSpace c = false) as Hc by (apply (trimStart_first s); now rewrite Hs).
  destruct (trimEnd_first r c Hc) as [r' ->]. split; discriminate.
Qed.

Lemma split_nonempty value : Config.split value <> [].
Proof.
  destruct value as [|c r]; simpl; [discriminate|].
  destruct (Ascii.eqb c ","); [discriminate|].
  destruct (Config.split r); discriminate.
Qed.

Lemma split_pieces p value :
  forallb p (list_ascii_of_string value) = true ->
  forall x, In x (Config.split value) -> forallb p (list_ascii_of_string x) = true.
Proof.
  induction value as [|c r IH]; simpl.
  - intros _ x [<-|[]]. reflexivity.
  - intros H. apply andb_true_iff in H as [Hc Hr]. specialize (IH Hr).
    destruct (Ascii.eqb c ",").
    + intros x [<-|Hx]; [reflexivity|now apply IH].
    + pose proof (split_nonempty r) as Hne.
      destruct (Config.split r) as [|first rest]; [now contradiction Hne|].
      intros x [<-|Hx]; [|apply IH; now right].
      simpl. rewrite Hc. apply IH. now left.
Qed.

Lemma split_no_comma value :
  forall x, In x (Config.split value) ->
            forallb (fun c => negb (Ascii.eqb c ",")) (list_ascii_of_string x) = true.
Proof.
  induction value as [|c r IH]; simpl.
  - intros x [<-|[]]. reflexivity.
  - destruct (Ascii.eqb c ",") eqn:Hc.
    + intros x [<-|Hx]; [reflexivity|now apply IH].
    + pose proof (split_nonempty r) as Hne.
      destruct (Config.split r) as [|first rest]; [now contradiction Hne|].
      intros x [<-|Hx]; [|apply IH; now right].
      simpl. rewrite Hc. apply IH. now left.
Qed.

Lemma split_blank value :
  (forall x, In x (Config.split value) -> forallb isSpace (list_ascii_of_string x) = true)
  <-> forallb (fun c => isSpace c || Ascii.eqb c ",") (list_ascii_of_string value) = true.
Proof.
  induction value as [|c r IH]; simpl.
  - split; [reflexivity|]. intros _ x [<-|[]]. reflexivity.
  - destruct (Ascii.eqb c ",") eqn:Hc.
    + rewrite orb_true_r. simpl. rewrite <- IH. split.
      * intros H x Hx. apply H. now right.
      * intros H x [<-|Hx]; [reflexivity|now apply H].
    + rewrite orb_false_r. pose proof (split_nonempty r) as Hne.
      destruct (Config.split r) as [|first rest]; [now contradiction Hne|].
      rewrite andb_true_iff, <- IH. split.
      * intros H. pose proof (H _ (or_introl eq_refl)) as H1. simpl in H1.
        apply andb_true_iff in H1 as [H1 H2]. split; [exact H1|].
        intros x [<-|Hx]; [exact H2|]. apply H. now right.
      * intros [H1 H2] x [<-|Hx]; [|apply H2; now right].
        simpl. rewrite H1. apply H2. now left.
Qed.

Lemma split_single x :
  forallb (fun c => negb (Ascii.eqb c ",")) (list_ascii_of_string x) = true ->
  Config.split x = [x].
Proof.
  induction x as [|c r IH]; simpl; [reflexivity|].
  intros H. apply andb_true_iff in H as [Hc Hr]. apply negb_true_iff in Hc.
  now rewrite Hc, IH.
Qed.

Lemma split_cons x rest :
  forallb (fun c => negb (Ascii.eqb c ",")) (list_ascii_of_string x) = true ->
  Config.split (x ++ "," ++ rest) = x :: Config.split rest.
Proof.
  induction x as [|c r IH]; simpl; [reflexivity|].
  intros H. apply andb_true_iff in H as [Hc Hr]. apply negb_true_iff in Hc.
  rewrite Hc. simpl in IH. now rewrite IH.
Qed.

Lemma filter_all {A : Type} (p : A -> bool) (l : list A) :
  filter p l = [] <-> forall x, In x l -> p x = false.
Proof.
  split; [|apply filter_none].
  induction l as [|y r IH]; simpl; [intros _ x []|].
  destruct (p y) eqn:Hy; [discriminate|]. intros H x [<-|Hx]; auto.
Qed.

(** X22. For an ASCII value of the variable and ASCII ids: [parseArray]
    returns ids that are ASCII, not empty, hold no comma and start and end
    with no white space; it returns the list that was joined with commas
    when the list consists of such ids; and it returns no id at all exactly
    when the value consists of commas and white space only.  In that last
    case [isAllowedChat] lets every chat with an id through; with a list
    that is not empty it lets through exactly the chats listed. *)
Theorem parseArray_and_isAllowedChat :
  forall value,
    isAscii value = true ->
    let ids := Config.parseArray value in
    (forall x, In x ids -> isListedId x = true /\ isAscii x = true)
    /\ (ids = []
        <-> forallb (fun c => isSpace c || Ascii.eqb c ",")
              (list_ascii_of_string value) = true)
    /\ (forall xs, forallb isAscii xs = true ->
                   forallb isListedId xs = true ->
                   Config.parseArray (joinComma xs) = xs)
    /\ (forall chatId,
           chatId <> EmptyString ->
           isAllowedChat ids (Some chatId)
           = match ids with
             | [] => true
             | _ => existsb (String.eqb chatId) ids
             end).
Proof.
  intros value Hascii ids. subst ids. split; [|split; [|split]].
  - unfold Config.parseArray. destruct (value =? "")%string; [intros x []|].
    intros x Hx. apply filter_In in Hx as [Hx Hne].
    apply in_map_iff in Hx as (y & <- & Hy). split.
    + unfold isListedId. rewrite Hne, trim_idem, String.eqb_refl, andb_true_r. simpl.
      unfold trim. apply trimEnd_chars, trimStart_chars.
      exact (split_no_comma value y Hy).
    + unfold isAscii, trim. apply trimEnd_chars, trimStart_chars.
      exact (split_pieces _ value Hascii y Hy).
  - unfold Config.parseArray. destruct (String.eqb_spec value "") as [->|Hne];
      [split; reflexivity|].
    rewrite <- split_blank, filter_all. split.
    + intros H x Hx. apply trim_empty.
      specialize (H (trim x) (in_map trim _ _ Hx)).
      apply negb_false_iff in H. now apply String.eqb_eq in H.
    + intros H y Hy. apply in_map_iff in Hy as (x & <- & Hx).
      apply negb_false_iff, String.eqb_eq, trim_empty. now apply H.
  - intros xs _. induction xs as [|x rest IH]; [reflexivity|].
    intros H. cbn [forallb] in H. apply andb_true_iff in H as [Hx Hrest].
    specialize (IH Hrest). unfold isListedId in Hx.
    apply andb_true_iff in Hx as [Hx Htrim]. apply andb_true_iff in Hx as [Hne Hcomma].
    apply String.eqb_eq in Htrim.
    assert ((x =? "")%string = false) as Hne' by now apply negb_true_iff.
    destruct rest as [|y rest].
    + simpl. unfold Config.parseArray. rewrite Hne'.
      rewrite (split_single x Hcomma). simpl. now rewrite Htrim, Hne.
    + change (joinComma (x :: y :: rest)) with (x ++ "," ++ joinComma (y :: rest))%string.
      unfold Config.parseArray in *.
      assert (((x ++ "," ++ joinComma (y :: rest)) =? "")%string = false) as ->.
      { destruct x; [discriminate|reflexivity]. }
      rewrite (split_cons x _ Hcomma). cbn [map filter]. rewrite Htrim, Hne. f_equal.
      destruct (joinComma (y :: rest) =? "")%string eqn:He; [|exact IH].
      discriminate.
  - intros chatId Hne. unfold isAllowedChat.
    apply String.eqb_neq in Hne. rewrite Hne.
    now destruct (Config.parseArray value).
Qed.

Lemma parseArray_witness :
  isAscii " , ," = true
  /\ forallb isAscii ["-100777"; "42"] = true
  /\ Config.telegramAllowedChatIds (Some " , ,") = []
  /\ isAllowedChat (Config.telegramAllowedChatIds (Some " , ,")) (Some "-100777") = true
  /\ Config.telegramAllowedChatIds None = ["-5226358270"]
  /\ isAllowedChat (Config.telegramAllowedChatIds None) (Some "-100777") = false
  /\ Config.parseArray (joinComma ["-100777"; "42"]) = ["-100777"; "42"].
Proof.
  destruct (parseArray_and_isAllowedChat " , ," eq_refl) as (_ & Hnone & _ & Hall).
  destruct (parseArray_and_isAllowedChat "unused" eq_refl) as (_ & _ & Hround & _).
  assert ("-100777" <> EmptyString) as Hne by discriminate.
  split; [reflexivity|]. split; [reflexivity|]. split; [reflexivity|].
  split; [|split; [reflexivity|split; [reflexivity|]]].
  - exact (Hall "-100777" Hne).
  - exact (Hround ["-100777"; "42"] eq_refl eq_refl).
Defined.

(** ** telegram.ts: submissions by reply *)

(** X23. The Telegram text handler creates a submission in one case only:
    the text is no command, the URL match is not empty, the message replies
    to a message that is linked to a mission, the mission was announced in
    the chat of the message, the mission is active, and Sheets is configured.
    The submission is then appended with the mission's id and thread, the
    chat as channel and source [telegram], without votes and not exported.
    In every other case the data directory is left as it was; in no case is
    [missions.json] written, so no mission is registered on the way; and a
    reply to a mission that is closed or exported is answered with the notice
    that the mission is closed. *)
Theorem telegram_submission_needs_active_mission :
  forall allowed sheetsOk now nowIso rnd message d,
    let r := Telegram.onText allowed sheetsOk now nowIso rnd message d in
    missionsFile (fst r) = missionsFile d
    /\ match snd r with
       | Telegram.SubmissionCreated mission submission =>
           Telegram.startsWithSlash (Telegram.TextMessage.text message) = false
           /\ Telegram.TextMessage.urls message <> []
           /\ sheetsOk = true
           /\ (exists replyToId,
                  Telegram.TextMessage.replyToId message = Some replyToId
                  /\ MissionLinks.getMissionByTelegramMessage (string_of_Z replyToId) d
                     = Some mission)
           /\ Mission.status mission = active
           /\ Mission.telegramChatId mission
              = Some (Telegram.TextMessage.chatId message)
           /\ submissionsFile (fst r) = (submissionsFile d ++ [submission])%list
           /\ Submission.missionId submission = Mission.id mission
           /\ Submission.threadId submission = Mission.threadId mission
           /\ Submission.channelId submission = Telegram.TextMessage.chatId message
           /\ Submission.urls submission = Telegram.TextMessage.urls message
           /\ Submission.source submission = telegram
           /\ Submission.votes submission = []
           /\ Submission.exported submission = false
       | _ => fst r = d
       end
    /\ (forall replyToId mission,
           Telegram.startsWithSlash (Telegram.TextMessage.text message) = false ->
           Telegram.TextMessage.urls message <> [] ->
           Telegram.TextMessage.replyToId message = Some replyToId ->
           replyToId <> 0 ->
           MissionLinks.getMissionByTelegramMessage (string_of_Z replyToId) d
           = Some mission ->
           Mission.telegramChatId mission = Some (Telegram.TextMessage.chatId message) ->
           Mission.status mission <> active ->
           r = (d, Telegram.RepliedMissionClosed)).
Proof.
  intros allowed sheetsOk now nowIso rnd message d r. subst r.
  unfold Telegram.onText.
  destruct (Telegram.startsWithSlash (Telegram.TextMessage.text message)) eqn:Hslash.
  { split; [reflexivity|]. split; [reflexivity|]. intros; discriminate. }
  destruct (Telegram.TextMessage.urls message) as [|u us] eqn:Hurls.
  { split; [reflexivity|]. split; [reflexivity|]. intros; congruence. }
  set (other := if isAllowedChat allowed (Some (Telegram.TextMessage.chatId message))
                then (d, if match Telegram.TextMessage.replyToId message with
                            | Some replyToId => negb (replyToId =? 0)
                            | None => false
                            end
                         then Telegram.RepliedNotAMission
                         else Telegram.RepliedHowToSubmit)
                else (d, Telegram.Ignored)).
  assert (missionsFile (fst other) = missionsFile d
          /\ match snd other with
             | Telegram.SubmissionCreated _ _ => False
             | _ => fst other = d
             end) as Hother.
  { subst other. destruct (isAllowedChat _ _); [|split; reflexivity].
    destruct (match Telegram.TextMessage.replyToId message with
              | Some replyToId => negb (replyToId =? 0)
              | None => false
              end); split; reflexivity. }
  destruct (Telegram.TextMessage.replyToId message) as [replyToId|] eqn:Hreply.
  2:{ split; [apply Hother|]. split; [|intros; discriminate].
      destruct Hother as [_ H2]. destruct (snd other); auto. contradiction. }
  destruct (replyToId =? 0) eqn:Hzero.
  { split; [apply Hother|]. split.
    - destruct Hother as [_ H2]. destruct (snd other); auto. contradiction.
    - intros r0 m _ _ [= <-] Hnz. apply Z.eqb_eq in Hzero. contradiction. }
  destruct (MissionLinks.getMissionByTelegramMessage (string_of_Z replyToId) d)
    as [mission|] eqn:Hmission.
  2:{ split; [apply Hother|]. split.
      - destruct Hother as [_ H2]. destruct (snd other); auto. contradiction.
      - intros r0 m _ _ [= <-] _ Hm. congruence. }
  destruct (Mission.telegramChatId mission) as [chat|] eqn:Hchat.
  2:{ cbn [negb]. split; [reflexivity|]. split; [reflexivity|].
      intros r0 m _ _ [= <-] _ Hm Hc. congruence. }
  destruct (chat =? Telegram.TextMessage.chatId message)%string eqn:Hsame; cbn [negb].
  2:{ split; [reflexivity|]. split; [reflexivity|].
      intros r0 m _ _ [= <-] _ Hm Hc. apply String.eqb_neq in Hsame. congruence. }
  apply String.eqb_eq in Hsame. subst chat.
  destruct (status_eqb (Mission.status mission) active) eqn:Hact; cbn [negb].
  2:{ split; [reflexivity|]. split; reflexivity. }
  apply status_eqb_eq in Hact.
  destruct sheetsOk; cbn [negb].
  2:{ split; [reflexivity|]. split; [reflexivity|].
      intros r0 m _ _ [= <-] _ Hm _ Hs. congruence. }
  unfold Storage.createSubmission, Storage.saveSubmissions, Storage.loadSubmissions.
  cbn [fst snd missionsFile submissionsFile].
  split; [reflexivity|]. split.
  - repeat (split; [reflexivity || discriminate || eauto|]). reflexivity.
  - intros r0 m _ _ [= <-] _ Hm _ Hs. congruence.
Qed.

Lemma telegram_submission_witness :
  let closedDisk := Storage.markMissionClosed "mission-1" announcedDisk in
  snd (Telegram.onText [] true 50 "2026-01-03T00:00:00.000Z" "q1w2" replyWithUrl
         closedDisk) = Telegram.RepliedMissionClosed
  /\ fst (Telegram.onText [] true 50 "2026-01-03T00:00:00.000Z" "q1w2" replyWithUrl
            closedDisk) = closedDisk
  /\ map Submission.source
       (submissionsFile
          (fst (Telegram.onText [] true 50 "2026-01-03T00:00:00.000Z" "q1w2"
                  replyWithUrl announcedDisk)))
     = [discord; discord; telegram].
Proof.
  intros closedDisk.
  destruct (telegram_submission_needs_active_mission [] true 50
              "2026-01-03T00:00:00.000Z" "q1w2" replyWithUrl closedDisk)
    as (_ & _ & Hclosed).
  assert (Telegram.TextMessage.urls replyWithUrl <> []) as Hu by discriminate.
  assert (501 <> 0) as Hz by lia.
  assert (Mission.status (MissionLinks.set_telegram "501" "-100900"
                            (Mission.set_status closed scenarioMission)) <> active)
    as Hs by discriminate.
  pose proof (Hclosed 501 _ eq_refl Hu eq_refl Hz eq_refl eq_refl Hs) as H.
  split; [now rewrite H|]. split; [now rewrite H|reflexivity].
Defined.

(** ** Submissions after the deadline *)

Lemma In_mutateFirst_keep {A : Type} (p : A -> bool) (f : A -> A) (l : list A) (x : A) :
  p x = false -> In x l -> In x (mutateFirst p f l).
Proof.
  intros Hx. induction l as [|y r IH]; simpl; [auto|].
  destruct (p y) eqn:Hy.
  - intros [->|H]; [congruence|now right].
  - intros [->|H]; [now left|right; auto].
Qed.

Lemma marks_keep_others ids ops :
  forallb (isMarkOf ids) ops = true ->
  forall d,
    (forall m, ~ In (Mission.id m) ids -> In m (missionsFile d) ->
               In m (missionsFile (applyOps ops d)))
    /\ (forall s, ~ In (Submission.missionId s) ids -> In s (submissionsFile d) ->
                  In s (submissionsFile (applyOps ops d))).
Proof.
  unfold applyOps. induction ops as [|op ops IH]; simpl; intros H d; [auto|].
  apply andb_true_iff in H as [Hop Hops].
  destruct (IH Hops (applyOp op d)) as [IHm IHs].
  assert (forall missionId x, existsb (String.eqb missionId) ids = true ->
            ~ In x ids -> (x =? missionId)%string = false) as Hne.
  { intros missionId x Hex Hx. apply String.eqb_neq. intros ->.
    apply existsb_exists in Hex as (y & Hy & Hxy). apply String.eqb_eq in Hxy.
    now subst y. }
  destruct op; simpl in Hop; try discriminate; simpl in *.
  - split; [|intros s Hs Hin; apply IHs; [exact Hs|];
              unfold Storage.markMissionClosed; now destruct (find _ _)].
    intros m Hm Hin. apply IHm; [exact Hm|].
    unfold Storage.markMissionClosed, Storage.loadMissions.
    destruct (find _ (missionsFile d)); [|exact Hin]. simpl.
    apply In_mutateFirst_keep; [now apply Hne|exact Hin].
  - split; [|intros s Hs Hin; apply IHs; [exact Hs|];
              unfold Storage.markMissionExported; now destruct (find _ _)].
    intros m Hm Hin. apply IHm; [exact Hm|].
    unfold Storage.markMissionExported, Storage.loadMissions.
    destruct (find _ (missionsFile d)); [|exact Hin]. simpl.
    apply In_mutateFirst_keep; [now apply Hne|exact Hin].
  - split; [intros m Hm Hin; now apply IHm|].
    intros s Hs Hin. apply IHs; [exact Hs|].
    unfold Storage.loadSubmissions. apply in_map_iff. exists s.
    rewrite (Hne missionId _ Hop Hs). auto.
Qed.

Lemma inactive_not_selected now d m :
  NoDup (map Mission.id (missionsFile d)) ->
  In m (missionsFile d) ->
  Mission.status m <> active ->
  ~ In (Mission.id m) (map Mission.id (Storage.getMissionsPastDeadline now d)).
Proof.
  intros Hnd Hin Hst Hsel. apply in_map_iff in Hsel as (m' & Hid & Hm').
  unfold Storage.getMissionsPastDeadline, Storage.loadMissions in Hm'.
  apply filter_In in Hm' as [Hin' Hact].
  apply andb_true_iff in Hact as [Hact _]. apply status_eqb_eq in Hact.
  assert (m' = m) by (apply (NoDup_map_inj Mission.id (missionsFile d)); auto).
  subst m'. contradiction.
Qed.

Lemma sweeps_keep_late_submission runs :
  forall w m s,
    NoDup (map Mission.id (missionsFile (disk w))) ->
    In m (missionsFile (disk w)) ->
    Mission.status m <> active ->
    In s (submissionsFile (disk w)) ->
    Submission.missionId s = Mission.id m ->
    In s (submissionsFile (disk (sweeps runs w))).
Proof.
  unfold sweeps. induction runs as [|[E now] runs IH]; intros w m s Hnd Hm Hst Hs Hid;
    simpl; [exact Hs|].
  destruct (checkDeadlines_disk E now w) as (ops & Hd & Hmk).
  destruct (marks_keep_others _ ops Hmk (disk w)) as [Hkm Hks].
  destruct (marks_keep_records _ ops Hmk (disk w)) as [Hkeep _].
  pose proof (inactive_not_selected now (disk w) m Hnd Hm Hst) as Hno.
  apply (IH _ m s); rewrite ?Hd; auto.
  - assert (forall l, map Mission.id l = map Mission.id (map withoutLifecycle l)) as Hmap
      by (intros l; rewrite map_map; reflexivity).
    now rewrite (Hmap (missionsFile (applyOps ops (disk w)))), Hkeep, <- Hmap.
  - apply Hks; [now rewrite Hid|exact Hs].
Qed.

(** X24. The Discord message handler does not look at the status of the
    mission, and the sweep exports a mission once.  So a submission message
    posted in the thread of a mission that is closed or exported is stored
    like any other, not exported; and when mission ids are unique, no later
    sweep selects its mission, so that after any number of sweeps, whatever
    their collaborators do, the submission is still on disk with its export
    flag down: it never reaches the spreadsheet through the deadline
    checker. *)
Theorem late_discord_submission_is_never_exported :
  forall chan now nowIso defaultDeadline now' nowIso' rnd failAt message b mission,
    isSubmissionMessage chan message = true ->
    Storage.getMissionByThread (Discord.Message.threadId message) (Discord.store b)
    = Some mission ->
    Mission.status mission <> active ->
    NoDup (map Mission.id (missionsFile (Discord.store b))) ->
    let b' := fst (Discord.onMessageCreate chan now nowIso defaultDeadline now' nowIso'
                     rnd failAt message b) in
    exists submission,
      submissionsFile (Discord.store b')
      = (submissionsFile (Discord.store b) ++ [submission])%list
      /\ Submission.missionId submission = Mission.id mission
      /\ Submission.messageId submission = Discord.Message.id message
      /\ Submission.exported submission = false
      /\ forall runs doc calls,
           let w := sweeps runs (mkWorld (Discord.store b') doc calls) in
           In submission (submissionsFile (disk w))
           /\ forall later m,
                In m (Storage.getMissionsPastDeadline later (Discord.store b')) ->
                Mission.id m <> Mission.id mission.
Proof.
  intros chan now nowIso defaultDeadline now' nowIso' rnd failAt message b mission
    Hsub Hthread Hst Hnd b'. subst b'.
  unfold isSubmissionMessage in Hsub. unfold Discord.onMessageCreate.
  destruct (Discord.Message.authorBot message); [discriminate|].
  destruct (Discord.Message.isThread message); [|discriminate].
  destruct (match Discord.Message.parentId message with
            | Some parent => (parent =? chan)%string
            | None => false
            end); [|discriminate].
  destruct (Discord.Message.urls message) as [|u us]; [discriminate|].
  cbn [negb]. rewrite Hthread.
  unfold Storage.createSubmission, Storage.saveSubmissions, Storage.loadSubmissions.
  cbn [fst snd Discord.store missionsFile submissionsFile].
  eexists. split; [reflexivity|]. split; [reflexivity|]. split; [reflexivity|].
  split; [reflexivity|].
  assert (In mission (missionsFile (Discord.store b))) as Hin.
  { unfold Storage.getMissionByThread in Hthread. apply find_some in Hthread. tauto. }
  intros runs doc calls. split.
  - apply (sweeps_keep_late_submission runs _ mission); cbn [disk missionsFile
      submissionsFile]; auto.
    apply in_or_app. right. now left.
  - intros later m Hm Heq.
    apply (inactive_not_selected later (Discord.store b) mission); auto.
    rewrite <- Heq. exact (in_map Mission.id _ m Hm).
Qed.

Lemma late_submission_witness :
  let b := Discord.mkBot (Storage.markMissionClosed "mission-21"
                            (Discord.store botAfterSubmission))
                         (Discord.messageToSubmissionId botAfterSubmission) in
  let b' := fst (Discord.onMessageCreate "chan-missions" 90 "2026-03-20T00:00:00.000Z"
                   99000 91 "2026-03-20T00:00:01.000Z" "late" None submissionMessage b) in
  let w := sweeps [(calmEnv, 10000); (calmEnv, 200000)]
             (mkWorld (Discord.store b') [] []) in
  isSubmissionMessage "chan-missions" submissionMessage = true
  /\ NoDup (map Mission.id (missionsFile (Discord.store b)))
  /\ map Mission.status (missionsFile (disk w)) = [closed]
  /\ exists submission,
       In submission (submissionsFile (disk w))
       /\ Submission.missionId submission = "mission-21"
       /\ Submission.exported submission = false.
Proof.
  intros b b' w.
  assert (isSubmissionMessage "chan-missions" submissionMessage = true) as H1
    by reflexivity.
  assert (Mission.status
            (Mission.mk "mission-21" "Spring campaign" "thread-21" 9000 closed
               "2026-03-01T00:00:00.000Z" None None None None) <> active) as H3
    by discriminate.
  assert (NoDup (map Mission.id (missionsFile (Discord.store b)))) as H4
    by (repeat constructor; simpl; intuition).
  destruct (late_discord_submission_is_never_exported "chan-missions" 90
              "2026-03-20T00:00:00.000Z" 99000 91 "2026-03-20T00:00:01.000Z" "late"
              None submissionMessage b _ H1 eq_refl H3 H4)
    as (submission & _ & Hmid & _ & Hexp & Hkeep).
  destruct (Hkeep [(calmEnv, 10000); (calmEnv, 200000)] [] []) as [Hin _].
  split; [exact H1|]. split; [exact H4|]. split; [vm_compute; reflexivity|].
  exists submission. split; [exact Hin|]. split; [exact Hmid|exact Hexp].
Defined.

(** ** Listing templates *)

Lemma insertTemplate_perm getTime x l :
  Permutation (x :: l) (insertTemplate getTime x l).
Proof.
  induction l as [|y r IH]; simpl; [apply Permutation_refl|].
  destruct (newestFirst getTime x y <=? 0); [apply Permutation_refl|].
  eapply Permutation_trans; [apply perm_swap|]. now apply perm_skip.
Qed.

Lemma insertTemplate_sorted getTime x l :
  StronglySorted (fun a b => creationTime getTime b <= creationTime getTime a) l ->
  StronglySorted (fun a b => creationTime getTime b <= creationTime getTime a)
                 (insertTemplate getTime x l).
Proof.
  set (time := creationTime getTime).
  induction l as [|y r IH]; simpl; intros Hs.
  - repeat constructor.
  - inversion Hs as [|? ? Hr Hy]; subst.
    destruct (newestFirst getTime x y <=? 0) eqn:Hc.
    + apply Z.leb_le in Hc. unfold newestFirst in Hc. fold (creationTime getTime y) (creationTime getTime x) in Hc. fold time in Hc.
      constructor; [exact Hs|]. constructor; [lia|].
      apply Forall_forall. intros z Hz.
      pose proof (proj1 (Forall_forall _ _) Hy z Hz). simpl in *. lia.
    + apply Z.leb_gt in Hc. unfold newestFirst in Hc. fold (creationTime getTime y) (creationTime getTime x) in Hc. fold time in Hc.
      constructor; [now apply IH|].
      apply Forall_forall. intros z Hz.
      apply (Permutation_in _ (Permutation_sym (insertTemplate_perm getTime x r))) in Hz.
      destruct Hz as [<-|Hz]; [lia|].
      exact (proj1 (Forall_forall _ _) Hy z Hz).
Qed.

Lemma insertTemplate_stable getTime x l t :
  StronglySorted (fun a b => creationTime getTime b <= creationTime getTime a) l ->
  filter (fun y => creationTime getTime y =? t) (insertTemplate getTime x l)
  = filter (fun y => creationTime getTime y =? t) (x :: l).
Proof.
  set (time := creationTime getTime).
  induction l as [|y r IH]; intros Hs; [reflexivity|].
  inversion Hs as [|? ? Hr Hy]; subst. cbn [insertTemplate].
  destruct (newestFirst getTime x y <=? 0) eqn:Hc; [reflexivity|].
  apply Z.leb_gt in Hc. unfold newestFirst in Hc. fold (creationTime getTime y) (creationTime getTime x) in Hc. fold time in Hc.
  cbn [filter]. rewrite (IH Hr). cbn [filter].
  destruct (time y =? t) eqn:Ey; destruct (time x =? t) eqn:Ex; try reflexivity.
  apply Z.eqb_eq in Ey, Ex. lia.
Qed.

(** X25. [getAllTemplates] returns the templates of [templates.json], each
    once, newest first by creation time, templates created at the same time
    in the order of the file; it writes nothing. *)
Theorem getAllTemplates_newest_first :
  forall getTime data,
    Permutation data (getAllTemplates getTime data)
    /\ StronglySorted (fun a b => creationTime getTime b <= creationTime getTime a)
         (getAllTemplates getTime data)
    /\ forall t,
         filter (fun y => creationTime getTime y =? t) (getAllTemplates getTime data)
         = filter (fun y => creationTime getTime y =? t) data.
Proof.
  intros getTime. induction data as [|x r (IHp & IHs & IHf)]; simpl.
  - split; [constructor|]. split; [constructor|reflexivity].
  - split; [|split].
    + eapply Permutation_trans; [|apply insertTemplate_perm]. now apply perm_skip.
    + now apply insertTemplate_sorted.
    + intros t. rewrite insertTemplate_stable by exact IHs.
      cbn [filter]. now rewrite IHf.
Qed.

(** ** The status summary *)

Lemma fold_left_count {A : Type} (f : A -> nat) (l : list A) (n : nat) :
  fold_left (fun total x => (total + f x)%nat) l n
  = (n + fold_left (fun total x => (total + f x)%nat) l O)%nat.
Proof.
  revert n. induction l as [|x r IH]; intros n; simpl; [lia|].
  rewrite (IH (n + f x)%nat), (IH (f x)). lia.
Qed.

Lemma count_by_missions (missions : list Mission.t) (subs : list Submission.t) :
  NoDup (map Mission.id missions) ->
  fold_left (fun total m =>
               (total + List.length
                          (filter (fun s => Submission.missionId s =? Mission.id m)%string
                                  subs))%nat)
            missions O
  = List.length
      (filter (fun s => existsb (fun m => Submission.missionId s =? Mission.id m)%string
                                missions) subs).
Proof.
  induction missions as [|m rest IH]; intros Hnd; simpl.
  - induction subs as [|s r IHs]; [reflexivity|exact IHs].
  - inversion Hnd as [|? ? Hid Hrest]; subst.
    rewrite fold_left_count, (IH Hrest). clear IH.
    induction subs as [|s r IHs]; simpl; [reflexivity|].
    destruct (Submission.missionId s =? Mission.id m)%string eqn:E; simpl.
    + assert (existsb (fun m0 => Submission.missionId s =? Mission.id m0)%string rest
              = false) as ->.
      { apply String.eqb_eq in E. rewrite E.
        destruct (existsb (fun m0 => Mission.id m =? Mission.id m0)%string rest) eqn:Ex;
          [|reflexivity].
        apply existsb_exists in Ex as (y & Hy & Hxy). apply String.eqb_eq in Hxy.
        exfalso. apply Hid. rewrite Hxy. now apply in_map. }
      simpl. lia.
    + destruct (existsb _ rest); simpl; lia.
Qed.

(** X26. The status page counts, when mission ids are unique, each
    submission of an active mission once and no other submission: the total
    it shows is the number of stored submissions whose mission is active, and
    so never more than the number of stored submissions. *)
Theorem totalSubmissions_counts_active :
  forall d,
    NoDup (map Mission.id (missionsFile d)) ->
    totalSubmissions d = List.length (filter (ofActiveMission d) (submissionsFile d))
    /\ (totalSubmissions d <= List.length (submissionsFile d))%nat.
Proof.
  intros d Hnd.
  assert (NoDup (map Mission.id (Storage.getActiveMissions d))) as Hact.
  { unfold Storage.getActiveMissions, Storage.loadMissions.
    induction (missionsFile d) as [|m r IH]; simpl in *; [constructor|].
    inversion Hnd as [|? ? Hm Hr]; subst.
    destruct (status_eqb (Mission.status m) active); [|now apply IH].
    simpl. constructor; [|now apply IH].
    intros Hin. apply Hm. apply in_map_iff in Hin as (x & Hx & Hin).
    apply filter_In in Hin as [Hin _]. rewrite <- Hx. now apply in_map. }
  assert (totalSubmissions d
          = List.length (filter (ofActiveMission d) (submissionsFile d))) as Heq.
  { unfold totalSubmissions, Storage.getSubmissionsByMission, Storage.loadSubmissions.
    exact (count_by_missions (Storage.getActiveMissions d) (submissionsFile d) Hact). }
  split; [exact Heq|]. rewrite Heq. apply filter_length_le.
Qed.

Lemma totalSubmissions_witness :
  NoDup (map Mission.id (missionsFile (disk scenarioWorld)))
  /\ totalSubmissions (disk scenarioWorld) = 2%nat
  /\ (totalSubmissions (Storage.markMissionClosed "mission-1" (disk scenarioWorld))
      <= 2)%nat.
Proof.
  assert (NoDup (map Mission.id (missionsFile (disk scenarioWorld)))) as Hnd
    by (repeat constructor; simpl; intuition discriminate).
  assert (NoDup (map Mission.id
                   (missionsFile (Storage.markMissionClosed "mission-1"
                                    (disk scenarioWorld))))) as Hnd'
    by (repeat constructor; simpl; intuition discriminate).
  destruct (totalSubmissions_counts_active (disk scenarioWorld) Hnd) as [Heq _].
  destruct (totalSubmissions_counts_active _ Hnd') as [_ Hle].
  split; [exact Hnd|]. split; [rewrite Heq; reflexivity|exact Hle].
Defined.

(** ** Long messages *)

Lemma sendChunks_spec paragraphs :
  forall currentChunk replies (ok : string -> Prop),
    (forall p, In p paragraphs -> ok p) ->
    (forall s, (String.length s <= MAX_LENGTH)%nat -> ok s) ->
    (currentChunk = EmptyString \/ ok currentChunk) ->
    (forall r, In r replies -> r <> EmptyString /\ ok r) ->
    (forall r, In r (sendChunks paragraphs currentChunk replies) ->
               r <> EmptyString /\ ok r)
    /\ (List.length (sendChunks paragraphs currentChunk replies)
        <= List.length replies + List.length paragraphs
           + (if (currentChunk =? "")%string then 0 else 1))%nat.
Proof.
  induction paragraphs as [|p rest IH]; intros cur replies ok Hp Hshort Hcur Hrep;
    cbn [sendChunks].
  - destruct (String.eqb_spec cur "") as [->|Hne].
    + split; [exact Hrep|lia].
    + split; [|rewrite length_app; simpl; lia].
      intros r Hr. apply in_app_or in Hr as [Hr|[<-|[]]]; [now apply Hrep|].
      split; [exact Hne|]. destruct Hcur; [contradiction|assumption].
  - assert (forall r, In r (if (cur =? "")%string then replies
                             else (replies ++ [cur])%list) ->
                      r <> EmptyString /\ ok r) as Hrep'.
    { destruct (String.eqb_spec cur "") as [->|Hne]; [exact Hrep|].
      intros r Hr. apply in_app_or in Hr as [Hr|[<-|[]]]; [now apply Hrep|].
      split; [exact Hne|]. destruct Hcur; [contradiction|assumption]. }
    destruct (MAX_LENGTH <? String.length (cur ++ paragraphBreak ++ p))%nat eqn:Hlong.
    + destruct (IH p (if (cur =? "")%string then replies else (replies ++ [cur])%list)
                  ok) as [H1 H2]; auto.
      { intros q Hq. apply Hp. now right. }
      { right. apply Hp. now left. }
      split; [exact H1|].
      destruct (cur =? "")%string, (p =? "")%string;
        rewrite ?length_app in H2; simpl in *; lia.
    + apply Nat.ltb_ge in Hlong.
      assert (String.length (cur ++ paragraphBreak ++ p)
              = String.length cur + 2 + String.length p)%nat as Hlen.
      { rewrite !string_length_app. unfold paragraphBreak, newline. simpl. lia. }
      destruct (IH (if (cur =? "")%string then p
                    else (cur ++ paragraphBreak ++ p)%string) replies ok) as [H1 H2];
        auto.
      { intros q Hq. apply Hp. now right. }
      { right. apply Hshort. destruct (cur =? "")%string; lia. }
      split; [exact H1|].
      destruct (String.eqb_spec cur "") as [->|Hne].
      * destruct (p =? "")%string; simpl in *; lia.
      * assert (((cur ++ paragraphBreak ++ p) =? "")%string = false) as He.
        { apply String.eqb_neq. destruct cur; [contradiction|discriminate]. }
        rewrite He in H2. simpl in *. lia.
Qed.

(** X27. [sendLongMessage] on an ASCII text.  A text of at most 4000
    characters is sent whole in one reply (an empty text as an empty reply).
    A longer text is sent in replies none of which is empty, each of which
    either has at most 4000 characters or is one single paragraph of the
    text (a paragraph too long on its own is not split), and there are at
    most as many replies as paragraphs. *)
Theorem sendLongMessage_chunks :
  forall text,
    ((String.length text <= MAX_LENGTH)%nat -> sendLongMessage text = [text])
    /\ ((MAX_LENGTH < String.length text)%nat ->
        (forall r, In r (sendLongMessage text) ->
                   r <> EmptyString
                   /\ ((String.length r <= MAX_LENGTH)%nat
                       \/ In r (splitParagraphs text)))
        /\ (List.length (sendLongMessage text)
            <= List.length (splitParagraphs text))%nat).
Proof.
  intros text. unfold sendLongMessage. split.
  - intros H. apply Nat.leb_le in H. now rewrite H.
  - intros H. apply Nat.leb_gt in H. rewrite H.
    destruct (sendChunks_spec (splitParagraphs text) EmptyString []
                (fun r => (String.length r <= MAX_LENGTH)%nat
                          \/ In r (splitParagraphs text))) as [H1 H2]; auto.
    + intros r [].
    + split; [exact H1|]. simpl in H2. lia.
Qed.

Lemma sendLongMessage_witness :
  (String.length "short" <= MAX_LENGTH)%nat
  /\ sendLongMessage "short" = ["short"]
  /\ (MAX_LENGTH < String.length threeParagraphs)%nat
  /\ map String.length (sendLongMessage threeParagraphs) = [3002; 1502]%nat
  /\ (forall r, In r (sendLongMessage threeParagraphs) -> r <> EmptyString)
  /\ (List.length (sendLongMessage threeParagraphs)
      <= List.length (splitParagraphs threeParagraphs))%nat.
Proof.
  assert (String.length "short" <= MAX_LENGTH)%nat as H by (unfold MAX_LENGTH; simpl; lia).
  assert (MAX_LENGTH < String.length threeParagraphs)%nat as Hlong
    by (apply Nat.ltb_lt; vm_compute; reflexivity).
  destruct (sendLongMessage_chunks "short") as [Hshort _].
  destruct (sendLongMessage_chunks threeParagraphs) as [_ Hchunks].
  destruct (Hchunks Hlong) as [Hall Hcount].
  split; [exact H|]. split; [exact (Hshort H)|]. split; [exact Hlong|].
  split; [vm_compute; reflexivity|]. split; [|exact Hcount].
  intros r Hr. exact (proj1 (Hall r Hr)).
Defined.

(** ** The arguments of /tm *)

Lemma tokenize_nonempty input :
  forall parts current quote,
    (forall p, In p parts -> p <> EmptyString) ->
    forall p, In p (tokenize input parts current quote) -> p <> EmptyString.
Proof.
  induction input as [|ch r IH]; intros parts current quote Hparts; cbn [tokenize].
  - destruct (String.eqb_spec current "") as [->|Hne]; [exact Hparts|].
    intros p Hp. apply in_app_or in Hp as [Hp|[<-|[]]]; auto.
  - assert (forall p, In p (parts ++ [current])%list -> current <> EmptyString ->
                      p <> EmptyString) as Hpush.
    { intros p Hp Hne. apply in_app_or in Hp as [Hp|[<-|[]]]; auto. }
    destruct quote as [quoteChar|].
    + destruct (Ascii.eqb ch quoteChar); now apply IH.
    + destruct (isQuoteChar ch); [now apply IH|].
      destruct (Ascii.eqb ch " "); [|now apply IH].
      destruct (String.eqb_spec current "") as [->|Hne]; [now apply IH|].
      apply IH. intros p Hp. now apply Hpush.
Qed.

Lemma string_app_char_blank (s : string) (ch : ascii) :
  forallb (fun c => negb (Ascii.eqb c " ")) (list_ascii_of_string s) = true ->
  Ascii.eqb ch " " = false ->
  forallb (fun c => negb (Ascii.eqb c " "))
          (list_ascii_of_string (s ++ String ch EmptyString)) = true.
Proof.
  intros Hs Hc. induction s as [|c r IH]; simpl in *; [now rewrite Hc|].
  apply andb_true_iff in Hs as [H1 H2]. now rewrite H1, IH.
Qed.

Lemma withoutBlanks_fixed (s : string) :
  forallb (fun c => negb (Ascii.eqb c " ")) (list_ascii_of_string s) = true ->
  withoutBlanks s = s.
Proof.
  induction s as [|c r IH]; simpl; [reflexivity|].
  intros H. apply andb_true_iff in H as [H1 H2]. apply negb_true_iff in H1.
  now rewrite H1, IH.
Qed.

Lemma tokenize_plain input :
  forallb (fun c => negb (isQuoteChar c)) (list_ascii_of_string input) = true ->
  forall parts current,
    forallb (fun c => negb (Ascii.eqb c " ")) (list_ascii_of_string current) = true ->
    (forall p, In p parts ->
               forallb (fun c => negb (Ascii.eqb c " ")) (list_ascii_of_string p) = true) ->
    (forall p, In p (tokenize input parts current None) ->
               forallb (fun c => negb (Ascii.eqb c " ")) (list_ascii_of_string p) = true)
    /\ fold_right append EmptyString (tokenize input parts current None)
       = (fold_right append EmptyString parts ++ current ++ withoutBlanks input)%string.
Proof.
  assert (forall parts current,
            fold_right append EmptyString (parts ++ [current])%list
            = (fold_right append EmptyString parts ++ current)%string) as Hpush.
  { intros parts current. induction parts as [|p r IH]; simpl.
    - induction current; simpl; congruence.
    - now rewrite IH, string_app_assoc. }
  assert (forall s : string, (s ++ "")%string = s) as Hnil
    by (induction s; simpl; congruence).
  induction input as [|ch r IH]; intros Hq parts current Hcur Hparts; cbn [tokenize].
  - simpl. rewrite Hnil. destruct (String.eqb_spec current "") as [->|Hne].
    + split; [exact Hparts|]. now rewrite Hnil.
    + split; [|apply Hpush].
      intros p Hp. apply in_app_or in Hp as [Hp|[<-|[]]]; auto.
  - simpl in Hq. apply andb_true_iff in Hq as [Hch Hr]. apply negb_true_iff in Hch.
    rewrite Hch. cbn [withoutBlanks].
    destruct (Ascii.eqb ch " ") eqn:Hsp.
    + destruct (String.eqb_spec current "") as [->|Hne].
      * now apply IH.
      * destruct (IH Hr (parts ++ [current])%list EmptyString eq_refl) as [H1 H2].
        { intros p Hp. apply in_app_or in Hp as [Hp|[<-|[]]]; auto. }
        split; [exact H1|]. rewrite H2, Hpush. simpl. now rewrite string_app_assoc.
    + destruct (IH Hr parts (current ++ String ch EmptyString)%string) as [H1 H2];
        [now apply string_app_char_blank|exact Hparts|].
      split; [exact H1|]. rewrite H2. f_equal. now rewrite string_app_assoc.
Qed.

Lemma splitAtEquals_spec part key value :
  splitAtEquals part = Some (key, value) ->
  part = (key ++ "=" ++ value)%string
  /\ forallb (fun c => negb (Ascii.eqb c "=")) (list_ascii_of_string key) = true.
Proof.
  revert key. induction part as [|c r IH]; intros key; simpl; [discriminate|].
  destruct (Ascii.eqb c "=") eqn:Hc.
  - intros [= <- <-]. apply Ascii.eqb_eq in Hc. subst c. auto.
  - destruct (splitAtEquals r) as [[k v]|]; [|discriminate].
    intros [= <- <-]. destruct (IH k eq_refl) as [-> Hk].
    simpl. rewrite Hc. auto.
Qed.

(** X28. [parseTemplateArgs].  No part it cuts the input into is empty, the
    template name is the first part (empty when there is none), and every
    variable stems from a later part [key=value] cut at its first [=], with a
    key that is not empty, holds no [=] and is not [__proto__].  On an input
    without quote characters no part holds a blank, and the parts, put
    together, are the input without its blanks. *)
Theorem parseTemplateArgs_spec :
  forall input,
    let parts := tokenize input [] EmptyString None in
    (forall p, In p parts -> p <> EmptyString)
    /\ fst (parseTemplateArgs input) = hd EmptyString parts
    /\ (fst (parseTemplateArgs input) = EmptyString <-> parts = [])
    /\ (forall key value,
           In (key, value) (snd (parseTemplateArgs input)) ->
           key <> EmptyString
           /\ key <> "__proto__"
           /\ forallb (fun c => negb (Ascii.eqb c "=")) (list_ascii_of_string key) = true
           /\ In (key ++ "=" ++ value)%string (tl parts))
    /\ (forallb (fun c => negb (isQuoteChar c)) (list_ascii_of_string input) = true ->
        (forall p, In p parts ->
           forallb (fun c => negb (Ascii.eqb c " ")) (list_ascii_of_string p) = true)
        /\ fold_right append EmptyString parts = withoutBlanks input).
Proof.
  intros input parts.
  assert (forall p, In p parts -> p <> EmptyString) as Hne.
  { apply tokenize_nonempty. intros p []. }
  split; [exact Hne|]. split; [reflexivity|]. split; [|split].
  - unfold parseTemplateArgs. fold parts. cbn [fst].
    destruct parts as [|p rest]; simpl; [tauto|].
    split; [|discriminate]. intros ->. exfalso. apply (Hne ""); [now left|reflexivity].
  - unfold parseTemplateArgs. fold parts. cbn [snd].
    assert (forall later variables key value,
              In (key, value)
                 (fold_left (fun variables part =>
                               match splitAtEquals part with
                               | Some (key, value) =>
                                   if (key =? "")%string then variables
                                   else setProperty key value variables
                               | None => variables
                               end) later variables) ->
              In (key, value) variables
              \/ (key <> EmptyString /\ key <> "__proto__"
                  /\ forallb (fun c => negb (Ascii.eqb c "="))
                             (list_ascii_of_string key) = true
                  /\ In (key ++ "=" ++ value)%string later)) as Hfold.
    { induction later as [|part later IH]; intros variables key value; simpl; [auto|].
      intros H. apply IH in H as [H|(H1 & H2 & H3 & H4)]; [|right; auto].
      destruct (splitAtEquals part) as [[k v]|] eqn:Hs; [|auto].
      destruct (String.eqb_spec k "") as [->|Hk]; [auto|].
      unfold setProperty in H. destruct (String.eqb_spec k "__proto__") as [->|Hp]; [auto|].
      apply In_mapSet in H as [[= -> ->]|H]; [|auto].
      destruct (splitAtEquals_spec _ _ _ Hs) as [-> Hkey]. right. auto. }
    intros key value H. apply Hfold in H as [[]|H]. exact H.
  - intros Hq. destruct (tokenize_plain input Hq [] EmptyString eq_refl) as [H1 H2].
    + intros p [].
    + split; [exact H1|exact H2].
Qed.

Lemma parseTemplateArgs_witness :
  forallb (fun c => negb (isQuoteChar c))
          (list_ascii_of_string "weekly  topic=Pyth deadline_days=3 =x") = true
  /\ parseTemplateArgs "weekly  topic=Pyth deadline_days=3 =x"
     = ("weekly", [("topic", "Pyth"); ("deadline_days", "3")])
  /\ fold_right append EmptyString
       (tokenize "weekly  topic=Pyth deadline_days=3 =x" [] EmptyString None)
     = "weeklytopic=Pythdeadline_days=3=x"
  /\ tokenize ("weekly topic=" ++ doubleQuote ++ "Pyth V3" ++ doubleQuote)
       [] EmptyString None
     = ["weekly"; "topic=Pyth V3"].
Proof.
  assert (forallb (fun c => negb (isQuoteChar c))
            (list_ascii_of_string "weekly  topic=Pyth deadline_days=3 =x") = true)
    as Hq by reflexivity.
  destruct (parseTemplateArgs_spec "weekly  topic=Pyth deadline_days=3 =x")
    as (_ & _ & _ & _ & Hplain).
  destruct (Hplain Hq) as [_ Hcat].
  split; [exact Hq|]. split; [reflexivity|]. split; [exact Hcat|reflexivity].
Defined.
